(** * nuuanu seeding tool: a shallow embedding of [types.ts], the helpers of
    [utils] and the handlers of [App.tsx], with the properties of its
    state and derivation layer.

    Strings are sequences of UTF-16 code units, as the JavaScript host has
    them, so [length] is [String.prototype.length].  Numbers that the code
    only ever uses at integer values are integers.  Handlers are functions
    from the component state to the next component state together with the
    effects they raise (alerts, toasts, console output). *)

From Stdlib Require Import ZArith NArith QArith List Lia Bool String Ascii.
From stdpp Require Import base option list gmap fin_maps.

Set Warnings "-register-all".

Local Open Scope N_scope.

(** ** The host: strings, numbers, JSON *)

Module Js.

(** A string is the list of its UTF-16 code units. *)
Definition jsstring : Type := list N.

(** Source literals are written in UTF-8; [utf8_code_points] decodes the
    bytes of a literal and [utf16_units] gives the code units. *)
Fixpoint utf8_code_points (bs : list N) : list N :=
  match bs with
  | [] => []
  | b0 :: t0 =>
    if b0 <? 128 then b0 :: utf8_code_points t0
    else match t0 with
      | [] => []
      | b1 :: t1 =>
        if b0 <? 224 then ((b0 mod 32) * 64 + b1 mod 64) :: utf8_code_points t1
        else match t1 with
          | [] => []
          | b2 :: t2 =>
            if b0 <? 240
            then ((b0 mod 16) * 4096 + (b1 mod 64) * 64 + b2 mod 64)
                   :: utf8_code_points t2
            else match t2 with
              | [] => []
              | b3 :: t3 =>
                ((b0 mod 8) * 262144 + (b1 mod 64) * 4096
                 + (b2 mod 64) * 64 + b3 mod 64) :: utf8_code_points t3
              end
          end
      end
  end.

Definition utf16_units (cp : N) : list N :=
  if cp <? 65536 then [cp]
  else [55296 + (cp - 65536) / 1024; 56320 + (cp - 65536) mod 1024].

Fixpoint bytes_of_string (s : string) : list N :=
  match s with
  | EmptyString => []
  | String a r => N_of_ascii a :: bytes_of_string r
  end.

Definition js (s : string) : jsstring :=
  flat_map utf16_units (utf8_code_points (bytes_of_string s)).

Definition eqb (a b : jsstring) : bool := bool_decide (a = b).

(** [s.length] *)
Definition length (s : jsstring) : Z := Z.of_nat (List.length s).

(** WhiteSpace and LineTerminator code points, the ones [trim] strips. *)
Definition isWhiteSpace (c : N) : bool :=
  ((9 <=? c) && (c <=? 13)) || (c =? 32) || (c =? 160) || (c =? 5760)
  || ((8192 <=? c) && (c <=? 8202)) || (c =? 8232) || (c =? 8233)
  || (c =? 8239) || (c =? 8287) || (c =? 12288) || (c =? 65279).

Fixpoint trimStart (s : jsstring) : jsstring :=
  match s with
  | c :: r => if isWhiteSpace c then trimStart r else s
  | [] => []
  end.

Definition trimEnd (s : jsstring) : jsstring := rev (trimStart (rev s)).

Definition trim (s : jsstring) : jsstring := trimEnd (trimStart s).

(** [s.substr(start, len)] and [s.substring(0, e)] at the non-negative
    arguments the code passes. *)
Definition substr (start len : nat) (s : jsstring) : jsstring :=
  firstn len (skipn start s).

Definition substring0 (e : nat) (s : jsstring) : jsstring := firstn e s.

(** [parts.join(sep)] *)
Fixpoint join (sep : jsstring) (parts : list jsstring) : jsstring :=
  match parts with
  | [] => []
  | [p] => p
  | p :: rest => p ++ sep ++ join sep rest
  end.

(** [s.split(c)[0]] for a one-unit separator: the text before its first
    occurrence, the whole string when there is none. *)
Fixpoint split_head (c : N) (s : jsstring) : jsstring :=
  match s with
  | [] => []
  | x :: r => if x =? c then [] else x :: split_head c r
  end.

(** The global replacement of [escape]: every double quote (code unit 34)
    is doubled, every other unit is kept. *)
Fixpoint replace_quotes (s : jsstring) : jsstring :=
  match s with
  | [] => []
  | c :: r => if c =? 34 then 34 :: 34 :: replace_quotes r
              else c :: replace_quotes r
  end.

(** ASCII folding; on ASCII text it is [String.prototype.toLowerCase]. *)
Definition asciiLower (s : jsstring) : jsstring :=
  map (fun c => if (65 <=? c) && (c <=? 90) then c + 32 else c) s.

(** *** Text as bytes

    A [Blob] made from a string holds its UTF-8 encoding: the string is
    first read as a sequence of scalar values, a surrogate pair being one
    code point and a surrogate without its partner U+FFFD, and each
    scalar value is written in one to four bytes. *)

Definition isLeadSurrogate (c : N) : bool := (55296 <=? c) && (c <=? 56319).

Definition isTrailSurrogate (c : N) : bool := (56320 <=? c) && (c <=? 57343).

Fixpoint scalar_values (s : jsstring) : list N :=
  match s with
  | [] => []
  | c :: r =>
    if isLeadSurrogate c then
      match r with
      | d :: r' =>
        if isTrailSurrogate d
        then (65536 + (c - 55296) * 1024 + (d - 56320)) :: scalar_values r'
        else 65533 :: scalar_values r
      | [] => [65533]
      end
    else if isTrailSurrogate c then 65533 :: scalar_values r
    else c :: scalar_values r
  end.

Definition utf8_bytes (cp : N) : list N :=
  if cp <? 128 then [cp]
  else if cp <? 2048 then [192 + cp / 64; 128 + cp mod 64]
  else if cp <? 65536
       then [224 + cp / 4096; 128 + (cp / 64) mod 64; 128 + cp mod 64]
       else [240 + cp / 262144; 128 + (cp / 4096) mod 64;
             128 + (cp / 64) mod 64; 128 + cp mod 64].

Definition utf8_encode (s : jsstring) : list N :=
  flat_map utf8_bytes (scalar_values s).

(** [s.toWellFormed()]: every surrogate without its partner becomes
    U+FFFD, every other code unit stays. *)
Fixpoint toWellFormed (s : jsstring) : jsstring :=
  match s with
  | [] => []
  | c :: r =>
    if isLeadSurrogate c then
      match r with
      | d :: r' =>
        if isTrailSurrogate d then c :: d :: toWellFormed r'
        else 65533 :: toWellFormed r
      | [] => [65533]
      end
    else if isTrailSurrogate c then 65533 :: toWellFormed r
    else c :: toWellFormed r
  end.

(** A code unit has 16 bits. *)
Definition codeUnit (c : N) : Prop := c < 65536.

(** A text that does not start with a trail surrogate. *)
Definition no_trail_ahead (s : jsstring) : Prop :=
  match s with
  | d :: _ => isTrailSurrogate d = false
  | [] => True
  end.

(** *** Numbers *)

Definition isDigit (c : N) : bool := (48 <=? c) && (c <=? 57).

(** Decimal digits of a natural number, most significant first.  The
    fuel is the binary size of the number, which bounds the number of
    its decimal digits. *)
Fixpoint digits_fuel (fuel : nat) (n : N) (acc : jsstring) : jsstring :=
  match fuel with
  | O => acc
  | S f => if n <? 10 then (48 + n) :: acc
           else digits_fuel f (n / 10) ((48 + n mod 10) :: acc)
  end.

Definition digits (n : N) : jsstring := digits_fuel (S (N.size_nat n)) n [].

(** [String(z)] for an integer-valued number below 10^21 in magnitude,
    where the host prints plain decimal digits. *)
Definition Number_toString (z : Z) : jsstring :=
  match z with
  | Z0 => [48]
  | Zpos p => digits (Npos p)
  | Zneg p => 45 :: digits (Npos p)
  end.

(** One more decimal digit after the value read so far. *)
Definition digit_value (acc c : N) : N := 10 * acc + (c - 48).

(** The longest run of decimal digits at the head of a string: its
    value over the accumulator, how many digits were read, and the
    rest. *)
Fixpoint read_digits (s : jsstring) (acc : N) (count : nat)
  : N * nat * jsstring :=
  match s with
  | c :: r => if isDigit c then read_digits r (digit_value acc c) (S count)
              else (acc, count, s)
  | [] => (acc, count, [])
  end.

(** Digit value of a code unit in a radix up to 36. *)
Definition digitVal (radix : N) (c : N) : option N :=
  let v := if isDigit c then Some (c - 48)
           else if (97 <=? c) && (c <=? 122) then Some (c - 87)
           else if (65 <=? c) && (c <=? 90) then Some (c - 55)
           else None in
  match v with
  | Some d => if d <? radix then Some d else None
  | None => None
  end.

Fixpoint read_radix (radix : N) (s : jsstring) (acc : option N) : option N :=
  match s with
  | c :: r =>
    match digitVal radix c with
    | Some d => read_radix radix r (Some (radix * default 0 acc + d))
    | None => acc
    end
  | [] => acc
  end.

(** An optional sign at the head of a string: whether it is a minus,
    and the rest. *)
Definition read_sign (s : jsstring) : bool * jsstring :=
  match s with
  | c :: r => if c =? 45 then (true, r)
              else if c =? 43 then (false, r)
              else (false, s)
  | [] => (false, [])
  end.

(** The Numbers that [parseInt] returns: NaN, an infinity or an
    integer (the sign of a zero does not matter to the code: both zeros
    are falsy). *)
Inductive number : Type :=
| NumNaN
| NumInfinity (negative : bool)
| NumInt (z : Z).

(** The Number value of a natural number.  A number of at most 53 bits
    is a double.  A longer one is rounded to 53 significant bits, to the
    nearest, and to the even one of two that are as near; from 2^1024 on
    the result is an infinity, which is [None]. *)
Definition nearest_double (n : N) : option N :=
  if N.size n <=? 53 then Some n
  else
    let sh := N.size n - 53 in
    let q := N.shiftr n sh in
    let r := n - N.shiftl q sh in
    let half := N.shiftl 1 (sh - 1) in
    let q' := if (half <? r) || ((r =? half) && N.odd q) then q + 1 else q in
    let d := N.shiftl q' sh in
    if 2 ^ 1024 <=? d then None else Some d.

(** The radix of a numeral without a radix argument: 16 after [0x] or
    [0X], 10 otherwise. *)
Definition read_prefix (s : jsstring) : N * jsstring :=
  match s with
  | 48 :: 120 :: r => (16, r)
  | 48 :: 88 :: r => (16, r)
  | _ => (10, s)
  end.

(** [parseInt(s)] without a radix argument: white space, a sign, an
    optional [0x], then the longest run of digits of the radix; no digit
    gives NaN.  The result is the Number value of the integer the digits
    denote, as the engines compute it (the standard also lets a decimal
    numeral be read with zeros after its twentieth digit). *)
Definition parseInt (s : jsstring) : number :=
  let '(neg, s2) := read_sign (trimStart s) in
  let '(radix, s3) := read_prefix s2 in
  match read_radix radix s3 None with
  | None => NumNaN
  | Some m =>
    match nearest_double m with
    | Some d => NumInt (if neg then (- Z.of_N d)%Z else Z.of_N d)
    | None => NumInfinity neg
    end
  end.

Definition pow10 (k : nat) : positive := Nat.iter k (Pos.mul 10) 1%positive.

(** [parseFloat(s)] on plain decimal text: optional sign, digits,
    optional fraction.  The value is the exact rational; exponents and
    [Infinity] are left out.  [None] is NaN. *)
Definition parseFloat (s : jsstring) : option Q :=
  let '(neg, s2) := read_sign (trimStart s) in
  let '(ip, ic, s3) := read_digits s2 0 O in
  let '(m, fc) :=
    match s3 with
    | 46 :: r => let '(m, fc, _) := read_digits r ip O in (m, fc)
    | _ => (ip, O)
    end in
  if Nat.eqb (ic + fc) 0 then None
  else
    let q := (Z.of_N m # pow10 fc) in
    Some (if neg then Qopp q else q).

(** [(t / (1024 * 1024)).toFixed(2)] for a non-negative integer [t]
    below 2^53.  The division by a power of two is exact, and [toFixed]
    picks the integer [h] with [h / 100] nearest to it, the larger one
    on a tie; the result is the decimal text of [h / 100] with two
    fraction digits. *)
Definition hundredths_of_MB (t : Z) : Z := ((100 * t + 524288) / 1048576)%Z.

Definition fixed2 (h : Z) : jsstring :=
  let n := Z.to_N h in
  digits (n / 100) ++ [46; 48 + (n / 10) mod 10; 48 + n mod 10].

Definition MB_toFixed2 (t : Z) : jsstring := fixed2 (hundredths_of_MB t).

(** *** Dynamic values: what a property of an [any] holds *)

Inductive JsVal : Type :=
| VUndefined
| VNull
| VBool (b : bool)
| VNum (z : Z)
| VNaN
| VStr (s : jsstring).

Definition truthy (v : JsVal) : bool :=
  match v with
  | VUndefined | VNull | VNaN => false
  | VBool b => b
  | VNum z => negb (z =? 0)%Z
  | VStr s => match s with [] => false | _ => true end
  end.

(** [v || d] *)
Definition or_else (v d : JsVal) : JsVal := if truthy v then v else d.

(** [String(v)] *)
Definition ToString (v : JsVal) : jsstring :=
  match v with
  | VUndefined => js "undefined"
  | VNull => js "null"
  | VBool true => js "true"
  | VBool false => js "false"
  | VNum z => Number_toString z
  | VNaN => js "NaN"
  | VStr s => s
  end.

(** *** JSON.parse

    The text is read one code unit at a time by a lexer automaton and
    the tokens by a stack automaton, so both are total.  A number keeps
    its lexeme.  [None] is the SyntaxError the host throws. *)

Inductive json : Type :=
| JNull
| JBool (b : bool)
| JNumber (lexeme : jsstring)
| JString (s : jsstring)
| JArray (items : list json)
| JObject (members : list (jsstring * json)).

Inductive token : Type :=
| TLBrace | TRBrace | TLBracket | TRBracket | TColon | TComma
| TNull | TTrue | TFalse
| TString (s : jsstring)
| TNumber (lexeme : jsstring).

Inductive numphase : Type :=
| NSign | NZero | NInt | NDot | NFrac | NE | NESign | NExp.

Inductive lexstate : Type :=
| LStart
| LLit (rest : jsstring) (t : token)
| LStr (acc : jsstring)
| LEsc (acc : jsstring)
| LHex (acc : jsstring) (k : nat) (v : N)
| LNum (ph : numphase) (acc : jsstring).

Definition isJsonSpace (c : N) : bool :=
  (c =? 32) || (c =? 9) || (c =? 10) || (c =? 13).

Definition lex_start (c : N) : option (lexstate * list token) :=
  if isJsonSpace c then Some (LStart, [])
  else if c =? 123 then Some (LStart, [TLBrace])
  else if c =? 125 then Some (LStart, [TRBrace])
  else if c =? 91 then Some (LStart, [TLBracket])
  else if c =? 93 then Some (LStart, [TRBracket])
  else if c =? 58 then Some (LStart, [TColon])
  else if c =? 44 then Some (LStart, [TComma])
  else if c =? 34 then Some (LStr [], [])
  else if c =? 110 then Some (LLit [117; 108; 108] TNull, [])
  else if c =? 116 then Some (LLit [114; 117; 101] TTrue, [])
  else if c =? 102 then Some (LLit [97; 108; 115; 101] TFalse, [])
  else if c =? 45 then Some (LNum NSign [c], [])
  else if c =? 48 then Some (LNum NZero [c], [])
  else if isDigit c then Some (LNum NInt [c], [])
  else None.

Definition isExpMark (c : N) : bool := (c =? 101) || (c =? 69).

Definition lex_number_end (acc : jsstring) (c : N)
  : option (lexstate * list token) :=
  match lex_start c with
  | Some (st, ts) => Some (st, TNumber (rev acc) :: ts)
  | None => None
  end.

Definition lex_step (st : lexstate) (c : N) : option (lexstate * list token) :=
  match st with
  | LStart => lex_start c
  | LLit [] _ => None
  | LLit (x :: rest) t =>
    if c =? x
    then Some (match rest with [] => (LStart, [t]) | _ => (LLit rest t, []) end)
    else None
  | LStr acc =>
    if c =? 34 then Some (LStart, [TString (rev acc)])
    else if c =? 92 then Some (LEsc acc, [])
    else if c <? 32 then None
    else Some (LStr (c :: acc), [])
  | LEsc acc =>
    if (c =? 34) || (c =? 92) || (c =? 47) then Some (LStr (c :: acc), [])
    else if c =? 98 then Some (LStr (8 :: acc), [])
    else if c =? 102 then Some (LStr (12 :: acc), [])
    else if c =? 110 then Some (LStr (10 :: acc), [])
    else if c =? 114 then Some (LStr (13 :: acc), [])
    else if c =? 116 then Some (LStr (9 :: acc), [])
    else if c =? 117 then Some (LHex acc 3 0, [])
    else None
  | LHex acc k v =>
    match digitVal 16 c with
    | Some d =>
      Some (match k with
            | O => (LStr ((16 * v + d) :: acc), [])
            | S k' => (LHex acc k' (16 * v + d), [])
            end)
    | None => None
    end
  | LNum ph acc =>
    match ph with
    | NSign =>
      if c =? 48 then Some (LNum NZero (c :: acc), [])
      else if isDigit c then Some (LNum NInt (c :: acc), [])
      else None
    | NZero =>
      if c =? 46 then Some (LNum NDot (c :: acc), [])
      else if isExpMark c then Some (LNum NE (c :: acc), [])
      else lex_number_end acc c
    | NInt =>
      if isDigit c then Some (LNum NInt (c :: acc), [])
      else if c =? 46 then Some (LNum NDot (c :: acc), [])
      else if isExpMark c then Some (LNum NE (c :: acc), [])
      else lex_number_end acc c
    | NDot =>
      if isDigit c then Some (LNum NFrac (c :: acc), []) else None
    | NFrac =>
      if isDigit c then Some (LNum NFrac (c :: acc), [])
      else if isExpMark c then Some (LNum NE (c :: acc), [])
      else lex_number_end acc c
    | NE =>
      if (c =? 43) || (c =? 45) then Some (LNum NESign (c :: acc), [])
      else if isDigit c then Some (LNum NExp (c :: acc), [])
      else None
    | NESign =>
      if isDigit c then Some (LNum NExp (c :: acc), []) else None
    | NExp =>
      if isDigit c then Some (LNum NExp (c :: acc), [])
      else lex_number_end acc c
    end
  end.

Definition lex_finish (st : lexstate) : option (list token) :=
  match st with
  | LStart => Some []
  | LNum NZero acc | LNum NInt acc | LNum NFrac acc | LNum NExp acc =>
    Some [TNumber (rev acc)]
  | _ => None
  end.

Fixpoint lex (s : jsstring) (st : lexstate) : option (list token) :=
  match s with
  | [] => lex_finish st
  | c :: r =>
    match lex_step st c with
    | Some (st', ts) =>
      match lex r st' with
      | Some more => Some (ts ++ more)
      | None => None
      end
    | None => None
    end
  end.

Inductive frame : Type :=
| FArr (acc : list json)
| FObj (acc : list (jsstring * json)) (key : jsstring).

Inductive pstate : Type :=
| PValue (stk : list frame)
| PArrFirst (stk : list frame)
| PArrNext (acc : list json) (stk : list frame)
| PObjFirst (stk : list frame)
| PObjNext (acc : list (jsstring * json)) (stk : list frame)
| PKey (acc : list (jsstring * json)) (stk : list frame)
| PColon (acc : list (jsstring * json)) (key : jsstring) (stk : list frame)
| PDone (v : json).

(** A value is complete: hand it to the enclosing container. *)
Definition reduce (v : json) (stk : list frame) : pstate :=
  match stk with
  | [] => PDone v
  | FArr acc :: stk' => PArrNext (v :: acc) stk'
  | FObj acc key :: stk' => PObjNext ((key, v) :: acc) stk'
  end.

Definition parse_value (t : token) (stk : list frame) : option pstate :=
  match t with
  | TNull => Some (reduce JNull stk)
  | TTrue => Some (reduce (JBool true) stk)
  | TFalse => Some (reduce (JBool false) stk)
  | TString s => Some (reduce (JString s) stk)
  | TNumber n => Some (reduce (JNumber n) stk)
  | TLBracket => Some (PArrFirst stk)
  | TLBrace => Some (PObjFirst stk)
  | _ => None
  end.

Definition parse_step (st : pstate) (t : token) : option pstate :=
  match st with
  | PValue stk => parse_value t stk
  | PArrFirst stk =>
    match t with
    | TRBracket => Some (reduce (JArray []) stk)
    | _ => parse_value t (FArr [] :: stk)
    end
  | PArrNext acc stk =>
    match t with
    | TComma => Some (PValue (FArr acc :: stk))
    | TRBracket => Some (reduce (JArray (rev acc)) stk)
    | _ => None
    end
  | PObjFirst stk =>
    match t with
    | TRBrace => Some (reduce (JObject []) stk)
    | TString k => Some (PColon [] k stk)
    | _ => None
    end
  | PObjNext acc stk =>
    match t with
    | TComma => Some (PKey acc stk)
    | TRBrace => Some (reduce (JObject (rev acc)) stk)
    | _ => None
    end
  | PKey acc stk =>
    match t with
    | TString k => Some (PColon acc k stk)
    | _ => None
    end
  | PColon acc k stk =>
    match t with
    | TColon => Some (PValue (FObj acc k :: stk))
    | _ => None
    end
  | PDone _ => None
  end.

Fixpoint parse_tokens (ts : list token) (st : pstate) : option json :=
  match ts with
  | [] => match st with PDone v => Some v | _ => None end
  | t :: r =>
    match parse_step st t with
    | Some st' => parse_tokens r st'
    | None => None
    end
  end.

Definition JSON_parse (s : jsstring) : option json :=
  match lex s LStart with
  | Some ts => parse_tokens ts (PValue [])
  | None => None
  end.

End Js.

Import Js.



(** ** types.ts *)

Inductive ShippingStatus : Type := PREPARING | SHIPPED.

Definition ShippingStatus_value (st : ShippingStatus) : jsstring :=
  match st with
  | PREPARING => js "준비중"
  | SHIPPED => js "배송완료"
  end.

Module Product.
Record t : Type := mk {
  id : jsstring;
  name : jsstring;
  price : jsstring;
  options : list jsstring;
  description : jsstring;
  images : list jsstring
}.
End Product.

Module ShippingEntry.
Record t : Type := mk {
  id : jsstring;
  status : ShippingStatus;
  submitDate : jsstring;
  instagramId : jsstring;
  name : jsstring;
  phone : jsstring;
  address : jsstring;
  message : jsstring;
  extra : jsstring;
  productName : jsstring;
  size : jsstring;
  quantity : Z;
  adminMemo : jsstring
}.
End ShippingEntry.

Module Collection.
Record t : Type := mk {
  id : jsstring;
  name : jsstring;
  accessCode : jsstring;
  maxProducts : Z;
  logoUrl : option jsstring;
  lookbookImages : list jsstring;
  descriptionTitle : jsstring;
  descriptionBody : jsstring;
  products : list Product.t;
  shippingEntries : list ShippingEntry.t
}.

(** [Partial<Collection>]: the fields an update provides. *)
Record partial : Type := mkPartial {
  id' : option jsstring;
  name' : option jsstring;
  accessCode' : option jsstring;
  maxProducts' : option Z;
  logoUrl' : option (option jsstring);
  lookbookImages' : option (list jsstring);
  descriptionTitle' : option jsstring;
  descriptionBody' : option jsstring;
  products' : option (list Product.t);
  shippingEntries' : option (list ShippingEntry.t)
}.

Definition no_updates : partial :=
  mkPartial None None None None None None None None None None.

(** The object spread of a collection with a partial one. *)
Definition spread (c : t) (u : partial) : t :=
  {| id := default (id c) (id' u);
     name := default (name c) (name' u);
     accessCode := default (accessCode c) (accessCode' u);
     maxProducts := default (maxProducts c) (maxProducts' u);
     logoUrl := default (logoUrl c) (logoUrl' u);
     lookbookImages := default (lookbookImages c) (lookbookImages' u);
     descriptionTitle := default (descriptionTitle c) (descriptionTitle' u);
     descriptionBody := default (descriptionBody c) (descriptionBody' u);
     products := default (products c) (products' u);
     shippingEntries := default (shippingEntries c) (shippingEntries' u) |}.

Definition with_shippingEntries (c : t) (es : list ShippingEntry.t) : t :=
  spread c {| id' := None; name' := None; accessCode' := None;
              maxProducts' := None; logoUrl' := None;
              lookbookImages' := None; descriptionTitle' := None;
              descriptionBody' := None; products' := None;
              shippingEntries' := Some es |}.
End Collection.

Module CartItem.
Record t : Type := mk {
  productId : jsstring;
  productName : jsstring;
  size : jsstring;
  image : jsstring
}.
End CartItem.

Module AppState.
Record t : Type := mk {
  collections : list Collection.t;
  activeCollectionId : option jsstring;
  adminAccessCode : jsstring
}.
End AppState.

(** ** utils *)

Module Utils.

(** [localStorage]: the keys it holds and their values. *)
Abbreviation Storage := (gmap jsstring jsstring).

(** The property names a [Storage] object inherits, from
    [Storage.prototype] and from [Object.prototype].  A stored key of
    one of these names is not an own property of the object: the name
    resolves to the inherited member. *)
Definition inherited : list jsstring :=
  [ js "length"; js "key"; js "getItem"; js "setItem"; js "removeItem";
    js "clear"; js "constructor"; js "hasOwnProperty"; js "isPrototypeOf";
    js "propertyIsEnumerable"; js "toLocaleString"; js "toString";
    js "valueOf"; js "__proto__"; js "__defineGetter__";
    js "__defineSetter__"; js "__lookupGetter__"; js "__lookupSetter__" ].

(** [localStorage.hasOwnProperty(x)] *)
Definition hasOwnProperty (localStorage : Storage) (x : jsstring) : bool :=
  bool_decide (is_Some (localStorage !! x))
  && negb (bool_decide (x ∈ inherited)).

(** The loop of [getStorageUsage].  [for (const x in localStorage)] goes
    through the stored keys and the inherited names; the test keeps the
    stored keys that are own properties. *)
Definition usage_total (localStorage : Storage) : Z :=
  map_fold (fun x v total =>
              if hasOwnProperty localStorage x
              then (total + (Js.length v + Js.length x) * 2)%Z
              else total)
           0%Z localStorage.

(** What the loop adds for a stored key. *)
Definition counted (x v : jsstring) (total : Z) : Z :=
  if bool_decide (x ∈ inherited) then total
  else (total + (Js.length v + Js.length x) * 2)%Z.

Definition getStorageUsage (localStorage : Storage) : jsstring :=
  MB_toFixed2 (usage_total localStorage).

Definition MAX_STORAGE_MB : Q := 5.

(** [generateId], given the text of [Math.random().toString(36)]. *)
Definition generateId (random36 : jsstring) : jsstring := substr 2 9 random36.

(** An element of the [any[]] that [downloadCSV] receives, through the
    properties the function reads. *)
Record item : Type := mkItem {
  instagramId : JsVal;
  name : JsVal;
  phone : JsVal;
  address : JsVal;
  productName : JsVal;
  size : JsVal;
  quantity : JsVal;
  message : JsVal
}.

Definition item_of_entry (e : ShippingEntry.t) : item :=
  {| instagramId := VStr (ShippingEntry.instagramId e);
     name := VStr (ShippingEntry.name e);
     phone := VStr (ShippingEntry.phone e);
     address := VStr (ShippingEntry.address e);
     productName := VStr (ShippingEntry.productName e);
     size := VStr (ShippingEntry.size e);
     quantity := VNum (ShippingEntry.quantity e);
     message := VStr (ShippingEntry.message e) |}.

Definition customHeaders : list jsstring :=
  [ js "instagram ID"; js "이름"; js "전화번호"; js "받는분기타연락처";
    js "받는분우편번호"; js "주소"; js "제품명"; js "사이즈"; js "수량";
    js "배송메세지1" ].

Definition escape (val : JsVal) : jsstring :=
  let s := replace_quotes (ToString (or_else val (VStr []))) in
  34 :: s ++ [34].

Definition row (it : item) : list jsstring :=
  [ escape (instagramId it);
    escape (name it);
    escape (phone it);
    escape (VStr []);
    escape (VStr []);
    escape (address it);
    escape (productName it);
    escape (size it);
    escape (or_else (quantity it) (VNum 1));
    escape (message it) ].

Definition csvRows (data : list item) : list jsstring :=
  join [44] customHeaders :: map (fun it => join [44] (row it)) data.

Definition csvString (data : list item) : jsstring := join [10] (csvRows data).

(** The file handed to the browser: its name and the bytes of its blob. *)
Record download : Type := mkDownload {
  filename : jsstring;
  blob : list N
}.

Definition downloadCSV (filename : jsstring) (data : list item)
  : option download :=
  match data with
  | [] => None
  | _ => Some {| filename := filename;
                 blob := utf8_encode (65279 :: csvString data) |}
  end.

End Utils.


(** ** App.tsx: the [App] component *)

Module User.
Inductive t : Type := admin | influencer.
End User.

Module View.
Inductive t : Type := login | select_collection | admin | influencer.
End View.

Module SubView.
Inductive t : Type := settings | products | shipping | report.
End SubView.

Module Kind.
Inductive t : Type := success | error.
End Kind.

Module App.

Definition STORAGE_KEY : jsstring := js "nuuanu_app_state".

(** [defaultState], as the value the component starts from. *)
Definition defaultState : json :=
  JObject [ (js "collections", JArray []);
            (js "activeCollectionId", JNull);
            (js "adminAccessCode", JString (js "admin")) ].

(** The initializer of the [state] hook: the value it returns and what
    it writes to the console.  An empty saved text is falsy. *)
Definition load (localStorage : Utils.Storage) : json * list jsstring :=
  match localStorage !! STORAGE_KEY with
  | Some saved =>
    match saved with
    | [] => (defaultState, [])
    | _ =>
      match JSON_parse saved with
      | Some v => (v, [])
      | None => (defaultState, [js "Failed to parse storage"])
      end
    end
  | None => (defaultState, [])
  end.

(** The state of the component: one field per hook. *)
Record t : Type := mk {
  state : AppState.t;
  currentUser : option User.t;
  activeCollection : option Collection.t;
  accessCodeInput : jsstring;
  error : option jsstring;
  success : option jsstring;
  cart : list CartItem.t;
  view : View.t;
  adminSubView : SubView.t;
  isCreateModalOpen : bool;
  newCollectionName : jsstring
}.

Definition setState (x : AppState.t) (a : t) : t :=
  let (_, cu, ac, ai, er, su, ca, vi, sv, mo, nn) := a in
  mk x cu ac ai er su ca vi sv mo nn.
Definition setCurrentUser (x : option User.t) (a : t) : t :=
  let (st, _, ac, ai, er, su, ca, vi, sv, mo, nn) := a in
  mk st x ac ai er su ca vi sv mo nn.
Definition setActiveCollection (x : option Collection.t) (a : t) : t :=
  let (st, cu, _, ai, er, su, ca, vi, sv, mo, nn) := a in
  mk st cu x ai er su ca vi sv mo nn.
Definition setAccessCodeInput (x : jsstring) (a : t) : t :=
  let (st, cu, ac, _, er, su, ca, vi, sv, mo, nn) := a in
  mk st cu ac x er su ca vi sv mo nn.
Definition setError (x : option jsstring) (a : t) : t :=
  let (st, cu, ac, ai, _, su, ca, vi, sv, mo, nn) := a in
  mk st cu ac ai x su ca vi sv mo nn.
Definition setSuccess (x : option jsstring) (a : t) : t :=
  let (st, cu, ac, ai, er, _, ca, vi, sv, mo, nn) := a in
  mk st cu ac ai er x ca vi sv mo nn.
Definition setCart (x : list CartItem.t) (a : t) : t :=
  let (st, cu, ac, ai, er, su, _, vi, sv, mo, nn) := a in
  mk st cu ac ai er su x vi sv mo nn.
Definition setView (x : View.t) (a : t) : t :=
  let (st, cu, ac, ai, er, su, ca, _, sv, mo, nn) := a in
  mk st cu ac ai er su ca x sv mo nn.
Definition setAdminSubView (x : SubView.t) (a : t) : t :=
  let (st, cu, ac, ai, er, su, ca, vi, _, mo, nn) := a in
  mk st cu ac ai er su ca vi x mo nn.
Definition setIsCreateModalOpen (x : bool) (a : t) : t :=
  let (st, cu, ac, ai, er, su, ca, vi, sv, _, nn) := a in
  mk st cu ac ai er su ca vi sv x nn.
Definition setNewCollectionName (x : jsstring) (a : t) : t :=
  let (st, cu, ac, ai, er, su, ca, vi, sv, mo, _) := a in
  mk st cu ac ai er su ca vi sv mo x.

(** [notify]: the toast is a state of the component (the timer that
    clears it later is a separate event). *)
Definition notify (msg : jsstring) (type : Kind.t) (a : t) : t :=
  match type with
  | Kind.success => setSuccess (Some msg) a
  | Kind.error => setError (Some msg) a
  end.

Section Login.

(** [String.prototype.toLowerCase] of the host. *)
Variable toLowerCase : jsstring -> jsstring.

(** The comparison of the influencer check, as a property. *)
Definition matches (code : jsstring) (c : Collection.t) : Prop :=
  toLowerCase (Collection.accessCode c) = code.

Definition handleLogin (a : t) : t :=
  let code := toLowerCase (trim (accessCodeInput a)) in
  if Js.eqb code (toLowerCase (AppState.adminAccessCode (state a)))
  then setView View.select_collection (setCurrentUser (Some User.admin) a)
  else
    match find (fun c => Js.eqb (toLowerCase (Collection.accessCode c)) code)
               (AppState.collections (state a)) with
    | Some matched =>
      setView View.influencer
        (setCurrentUser (Some User.influencer)
           (setActiveCollection (Some matched) a))
    | None => notify (js "Invalid Access Code") Kind.error a
    end.

End Login.

Definition handleLogout (a : t) : t :=
  setAccessCodeInput []
    (setView View.login
       (setCart [] (setActiveCollection None (setCurrentUser None a)))).

Definition updateCollection (updated : Collection.t) (a : t) : t :=
  let newCollections :=
    map (fun c => if Js.eqb (Collection.id c) (Collection.id updated)
                  then updated else c)
        (AppState.collections (state a)) in
  setActiveCollection (Some updated)
    (setState {| AppState.collections := newCollections;
                 AppState.activeCollectionId :=
                   AppState.activeCollectionId (state a);
                 AppState.adminAccessCode :=
                   AppState.adminAccessCode (state a) |} a).

(** [parseFloat(getStorageUsage()) >= MAX_STORAGE_MB * 0.95].  The
    product is the double 4.75 and rounding to a double is monotone, so
    the comparison of doubles is the comparison of the rationals; NaN
    compares false. *)
Definition storage_nearly_full (localStorage : Utils.Storage) : bool :=
  match parseFloat (Utils.getStorageUsage localStorage) with
  | Some usage => Qle_bool (Utils.MAX_STORAGE_MB * 0.95) usage
  | None => false
  end.

(** [createCollection].  [r1] and [r2] are the texts of the two
    [Math.random().toString(36)] the two calls of [generateId] draw. *)
Definition createCollection (localStorage : Utils.Storage) (r1 r2 : jsstring)
           (a : t) : t :=
  let name := trim (newCollectionName a) in
  match name with
  | [] => a
  | _ =>
    if storage_nearly_full localStorage
    then notify (js "Storage nearly full. Delete old collections first.")
                Kind.error a
    else
      let newColl :=
        {| Collection.id := Utils.generateId r1;
           Collection.name := name;
           Collection.accessCode := substring0 6 (Utils.generateId r2);
           Collection.maxProducts := 2;
           Collection.logoUrl := None;
           Collection.lookbookImages := [];
           Collection.descriptionTitle := js "Collection Story";
           Collection.descriptionBody :=
             js "Share the inspiration behind this season.";
           Collection.products := [];
           Collection.shippingEntries := [] |} in
      notify (js "Collection " ++ [34] ++ name ++ [34] ++ js " created")
             Kind.success
        (setNewCollectionName []
           (setIsCreateModalOpen false
              (setAdminSubView SubView.settings
                 (setView View.admin
                    (setActiveCollection (Some newColl)
                       (setState
                          {| AppState.collections :=
                               AppState.collections (state a) ++ [newColl];
                             AppState.activeCollectionId :=
                               AppState.activeCollectionId (state a);
                             AppState.adminAccessCode :=
                               AppState.adminAccessCode (state a) |} a))))))
  end.

(** The [onSubmission] prop handed to the influencer page, rendered for
    the active collection. *)
Definition onSubmission (activeCollection : Collection.t)
           (newEntries : list ShippingEntry.t) (a : t) : t :=
  let updatedCollection :=
    Collection.with_shippingEntries activeCollection
      (Collection.shippingEntries activeCollection ++ newEntries) in
  updateCollection updatedCollection a.

End App.

(** ** App.tsx: the [AdminDashboard] component *)

Module AdminDashboard.

Definition handleUpdate (collection : Collection.t)
           (updates : Collection.partial) (a : App.t) : App.t :=
  App.notify (js "Changes Saved") Kind.success
    (App.updateCollection (Collection.spread collection updates) a).

(** [parseInt(e.target.value) || 1]: NaN and 0 are falsy. *)
Definition maxProducts_of_input (value : jsstring) : number :=
  match parseInt value with
  | NumNaN => NumInt 1
  | NumInt z => if (z =? 0)%Z then NumInt 1 else NumInt z
  | NumInfinity negative => NumInfinity negative
  end.

(** The change handler of the selection limit input.  The limit of a
    collection is an integer in this development: [None] stands for the
    update whose limit is an infinity. *)
Definition onMaxProductsChange (collection : Collection.t)
           (value : jsstring) (a : App.t) : option App.t :=
  match maxProducts_of_input value with
  | NumInt m =>
    Some (handleUpdate collection
            {| Collection.id' := None; Collection.name' := None;
               Collection.accessCode' := None;
               Collection.maxProducts' := Some m;
               Collection.logoUrl' := None; Collection.lookbookImages' := None;
               Collection.descriptionTitle' := None;
               Collection.descriptionBody' := None;
               Collection.products' := None;
               Collection.shippingEntries' := None |} a)
  | _ => None
  end.

Definition EXTRA_SENTINEL : jsstring := js "추가 제품".

(** The copy the duplicate button makes of the entry of its row. *)
Definition duplicate_copy (entry : ShippingEntry.t) (random36 : jsstring)
  : ShippingEntry.t :=
  {| ShippingEntry.id := Utils.generateId random36;
     ShippingEntry.status := ShippingEntry.status entry;
     ShippingEntry.submitDate := EXTRA_SENTINEL;
     ShippingEntry.instagramId := ShippingEntry.instagramId entry;
     ShippingEntry.name := ShippingEntry.name entry;
     ShippingEntry.phone := ShippingEntry.phone entry;
     ShippingEntry.address := ShippingEntry.address entry;
     ShippingEntry.message := ShippingEntry.message entry;
     ShippingEntry.extra := ShippingEntry.extra entry;
     ShippingEntry.productName := [];
     ShippingEntry.size := [];
     ShippingEntry.quantity := ShippingEntry.quantity entry;
     ShippingEntry.adminMemo := ShippingEntry.adminMemo entry |}.

(** The click handler of the duplicate button. *)
Definition onDuplicate (collection : Collection.t) (entry : ShippingEntry.t)
           (random36 : jsstring) (a : App.t) : App.t :=
  let copy := duplicate_copy entry random36 in
  App.notify (js "Entry duplicated (Fields cleared)") Kind.success
    (App.updateCollection
       (Collection.with_shippingEntries collection
          (Collection.shippingEntries collection ++ [copy])) a).

(** [handleDownload] with the set of selected entry ids. *)
Definition handleDownload (collection : Collection.t)
           (selectedEntries : gset jsstring) (a : App.t)
  : App.t * option Utils.download :=
  let dataToDownload :=
    if bool_decide (0 < size selectedEntries)%nat
    then filter (fun e => ShippingEntry.id e ∈ selectedEntries)
                (Collection.shippingEntries collection)
    else Collection.shippingEntries collection in
  (App.notify (js "Exported "
                 ++ Number_toString
                      (Z.of_nat (List.length dataToDownload))
                 ++ js " items") Kind.success a,
   Utils.downloadCSV
     (Collection.name collection ++ js "_shipping_export.csv")
     (map Utils.item_of_entry dataToDownload)).

End AdminDashboard.

(** ** App.tsx: the [InfluencerPage] component *)

Module PageView.
Inductive t : Type := lookbook | product_detail | cart | success.
End PageView.

Module InfluencerPage.

Record formData : Type := mkForm {
  instagramId : jsstring;
  name : jsstring;
  phone : jsstring;
  address : jsstring;
  message : jsstring;
  extra : jsstring;
  agreed : bool
}.

(** The hooks of the page that its handlers read or write (the slide
    index and the scroll position only drive the display).  The cart,
    the collection and the callbacks are props and live in the [App]
    component. *)
Record t : Type := mk {
  view : PageView.t;
  selectedProduct : option Product.t;
  selectedSize : jsstring;
  form : formData
}.

Definition initial : t :=
  {| view := PageView.lookbook;
     selectedProduct := None;
     selectedSize := [];
     form := mkForm [] [] [] [] [] [] false |}.

(** What the host supplies to one element of [cart.map]: the text of
    [Math.random().toString(36)] and of [new Date().toISOString()]. *)
Record draw : Type := mkDraw {
  random36 : jsstring;
  isoTime : jsstring
}.

Definition handleNavigate (newView : PageView.t) (p : t) : t :=
  {| view := newView;
     selectedProduct := selectedProduct p;
     selectedSize := selectedSize p;
     form := form p |}.

Definition setSelectedProduct (x : option Product.t) (p : t) : t :=
  {| view := view p; selectedProduct := x;
     selectedSize := selectedSize p; form := form p |}.

Definition setSelectedSize (x : jsstring) (p : t) : t :=
  {| view := view p; selectedProduct := selectedProduct p;
     selectedSize := x; form := form p |}.

Definition setFormData (x : formData) (p : t) : t :=
  {| view := view p; selectedProduct := selectedProduct p;
     selectedSize := selectedSize p; form := x |}.

Definition placeholder : jsstring :=
  js "https://picsum.photos/seed/nuuanu/400/600".

(** [images[0] || placeholder] *)
Definition first_image (images : list jsstring) : jsstring :=
  match images with
  | (_ :: _) as i :: _ => i
  | _ => placeholder
  end.

(** A handler gives the next state of the two components and the
    alerts it raised. *)
Definition outcome : Type := App.t * t * list jsstring.

Definition addToCart (collection : Collection.t) (a : App.t) (p : t)
  : outcome :=
  match selectedProduct p, selectedSize p with
  | Some sp, _ :: _ =>
    if (Collection.maxProducts collection <=? Z.of_nat (List.length (App.cart a)))%Z
    then (a, p,
          [js "You've reached the selection limit of "
             ++ Number_toString (Collection.maxProducts collection)
             ++ js " products."])
    else
      let a1 := App.setCart
                  (App.cart a ++
                     [{| CartItem.productId := Product.id sp;
                         CartItem.productName := Product.name sp;
                         CartItem.size := selectedSize p;
                         CartItem.image := first_image (Product.images sp) |}])
                  a in
      let p1 := setSelectedSize []
                  (setSelectedProduct None
                     (handleNavigate PageView.lookbook p)) in
      (App.notify (js "Successfully added to selection") Kind.success a1,
       p1, [])
  | _, _ => (a, p, [js "Please select a size preference."])
  end.

(** [cart.filter((_, i) => i !== idx)] *)
Fixpoint filter_index {A : Type} (keep : nat -> bool) (i : nat) (l : list A)
  : list A :=
  match l with
  | [] => []
  | x :: r => if keep i then x :: filter_index keep (S i) r
              else filter_index keep (S i) r
  end.

Definition removeFromCart (idx : nat) (a : App.t) : App.t :=
  App.setCart
    (filter_index (fun i => negb (Nat.eqb i idx)) O (App.cart a)) a.

Definition isEmpty (s : jsstring) : bool :=
  match s with [] => true | _ => false end.

Definition newEntry (f : formData) (d : draw) (item : CartItem.t)
  : ShippingEntry.t :=
  {| ShippingEntry.id := Utils.generateId (random36 d);
     ShippingEntry.status := PREPARING;
     ShippingEntry.submitDate := split_head 84 (isoTime d);
     ShippingEntry.instagramId := instagramId f;
     ShippingEntry.name := name f;
     ShippingEntry.phone := phone f;
     ShippingEntry.address := address f;
     ShippingEntry.message := message f;
     ShippingEntry.extra := extra f;
     ShippingEntry.productName := CartItem.productName item;
     ShippingEntry.size := CartItem.size item;
     ShippingEntry.quantity := 1%Z;
     ShippingEntry.adminMemo := [] |}.

(** [handleSubmit].  [host i] is what the host supplies while the
    element of index [i] of the cart is mapped. *)
Definition handleSubmit (collection : Collection.t) (host : nat -> draw)
           (a : App.t) (p : t) : outcome :=
  let f := form p in
  if isEmpty (instagramId f) || isEmpty (name f) || isEmpty (phone f)
     || isEmpty (address f) || negb (agreed f)
  then (a, p,
        [js "Please complete all required fields and accept the terms."])
  else
    let newEntries := imap (fun i item => newEntry f (host i) item)
                           (App.cart a) in
    (App.setCart [] (App.onSubmission collection newEntries a),
     handleNavigate PageView.success p, []).

(** *** The controls of the page

    An event is a click or an input on a control; a control exists only
    in the views that render it.  Product tiles, size buttons and cart
    rows are named by their position. *)
Inductive event : Type :=
| Navigate (v : PageView.t)
| OpenProduct (i : nat)
| SelectSize (i : nat)
| AddToCart
| RemoveFromCart (idx : nat)
| SetFormData (f : formData)
| Submit (host : nat -> draw)
| Logout.

Definition isSome {A : Type} (o : option A) : bool :=
  match o with Some _ => true | None => false end.

(** Whether the page renders the control of the event. *)
Definition rendered (ev : event) (a : App.t) (p : t) : bool :=
  match App.view a, App.activeCollection a with
  | View.influencer, Some collection =>
    match view p with
    | PageView.success =>
      match ev with Logout => true | _ => false end
    | v =>
      match ev with
      | Logout => true
      | Navigate PageView.lookbook => true
      | Navigate PageView.cart => true
      | Navigate _ => false
      | OpenProduct i =>
        match v with
        | PageView.lookbook => isSome (Collection.products collection !! i)
        | _ => false
        end
      | SelectSize i =>
        match v, selectedProduct p with
        | PageView.product_detail, Some sp => isSome (Product.options sp !! i)
        | _, _ => false
        end
      | AddToCart =>
        match v with
        | PageView.product_detail => isSome (selectedProduct p)
        | _ => false
        end
      | RemoveFromCart idx =>
        match v with
        | PageView.cart => isSome (App.cart a !! idx)
        | _ => false
        end
      | SetFormData _ =>
        match v with PageView.cart => true | _ => false end
      | Submit _ =>
        match v with
        | PageView.cart => match App.cart a with [] => false | _ => true end
        | _ => false
        end
      end
    end
  | _, _ => false
  end.

(** The handler of a rendered control.  Logging out unmounts the page,
    so the next session starts from [initial]. *)
Definition handle (collection : Collection.t) (ev : event) (a : App.t) (p : t)
  : outcome :=
  match ev with
  | Navigate v => (a, handleNavigate v p, [])
  | OpenProduct i =>
    match Collection.products collection !! i with
    | Some prod =>
      (a, handleNavigate PageView.product_detail
            (setSelectedProduct (Some prod) p), [])
    | None => (a, p, [])
    end
  | SelectSize i =>
    match selectedProduct p with
    | Some sp =>
      match Product.options sp !! i with
      | Some size => (a, setSelectedSize size p, [])
      | None => (a, p, [])
      end
    | None => (a, p, [])
    end
  | AddToCart => addToCart collection a p
  | RemoveFromCart idx => (removeFromCart idx a, p, [])
  | SetFormData f => (a, setFormData f p, [])
  | Submit host => handleSubmit collection host a p
  | Logout => (App.handleLogout a, initial, [])
  end.

Definition step (ev : event) (s : App.t * t) : App.t * t :=
  let (a, p) := s in
  match App.activeCollection a with
  | Some collection =>
    if rendered ev a p then fst (handle collection ev a p) else s
  | None => s
  end.

Definition run (evs : list event) (s : App.t * t) : App.t * t :=
  fold_left (fun s ev => step ev s) evs s.


End InfluencerPage.

(** ** The reader of the round trip

    The spec reads the exported file back with a standard CSV reader.
    [CsvReader] follows RFC 4180: records end at a line break (LF, CR or
    CRLF), fields are separated by commas, a field that starts with a
    double quote runs to its closing quote with doubled quotes standing
    for one.  The file is read as UTF-8, and a byte-order mark at the
    start of the text is dropped. *)

Module CsvReader.

Inductive mode : Type :=
| FieldStart
| Unquoted
| Quoted
| QuoteSeen
| AfterCR.

Record state : Type := mkState {
  md : mode;
  field : jsstring;
  record : list jsstring;
  records : list (list jsstring)
}.

Definition add (c : N) (m : mode) (st : state) : state :=
  mkState m (c :: field st) (record st) (records st).

Definition endField (st : state) : state :=
  mkState FieldStart [] (rev (field st) :: record st) (records st).

Definition endRecord (m : mode) (st : state) : state :=
  mkState m [] [] (rev (rev (field st) :: record st) :: records st).

Definition separator (c : N) (st : state) : option state :=
  if c =? 44 then Some (endField st)
  else if c =? 10 then Some (endRecord FieldStart st)
  else if c =? 13 then Some (endRecord AfterCR st)
  else None.

Definition start (c : N) (st : state) : state :=
  if c =? 34 then mkState Quoted [] (record st) (records st)
  else match separator c st with
       | Some st' => st'
       | None => add c Unquoted st
       end.

Definition step (st : state) (c : N) : state :=
  match md st with
  | FieldStart => start c st
  | Unquoted =>
    match separator c st with
    | Some st' => st'
    | None => add c Unquoted st
    end
  | Quoted => if c =? 34 then mkState QuoteSeen (field st) (record st) (records st)
              else add c Quoted st
  | QuoteSeen =>
    if c =? 34 then add c Quoted st
    else match separator c st with
         | Some st' => st'
         | None => add c Unquoted st
         end
  | AfterCR =>
    if c =? 10 then mkState FieldStart [] [] (records st)
    else start c (mkState FieldStart [] [] (records st))
  end.

Definition finish (st : state) : list (list jsstring) :=
  match md st, record st with
  | FieldStart, [] | AfterCR, _ => rev (records st)
  | _, _ => rev (records (endRecord FieldStart st))
  end.

Definition initial : state := mkState FieldStart [] [] [].

Definition read (text : jsstring) : list (list jsstring) :=
  finish (fold_left step text initial).

(** The text of a file: its bytes decoded as UTF-8. *)
Definition decode (bytes : list N) : jsstring :=
  flat_map utf16_units (utf8_code_points bytes).

Definition read_file (bytes : list N) : list (list jsstring) :=
  match decode bytes with
  | 65279 :: r => read r
  | text => read text
  end.

End CsvReader.


(** ** What the exported file should read back as *)

Module RoundTrip.

(** A field between its quotes. *)
Definition quote (t : jsstring) : jsstring := 34 :: replace_quotes t ++ [34].

(** The text of a column: [String(val || "")]. *)
Definition text (v : JsVal) : jsstring := ToString (or_else v (VStr [])).

(** The ten columns of an item, unquoted. *)
Definition cells (it : Utils.item) : list jsstring :=
  [ text (Utils.instagramId it);
    text (Utils.name it);
    text (Utils.phone it);
    [];
    [];
    text (Utils.address it);
    text (Utils.productName it);
    text (Utils.size it);
    text (or_else (Utils.quantity it) (VNum 1));
    text (Utils.message it) ].

(** The ten columns of a shipping entry: its exported fields, with two
    blank columns after the phone, and 1 for a quantity of 0. *)
Definition entry_cells (e : ShippingEntry.t) : list jsstring :=
  [ ShippingEntry.instagramId e;
    ShippingEntry.name e;
    ShippingEntry.phone e;
    [];
    [];
    ShippingEntry.address e;
    ShippingEntry.productName e;
    ShippingEntry.size e;
    Number_toString (if (ShippingEntry.quantity e =? 0)%Z then 1%Z
                     else ShippingEntry.quantity e);
    ShippingEntry.message e ].

End RoundTrip.

(** ** The shape of the document

    [AppState] of [types.ts], read as a predicate on a parsed value: an
    object whose [collections] is an array, whose [activeCollectionId] is
    a string or null and whose [adminAccessCode] is a string. *)

Module Shape.

(** Property lookup in a parsed object: the last member of that name. *)
Definition member (key : jsstring) (members : list (jsstring * json))
  : option json :=
  snd <$> find (fun kv => Js.eqb (fst kv) key) (rev members).

Definition isAppState (v : json) : bool :=
  match v with
  | JObject members =>
    match member (js "collections") members,
          member (js "activeCollectionId") members,
          member (js "adminAccessCode") members with
    | Some (JArray _), Some (JString _ | JNull), Some (JString _) => true
    | _, _, _ => false
    end
  | _ => false
  end.

End Shape.

(** ** Sample data *)

Module Sample.

Definition entry : ShippingEntry.t :=
  {| ShippingEntry.id := js "k3x9q2m1z";
     ShippingEntry.status := SHIPPED;
     ShippingEntry.submitDate := js "2024-05-17";
     ShippingEntry.instagramId := js "abc";
     ShippingEntry.name := js "김민지";
     ShippingEntry.phone := js "010-1234-5678";
     ShippingEntry.address := js "Seoul";
     ShippingEntry.message := js "fast please";
     ShippingEntry.extra := [];
     ShippingEntry.productName := js "Tee";
     ShippingEntry.size := js "M";
     ShippingEntry.quantity := 2%Z;
     ShippingEntry.adminMemo := js "vip" |}.

(** The same entry with quantity 0. *)
Definition entry0 : ShippingEntry.t :=
  {| ShippingEntry.id := ShippingEntry.id entry;
     ShippingEntry.status := ShippingEntry.status entry;
     ShippingEntry.submitDate := ShippingEntry.submitDate entry;
     ShippingEntry.instagramId := ShippingEntry.instagramId entry;
     ShippingEntry.name := ShippingEntry.name entry;
     ShippingEntry.phone := ShippingEntry.phone entry;
     ShippingEntry.address := ShippingEntry.address entry;
     ShippingEntry.message := ShippingEntry.message entry;
     ShippingEntry.extra := ShippingEntry.extra entry;
     ShippingEntry.productName := ShippingEntry.productName entry;
     ShippingEntry.size := ShippingEntry.size entry;
     ShippingEntry.quantity := 0%Z;
     ShippingEntry.adminMemo := ShippingEntry.adminMemo entry |}.

Definition tee : Product.t :=
  {| Product.id := js "p1";
     Product.name := js "Tee";
     Product.price := js "39,000";
     Product.options := [js "S"; js "M"];
     Product.description := [];
     Product.images := [] |}.

Definition collection : Collection.t :=
  {| Collection.id := js "c1";
     Collection.name := js "SS24";
     Collection.accessCode := js "Spring";
     Collection.maxProducts := 2%Z;
     Collection.logoUrl := None;
     Collection.lookbookImages := [];
     Collection.descriptionTitle := js "Collection Story";
     Collection.descriptionBody := [];
     Collection.products := [tee];
     Collection.shippingEntries := [entry] |}.

(** The collection with five images in its lookbook. *)
Definition lookbook : Collection.t :=
  {| Collection.id := Collection.id collection;
     Collection.name := Collection.name collection;
     Collection.accessCode := Collection.accessCode collection;
     Collection.maxProducts := Collection.maxProducts collection;
     Collection.logoUrl := Collection.logoUrl collection;
     Collection.lookbookImages :=
       [js "1.jpg"; js "2.jpg"; js "3.jpg"; js "4.jpg"; js "5.jpg"];
     Collection.descriptionTitle := Collection.descriptionTitle collection;
     Collection.descriptionBody := Collection.descriptionBody collection;
     Collection.products := Collection.products collection;
     Collection.shippingEntries := Collection.shippingEntries collection |}.

Definition document : AppState.t :=
  {| AppState.collections := [collection];
     AppState.activeCollectionId := None;
     AppState.adminAccessCode := js "admin" |}.

(** The component at the login view, with a text typed in the code
    input and a name typed in the creation dialog. *)
Definition atLogin (input newName : jsstring) : App.t :=
  {| App.state := document;
     App.currentUser := None;
     App.activeCollection := None;
     App.accessCodeInput := input;
     App.error := None;
     App.success := None;
     App.cart := [];
     App.view := View.login;
     App.adminSubView := SubView.settings;
     App.isCreateModalOpen := false;
     App.newCollectionName := newName |}.

(** The admin looking at the collection. *)
Definition asAdmin : App.t :=
  App.setView View.admin
    (App.setActiveCollection (Some collection)
       (App.setCurrentUser (Some User.admin) (atLogin [] []))).

(** An influencer of the collection with one item in the cart and the
    form filled in. *)
Definition item : CartItem.t :=
  {| CartItem.productId := js "p1";
     CartItem.productName := js "Tee";
     CartItem.size := js "M";
     CartItem.image := InfluencerPage.placeholder |}.

Definition asInfluencer : App.t :=
  App.setCart [item]
    (App.setView View.influencer
       (App.setActiveCollection (Some collection)
          (App.setCurrentUser (Some User.influencer) (atLogin [] [])))).

Definition filled : InfluencerPage.formData :=
  {| InfluencerPage.instagramId := js "abc";
     InfluencerPage.name := js "김민지";
     InfluencerPage.phone := js "010-1234-5678";
     InfluencerPage.address := js "Seoul";
     InfluencerPage.message := js "fast please";
     InfluencerPage.extra := [];
     InfluencerPage.agreed := true |}.

Definition atCart : InfluencerPage.t :=
  {| InfluencerPage.view := PageView.cart;
     InfluencerPage.selectedProduct := None;
     InfluencerPage.selectedSize := [];
     InfluencerPage.form := filled |}.

Definition host (i : nat) : InfluencerPage.draw :=
  {| InfluencerPage.random36 := js "0.8f2k1x9q0za";
     InfluencerPage.isoTime := js "2024-05-17T09:30:00.000Z" |}.

(** Clicks of a session: two additions, a removal, one more addition. *)
Definition shopping : list InfluencerPage.event :=
  [ InfluencerPage.OpenProduct 0; InfluencerPage.SelectSize 1;
    InfluencerPage.AddToCart;
    InfluencerPage.OpenProduct 0; InfluencerPage.SelectSize 0;
    InfluencerPage.AddToCart;
    InfluencerPage.Navigate PageView.cart; InfluencerPage.RemoveFromCart 0;
    InfluencerPage.Navigate PageView.lookbook;
    InfluencerPage.OpenProduct 0; InfluencerPage.SelectSize 0;
    InfluencerPage.AddToCart ].

End Sample.

(** ** App.tsx: the other props the [App] component hands to the dashboard *)

Module AppAdmin.

(** [updateAdminCode] *)
Definition updateAdminCode (code : jsstring) (a : App.t) : App.t :=
  App.setState {| AppState.collections := AppState.collections (App.state a);
                  AppState.activeCollectionId :=
                    AppState.activeCollectionId (App.state a);
                  AppState.adminAccessCode := code |} a.

(** [onDelete], rendered for the active collection.  [confirmed] is the
    answer of [window.confirm]. *)
Definition onDelete (activeCollection : Collection.t) (confirmed : bool)
           (a : App.t) : App.t :=
  if confirmed then
    let next :=
      filter (fun c => Js.eqb (Collection.id c) (Collection.id activeCollection)
                       = false)
             (AppState.collections (App.state a)) in
    App.notify (js "Collection deleted") Kind.success
      (App.setActiveCollection None
         (App.setView View.select_collection
            (App.setState {| AppState.collections := next;
                             AppState.activeCollectionId :=
                               AppState.activeCollectionId (App.state a);
                             AppState.adminAccessCode :=
                               AppState.adminAccessCode (App.state a) |} a)))
  else a.

End AppAdmin.

(** ** App.tsx: the shipping table of the dashboard *)

Module ShippingTable.

Definition with_status (s : ShippingEntry.t) (v : ShippingStatus)
  : ShippingEntry.t :=
  {| ShippingEntry.id := ShippingEntry.id s;
     ShippingEntry.status := v;
     ShippingEntry.submitDate := ShippingEntry.submitDate s;
     ShippingEntry.instagramId := ShippingEntry.instagramId s;
     ShippingEntry.name := ShippingEntry.name s;
     ShippingEntry.phone := ShippingEntry.phone s;
     ShippingEntry.address := ShippingEntry.address s;
     ShippingEntry.message := ShippingEntry.message s;
     ShippingEntry.extra := ShippingEntry.extra s;
     ShippingEntry.productName := ShippingEntry.productName s;
     ShippingEntry.size := ShippingEntry.size s;
     ShippingEntry.quantity := ShippingEntry.quantity s;
     ShippingEntry.adminMemo := ShippingEntry.adminMemo s |}.

Definition with_productName (s : ShippingEntry.t) (v : jsstring)
  : ShippingEntry.t :=
  {| ShippingEntry.id := ShippingEntry.id s;
     ShippingEntry.status := ShippingEntry.status s;
     ShippingEntry.submitDate := ShippingEntry.submitDate s;
     ShippingEntry.instagramId := ShippingEntry.instagramId s;
     ShippingEntry.name := ShippingEntry.name s;
     ShippingEntry.phone := ShippingEntry.phone s;
     ShippingEntry.address := ShippingEntry.address s;
     ShippingEntry.message := ShippingEntry.message s;
     ShippingEntry.extra := ShippingEntry.extra s;
     ShippingEntry.productName := v;
     ShippingEntry.size := ShippingEntry.size s;
     ShippingEntry.quantity := ShippingEntry.quantity s;
     ShippingEntry.adminMemo := ShippingEntry.adminMemo s |}.

Definition with_size (s : ShippingEntry.t) (v : jsstring) : ShippingEntry.t :=
  {| ShippingEntry.id := ShippingEntry.id s;
     ShippingEntry.status := ShippingEntry.status s;
     ShippingEntry.submitDate := ShippingEntry.submitDate s;
     ShippingEntry.instagramId := ShippingEntry.instagramId s;
     ShippingEntry.name := ShippingEntry.name s;
     ShippingEntry.phone := ShippingEntry.phone s;
     ShippingEntry.address := ShippingEntry.address s;
     ShippingEntry.message := ShippingEntry.message s;
     ShippingEntry.extra := ShippingEntry.extra s;
     ShippingEntry.productName := ShippingEntry.productName s;
     ShippingEntry.size := v;
     ShippingEntry.quantity := ShippingEntry.quantity s;
     ShippingEntry.adminMemo := ShippingEntry.adminMemo s |}.

Definition with_adminMemo (s : ShippingEntry.t) (v : jsstring)
  : ShippingEntry.t :=
  {| ShippingEntry.id := ShippingEntry.id s;
     ShippingEntry.status := ShippingEntry.status s;
     ShippingEntry.submitDate := ShippingEntry.submitDate s;
     ShippingEntry.instagramId := ShippingEntry.instagramId s;
     ShippingEntry.name := ShippingEntry.name s;
     ShippingEntry.phone := ShippingEntry.phone s;
     ShippingEntry.address := ShippingEntry.address s;
     ShippingEntry.message := ShippingEntry.message s;
     ShippingEntry.extra := ShippingEntry.extra s;
     ShippingEntry.productName := ShippingEntry.productName s;
     ShippingEntry.size := ShippingEntry.size s;
     ShippingEntry.quantity := ShippingEntry.quantity s;
     ShippingEntry.adminMemo := v |}.

(** [collection.shippingEntries.map(s => s.id === entry.id ? change(s) : s)] *)
Definition mapById (entry : ShippingEntry.t)
           (change : ShippingEntry.t -> ShippingEntry.t)
           (entries : list ShippingEntry.t) : list ShippingEntry.t :=
  map (fun s => if Js.eqb (ShippingEntry.id s) (ShippingEntry.id entry)
                then change s else s) entries.

(** The change handlers of a row, rendered for [entry]: the status
    select, the product name and size inputs, the memo textarea. *)
Definition onStatusChange (collection : Collection.t) (entry : ShippingEntry.t)
           (value : ShippingStatus) (a : App.t) : App.t :=
  let next := mapById entry (fun s => with_status s value)
                      (Collection.shippingEntries collection) in
  App.updateCollection (Collection.with_shippingEntries collection next) a.

Definition onProductNameChange (collection : Collection.t)
           (entry : ShippingEntry.t) (value : jsstring) (a : App.t) : App.t :=
  let next := mapById entry (fun s => with_productName s value)
                      (Collection.shippingEntries collection) in
  App.updateCollection (Collection.with_shippingEntries collection next) a.

Definition onSizeChange (collection : Collection.t) (entry : ShippingEntry.t)
           (value : jsstring) (a : App.t) : App.t :=
  let next := mapById entry (fun s => with_size s value)
                      (Collection.shippingEntries collection) in
  App.updateCollection (Collection.with_shippingEntries collection next) a.

Definition onAdminMemoChange (collection : Collection.t)
           (entry : ShippingEntry.t) (value : jsstring) (a : App.t) : App.t :=
  let next := mapById entry (fun s => with_adminMemo s value)
                      (Collection.shippingEntries collection) in
  App.updateCollection (Collection.with_shippingEntries collection next) a.

(** The delete button of a row; [confirmed] is the answer of
    [window.confirm]. *)
Definition onDeleteEntry (collection : Collection.t) (entry : ShippingEntry.t)
           (confirmed : bool) (a : App.t) : App.t :=
  if confirmed then
    let next :=
      filter (fun s => Js.eqb (ShippingEntry.id s) (ShippingEntry.id entry)
                       = false)
             (Collection.shippingEntries collection) in
    App.updateCollection (Collection.with_shippingEntries collection next) a
  else a.

(** [toggleEntrySelection] and [toggleAllSelection] on the set of
    selected ids. *)
Definition toggleEntrySelection (id : jsstring) (selectedEntries : gset jsstring)
  : gset jsstring :=
  if bool_decide (id ∈ selectedEntries)
  then selectedEntries ∖ {[ id ]}
  else selectedEntries ∪ {[ id ]}.

Definition toggleAllSelection (collection : Collection.t)
           (selectedEntries : gset jsstring) : gset jsstring :=
  if bool_decide (size selectedEntries
                  = List.length (Collection.shippingEntries collection))
  then ∅
  else list_to_set (map ShippingEntry.id (Collection.shippingEntries collection)).

(** [dataToDownload] of [handleDownload]. *)
Definition dataToDownload (collection : Collection.t)
           (selectedEntries : gset jsstring) : list ShippingEntry.t :=
  if bool_decide (0 < size selectedEntries)%nat
  then filter (fun e => ShippingEntry.id e ∈ selectedEntries)
              (Collection.shippingEntries collection)
  else Collection.shippingEntries collection.

(** The entries of the collection the dashboard shows. *)
Definition activeEntries (a : App.t) : option (list ShippingEntry.t) :=
  Collection.shippingEntries <$> App.activeCollection a.

(** The first two figures of the report: all entries, and those that
    are not extra items. *)
Definition totalPackets (collection : Collection.t) : nat :=
  List.length (Collection.shippingEntries collection).

Definition originalRequests (collection : Collection.t) : nat :=
  List.length
    (filter (fun s => Js.eqb (ShippingEntry.submitDate s)
                             AdminDashboard.EXTRA_SENTINEL = false)
            (Collection.shippingEntries collection)).

End ShippingTable.

(** ** App.tsx: the product catalog of the dashboard *)

Module Catalog.

(** [s.split(',')] for a one-unit separator. *)
Fixpoint split (c : N) (s : jsstring) : list jsstring :=
  match s with
  | [] => [[]]
  | x :: r =>
    if x =? c then [] :: split c r
    else match split c r with
         | p :: ps => (x :: p) :: ps
         | [] => [[x]]
         end
  end.

Definition with_products (collection : Collection.t) (ps : list Product.t)
  : Collection.t :=
  Collection.spread collection
    {| Collection.id' := None; Collection.name' := None;
       Collection.accessCode' := None; Collection.maxProducts' := None;
       Collection.logoUrl' := None; Collection.lookbookImages' := None;
       Collection.descriptionTitle' := None;
       Collection.descriptionBody' := None;
       Collection.products' := Some ps;
       Collection.shippingEntries' := None |}.

(** The button that adds a product; [random36] is the text of
    [Math.random().toString(36)]. *)
Definition onAddProduct (collection : Collection.t) (random36 : jsstring)
           (a : App.t) : App.t :=
  let newProd :=
    {| Product.id := Utils.generateId random36;
       Product.name := js "New Item";
       Product.price := js "0";
       Product.options := [js "OS"];
       Product.description := [];
       Product.images := [] |} in
  AdminDashboard.handleUpdate collection
    {| Collection.id' := None; Collection.name' := None;
       Collection.accessCode' := None; Collection.maxProducts' := None;
       Collection.logoUrl' := None; Collection.lookbookImages' := None;
       Collection.descriptionTitle' := None;
       Collection.descriptionBody' := None;
       Collection.products' := Some (Collection.products collection ++ [newProd]);
       Collection.shippingEntries' := None |} a.

(** What the size input shows, and what its change handler stores. *)
Definition optionsText (prod : Product.t) : jsstring :=
  join [44] (Product.options prod).

Definition parseOptions (value : jsstring) : list jsstring :=
  map trim (split 44 value).

Definition with_options (p : Product.t) (v : list jsstring) : Product.t :=
  {| Product.id := Product.id p;
     Product.name := Product.name p;
     Product.price := Product.price p;
     Product.options := v;
     Product.description := Product.description p;
     Product.images := Product.images p |}.

Definition with_name (p : Product.t) (v : jsstring) : Product.t :=
  {| Product.id := Product.id p;
     Product.name := v;
     Product.price := Product.price p;
     Product.options := Product.options p;
     Product.description := Product.description p;
     Product.images := Product.images p |}.

Definition onOptionsChange (collection : Collection.t) (prod : Product.t)
           (value : jsstring) (a : App.t) : App.t :=
  let next :=
    map (fun p => if Js.eqb (Product.id p) (Product.id prod)
                  then with_options p (parseOptions value) else p)
        (Collection.products collection) in
  App.updateCollection (with_products collection next) a.

Definition onNameChange (collection : Collection.t) (prod : Product.t)
           (value : jsstring) (a : App.t) : App.t :=
  let next :=
    map (fun p => if Js.eqb (Product.id p) (Product.id prod)
                  then with_name p value else p)
        (Collection.products collection) in
  App.updateCollection (with_products collection next) a.

(** The products of the collection the dashboard shows. *)
Definition activeProducts (a : App.t) : option (list Product.t) :=
  Collection.products <$> App.activeCollection a.

(** The remove button of a product; [confirmed] is the answer of
    [window.confirm]. *)
Definition onRemoveProduct (collection : Collection.t) (prod : Product.t)
           (confirmed : bool) (a : App.t) : App.t :=
  if confirmed then
    let next :=
      filter (fun p => Js.eqb (Product.id p) (Product.id prod) = false)
             (Collection.products collection) in
    App.updateCollection (with_products collection next) a
  else a.

End Catalog.

(** ** App.tsx: the slides of the lookbook *)

Module Lookbook.

(** The updaters that [nextSlide] and [prevSlide] hand to
    [setActiveSlide]; with no image the handlers return before it. *)
Definition nextSlide (collection : Collection.t) (prev : Z) : Z :=
  let len := Z.of_nat (List.length (Collection.lookbookImages collection)) in
  if (len =? 0)%Z then prev
  else if (len <=? prev + 2)%Z then 0%Z else (prev + 2)%Z.

Definition prevSlide (collection : Collection.t) (prev : Z) : Z :=
  let len := Z.of_nat (List.length (Collection.lookbookImages collection)) in
  if (len =? 0)%Z then prev
  else if (prev - 2 <? 0)%Z
       then Z.max 0 (len - (if (len mod 2 =? 0)%Z then 2 else len mod 2))%Z
       else (prev - 2)%Z.

(** The slide indices the two buttons can reach from the first slide:
    even, and below the number of images (0 when there is none). *)
Definition reachable (collection : Collection.t) (slide : Z) : Prop :=
  let len := Z.of_nat (List.length (Collection.lookbookImages collection)) in
  (0 <= slide)%Z /\ (slide mod 2 = 0)%Z /\ (slide < len \/ slide = 0)%Z.

End Lookbook.

(** ** What a session may do to the document *)

Module Session.

(** An entry as a submission makes it. *)
Definition fresh (e : ShippingEntry.t) : Prop :=
  ShippingEntry.status e = PREPARING
  /\ ShippingEntry.quantity e = 1%Z
  /\ ShippingEntry.adminMemo e = [].

(** The invariant of a session on the collection [c0] of the document
    [st0]: the admin code and the ids of the collections are those of
    [st0], the collections of another id than [c0] are untouched, and
    the active collection is [c0] with fresh entries after its own. *)
Definition invariant (c0 : Collection.t) (st0 : AppState.t) (a : App.t)
  : Prop :=
  AppState.adminAccessCode (App.state a) = AppState.adminAccessCode st0
  /\ map Collection.id (AppState.collections (App.state a))
     = map Collection.id (AppState.collections st0)
  /\ (forall i c, AppState.collections st0 !! i = Some c ->
                  Collection.id c <> Collection.id c0 ->
                  AppState.collections (App.state a) !! i = Some c)
  /\ (forall c', App.activeCollection a = Some c' ->
        exists added,
          c' = Collection.with_shippingEntries c0
                 (Collection.shippingEntries c0 ++ added)
          /\ Forall fresh added).

End Session.

(** ** Saving the document

    The effect of the [App] component writes [JSON.stringify(state)]
    under the key.  [stringify] is the host's serialization of a value:
    strings between quotes with the escapes of [QuoteJSONString], the
    members of an object and the elements of an array separated by
    commas, no white space. *)

Module Persist.

Definition hexDigit (d : N) : N := if d <? 10 then 48 + d else 87 + d.

(** The six units of a [\u] escape of the unit [c]. *)
Definition unicodeEscape (c : N) : jsstring :=
  [ 92; 117; hexDigit ((c / 4096) mod 16); hexDigit ((c / 256) mod 16);
    hexDigit ((c / 16) mod 16); hexDigit (c mod 16) ].

Definition isHigh (c : N) : bool := (55296 <=? c) && (c <=? 56319).
Definition isLow (c : N) : bool := (56320 <=? c) && (c <=? 57343).

(** A unit that is not a surrogate: the short escapes, a [\u] escape
    for the other control characters, the unit itself otherwise. *)
Definition escapeUnit (c : N) : jsstring :=
  if c =? 8 then [92; 98]
  else if c =? 9 then [92; 116]
  else if c =? 10 then [92; 110]
  else if c =? 12 then [92; 102]
  else if c =? 13 then [92; 114]
  else if c =? 34 then [92; 34]
  else if c =? 92 then [92; 92]
  else if c <? 32 then unicodeEscape c
  else [c].

(** A surrogate pair is written as it is, a lone surrogate escaped. *)
Fixpoint quoteBody (s : jsstring) : jsstring :=
  match s with
  | [] => []
  | c :: r =>
    if isHigh c then
      match r with
      | d :: r' =>
        if isLow d then c :: d :: quoteBody r'
        else unicodeEscape c ++ quoteBody r
      | [] => unicodeEscape c
      end
    else if isLow c then unicodeEscape c ++ quoteBody r
    else escapeUnit c ++ quoteBody r
  end.

Definition quoteJSONString (s : jsstring) : jsstring :=
  34 :: quoteBody s ++ [34].

Fixpoint stringify (v : json) : jsstring :=
  match v with
  | JNull => [110; 117; 108; 108]
  | JBool true => [116; 114; 117; 101]
  | JBool false => [102; 97; 108; 115; 101]
  | JNumber lexeme => lexeme
  | JString s => quoteJSONString s
  | JArray items => 91 :: join [44] (map stringify items) ++ [93]
  | JObject members =>
    123 :: join [44] (map (fun kv => quoteJSONString (fst kv)
                                       ++ 58 :: stringify (snd kv)) members)
        ++ [125]
  end.

(** The values of the records of [types.ts], their properties in the
    order the code creates them. *)
Definition ofStrings (l : list jsstring) : json := JArray (map JString l).

Definition ofNumber (z : Z) : json := JNumber (Number_toString z).

Definition ofProduct (p : Product.t) : json :=
  JObject [ (js "id", JString (Product.id p));
            (js "name", JString (Product.name p));
            (js "price", JString (Product.price p));
            (js "options", ofStrings (Product.options p));
            (js "description", JString (Product.description p));
            (js "images", ofStrings (Product.images p)) ].

Definition ofEntry (e : ShippingEntry.t) : json :=
  JObject [ (js "id", JString (ShippingEntry.id e));
            (js "status", JString (ShippingStatus_value (ShippingEntry.status e)));
            (js "submitDate", JString (ShippingEntry.submitDate e));
            (js "instagramId", JString (ShippingEntry.instagramId e));
            (js "name", JString (ShippingEntry.name e));
            (js "phone", JString (ShippingEntry.phone e));
            (js "address", JString (ShippingEntry.address e));
            (js "message", JString (ShippingEntry.message e));
            (js "extra", JString (ShippingEntry.extra e));
            (js "productName", JString (ShippingEntry.productName e));
            (js "size", JString (ShippingEntry.size e));
            (js "quantity", ofNumber (ShippingEntry.quantity e));
            (js "adminMemo", JString (ShippingEntry.adminMemo e)) ].

(** A [logoUrl] that is undefined is left out. *)
Definition ofCollection (c : Collection.t) : json :=
  JObject ([ (js "id", JString (Collection.id c));
             (js "name", JString (Collection.name c));
             (js "accessCode", JString (Collection.accessCode c));
             (js "maxProducts", ofNumber (Collection.maxProducts c)) ]
           ++ match Collection.logoUrl c with
              | Some url => [ (js "logoUrl", JString url) ]
              | None => []
              end
           ++ [ (js "lookbookImages", ofStrings (Collection.lookbookImages c));
                (js "descriptionTitle", JString (Collection.descriptionTitle c));
                (js "descriptionBody", JString (Collection.descriptionBody c));
                (js "products", JArray (map ofProduct (Collection.products c)));
                (js "shippingEntries",
                 JArray (map ofEntry (Collection.shippingEntries c))) ]).

Definition ofState (st : AppState.t) : json :=
  JObject [ (js "collections",
             JArray (map ofCollection (AppState.collections st)));
            (js "activeCollectionId",
             match AppState.activeCollectionId st with
             | Some id => JString id
             | None => JNull
             end);
            (js "adminAccessCode", JString (AppState.adminAccessCode st)) ].

(** The documents whose numbers the host prints in plain digits, as
    [ofNumber] has them: every limit and quantity is below 10^21 in
    magnitude. *)
Definition plainNumbers (st : AppState.t) : Prop :=
  Forall (fun c =>
            (Z.abs (Collection.maxProducts c) < 10 ^ 21)%Z
            /\ Forall (fun e => (Z.abs (ShippingEntry.quantity e) < 10 ^ 21)%Z)
                      (Collection.shippingEntries c))
         (AppState.collections st).

(** The effect that follows every change of [state]. *)
Definition save (st : AppState.t) (localStorage : Utils.Storage)
  : Utils.Storage :=
  <[ App.STORAGE_KEY := stringify (ofState st) ]> localStorage.

(** The tokens of the text of a value. *)
Fixpoint commas (parts : list (list token)) : list token :=
  match parts with
  | [] => []
  | [p] => p
  | p :: rest => p ++ TComma :: commas rest
  end.

Fixpoint tokens_of (v : json) : list token :=
  match v with
  | JNull => [TNull]
  | JBool true => [TTrue]
  | JBool false => [TFalse]
  | JNumber lexeme => [TNumber lexeme]
  | JString s => [TString s]
  | JArray items => TLBracket :: commas (map tokens_of items) ++ [TRBracket]
  | JObject members =>
    TLBrace :: commas (map (fun kv => TString (fst kv) :: TColon
                                        :: tokens_of (snd kv)) members)
            ++ [TRBrace]
  end.

(** The values whose numbers are written as [Number_toString] writes
    integers. *)
Fixpoint plain (v : json) : Prop :=
  match v with
  | JNumber lexeme => exists z, lexeme = Number_toString z
  | JArray items =>
    (fix all (l : list json) : Prop :=
       match l with [] => True | x :: r => plain x /\ all r end) items
  | JObject members =>
    (fix all (l : list (jsstring * json)) : Prop :=
       match l with [] => True | kv :: r => plain (snd kv) /\ all r end) members
  | _ => True
  end.

(** What may follow a value in a text: nothing, a comma or a closing
    bracket. *)
Definition delimited (k : jsstring) : Prop :=
  match k with
  | [] => True
  | c :: _ => c = 44 \/ c = 93 \/ c = 125
  end.

(** The names of the members of an object, by their lengths. *)
Definition keyLengths (v : json) : list nat :=
  match v with
  | JObject members => map (fun kv => List.length (fst kv)) members
  | _ => []
  end.

(** The text of a value, followed by what may follow a value, lexes to
    the tokens of the value and then those of the rest. *)
Definition lexes (text : jsstring) (ts : list token) : Prop :=
  forall k, delimited k -> lex (text ++ k) LStart = app ts <$> lex k LStart.

(** The tokens of a value parse to the value, whatever encloses it. *)
Definition parses (v : json) : Prop :=
  forall stk rest,
    parse_tokens (tokens_of v ++ rest) (PValue stk)
    = parse_tokens rest (reduce v stk).

End Persist.

(** * Properties *)

(** ** Access resolution *)

Section AccessResolution.

Variable toLowerCase : jsstring -> jsstring.

Local Abbreviation matches := (App.matches toLowerCase).

Lemma find_first_match (code : jsstring) (pre post : list Collection.t)
      (c : Collection.t) :
  Forall (fun c' => ~ matches code c') pre ->
  matches code c ->
  find (fun c => Js.eqb (toLowerCase (Collection.accessCode c)) code)
       (pre ++ c :: post) = Some c.
Proof.
  intros Hpre Hc. induction Hpre as [|x pre Hx _ IH]; simpl.
  - unfold Js.eqb. rewrite bool_decide_eq_true_2; [reflexivity | exact Hc].
  - unfold Js.eqb at 1. rewrite bool_decide_eq_false_2; [exact IH | exact Hx].
Qed.

Lemma find_no_match (code : jsstring) (cs : list Collection.t) :
  Forall (fun c' => ~ matches code c') cs ->
  find (fun c => Js.eqb (toLowerCase (Collection.accessCode c)) code) cs = None.
Proof.
  induction 1 as [|x cs Hx _ IH]; simpl; [reflexivity|].
  unfold Js.eqb at 1. rewrite bool_decide_eq_false_2; [exact IH | exact Hx].
Qed.

(** C1.  [handleLogin] compares the trimmed, lower-cased input.  The
    admin code is tried first and wins whatever the collections are: the
    user is the admin and the view the list of collections.  Otherwise
    the first collection of the array whose lower-cased access code
    equals it becomes the active collection of an influencer session.
    Otherwise the login is denied: only the error toast is set.  The
    document and the cart stay in every case, and two inputs with the
    same trimmed lower-case form log in alike. *)
Theorem handleLogin_resolves (a : App.t) :
  let code := toLowerCase (trim (App.accessCodeInput a)) in
  let adminCode := toLowerCase (AppState.adminAccessCode (App.state a)) in
  let a' := App.handleLogin toLowerCase a in
  (code = adminCode ->
   a' = App.setView View.select_collection
          (App.setCurrentUser (Some User.admin) a)
   /\ App.currentUser a' = Some User.admin
   /\ App.view a' = View.select_collection
   /\ App.activeCollection a' = App.activeCollection a
   /\ App.error a' = App.error a
   /\ App.state a' = App.state a
   /\ App.cart a' = App.cart a)
  /\ (forall pre c post,
       code <> adminCode ->
       AppState.collections (App.state a) = pre ++ c :: post ->
       Forall (fun c' => ~ matches code c') pre ->
       matches code c ->
       a' = App.setView View.influencer
              (App.setCurrentUser (Some User.influencer)
                 (App.setActiveCollection (Some c) a))
       /\ App.currentUser a' = Some User.influencer
       /\ App.activeCollection a' = Some c
       /\ App.view a' = View.influencer
       /\ App.error a' = App.error a
       /\ App.state a' = App.state a
       /\ App.cart a' = App.cart a)
  /\ (code <> adminCode ->
      Forall (fun c' => ~ matches code c') (AppState.collections (App.state a)) ->
      a' = App.setError (Some (js "Invalid Access Code")) a
      /\ App.error a' = Some (js "Invalid Access Code")
      /\ App.state a' = App.state a
      /\ App.currentUser a' = App.currentUser a
      /\ App.activeCollection a' = App.activeCollection a
      /\ App.view a' = App.view a
      /\ App.cart a' = App.cart a)
  /\ (forall input',
       toLowerCase (trim input') = code ->
       let b' := App.handleLogin toLowerCase (App.setAccessCodeInput input' a) in
       App.setAccessCodeInput [] b' = App.setAccessCodeInput [] a'
       /\ App.currentUser b' = App.currentUser a'
       /\ App.activeCollection b' = App.activeCollection a'
       /\ App.view b' = App.view a'
       /\ App.error b' = App.error a'
       /\ App.state b' = App.state a'
       /\ App.cart b' = App.cart a').
Proof.
  intros code adminCode a'. split; [|split; [|split]].
  - intros Hadm.
    assert (E : a' = App.setView View.select_collection
                       (App.setCurrentUser (Some User.admin) a)).
    { subst a'. unfold App.handleLogin. fold code. fold adminCode.
      unfold Js.eqb. rewrite bool_decide_eq_true_2; [reflexivity | exact Hadm]. }
    rewrite E. destruct a; repeat split.
  - intros pre c post Hadm Hcs Hpre Hc.
    assert (E : a' = App.setView View.influencer
                       (App.setCurrentUser (Some User.influencer)
                          (App.setActiveCollection (Some c) a))).
    { subst a'. unfold App.handleLogin.
      fold code. fold adminCode. unfold Js.eqb at 1.
      rewrite bool_decide_eq_false_2 by exact Hadm.
      rewrite Hcs, (find_first_match code pre post c Hpre Hc). reflexivity. }
    rewrite E. destruct a; repeat split.
  - intros Hadm Hnone.
    assert (E : a' = App.setError (Some (js "Invalid Access Code")) a).
    { subst a'. unfold App.handleLogin. fold code. fold adminCode.
      unfold Js.eqb at 1.
      rewrite bool_decide_eq_false_2 by exact Hadm.
      rewrite (find_no_match code _ Hnone). reflexivity. }
    rewrite E. destruct a; repeat split.
  - intros input' Hin b'.
    assert (E : App.setAccessCodeInput [] b' = App.setAccessCodeInput [] a').
    { subst a' b'. unfold App.handleLogin.
      replace (App.accessCodeInput (App.setAccessCodeInput input' a)) with input'
        by (destruct a; reflexivity).
      replace (App.state (App.setAccessCodeInput input' a)) with (App.state a)
        by (destruct a; reflexivity).
      rewrite Hin. fold code. fold adminCode.
      destruct (Js.eqb code adminCode); [destruct a; reflexivity|].
      destruct (find _ _); destruct a; reflexivity. }
    split; [exact E|].
    clearbody a' b'. destruct a', b'. simpl in E.
    injection E; intros; subst. repeat split.
Qed.

End AccessResolution.

(** ** The cart of an influencer session *)

Section Cart.

Import InfluencerPage.







End Cart.

(** ** Submission *)

Section Submission.

Import InfluencerPage.

Lemma isEmpty_false (s : jsstring) : s <> [] -> isEmpty s = false.
Proof. destruct s; [congruence | reflexivity]. Qed.

Lemma isEmpty_true (s : jsstring) : s = [] -> isEmpty s = true.
Proof. intros ->. reflexivity. Qed.

Lemma split_head_app (c : N) (date rest : jsstring) :
  Forall (fun x => x <> c) date -> split_head c (date ++ c :: rest) = date.
Proof.
  induction 1 as [|x date Hx _ IH]; simpl.
  - rewrite N.eqb_refl. reflexivity.
  - apply N.eqb_neq in Hx. rewrite Hx, IH. reflexivity.
Qed.

Lemma success_only_logout (a : App.t) (p : t) (ev : event) :
  view p = PageView.success -> rendered ev a p = true -> ev = Logout.
Proof.
  intros Hv. unfold rendered. rewrite Hv.
  destruct (App.view a); try discriminate.
  destruct (App.activeCollection a); try discriminate.
  destruct ev; try discriminate. reflexivity.
Qed.

(** C3.  [handleSubmit] changes nothing and raises an alert when a
    required contact field is empty or the consent box is not ticked.
    Otherwise it makes one entry per cart item, in the order of the
    cart: status PREPARING, the date part of the clock's ISO text,
    quantity 1, empty memo, product name and size of the item, contact
    fields of the form; the entries are appended to the entries of the
    collection, which replaces the collection of the same id in the
    document and becomes the active one; the cart is emptied and the
    page shows the success view, where only logout remains. *)
Theorem handleSubmit_spec (collection : Collection.t) (host : nat -> draw)
        (a : App.t) (p : t) :
  let f := form p in
  (instagramId f = [] \/ name f = [] \/ phone f = [] \/ address f = []
   \/ agreed f = false ->
   exists warning, handleSubmit collection host a p = (a, p, [warning]))
  /\ (instagramId f <> [] -> name f <> [] -> phone f <> [] ->
      address f <> [] -> agreed f = true ->
      exists newEntries a' p',
        handleSubmit collection host a p = (a', p', [])
        /\ List.length newEntries = List.length (App.cart a)
        /\ (forall i item,
               App.cart a !! i = Some item ->
               exists e,
                 newEntries !! i = Some e
                 /\ e = {| ShippingEntry.id := Utils.generateId (random36 (host i));
                           ShippingEntry.status := PREPARING;
                           ShippingEntry.submitDate := split_head 84 (isoTime (host i));
                           ShippingEntry.instagramId := instagramId f;
                           ShippingEntry.name := name f;
                           ShippingEntry.phone := phone f;
                           ShippingEntry.address := address f;
                           ShippingEntry.message := message f;
                           ShippingEntry.extra := extra f;
                           ShippingEntry.productName := CartItem.productName item;
                           ShippingEntry.size := CartItem.size item;
                           ShippingEntry.quantity := 1%Z;
                           ShippingEntry.adminMemo := [] |}
                 /\ (forall date time,
                        isoTime (host i) = date ++ 84 :: time ->
                        Forall (fun x => x <> 84) date ->
                        ShippingEntry.submitDate e = date))
        /\ (exists updated,
               App.activeCollection a' = Some updated
               /\ Collection.shippingEntries updated
                  = Collection.shippingEntries collection ++ newEntries
               /\ updated = Collection.with_shippingEntries collection
                              (Collection.shippingEntries updated)
               /\ AppState.collections (App.state a')
                  = map (fun c => if Js.eqb (Collection.id c) (Collection.id collection)
                                  then updated else c)
                        (AppState.collections (App.state a)))
        /\ App.cart a' = []
        /\ view p' = PageView.success
        /\ (forall ev, rendered ev a' p' = true -> ev = Logout)).
Proof.
  intros f. split.
  - intros Hbad. unfold handleSubmit. fold f.
    replace (isEmpty (instagramId f) || isEmpty (name f) || isEmpty (phone f)
             || isEmpty (address f) || negb (agreed f)) with true.
    { eexists; reflexivity. }
    symmetry.
    destruct Hbad as [H | [H | [H | [H | H]]]]; rewrite ?H;
      try rewrite (isEmpty_true _ H); simpl;
      rewrite ?orb_true_r; reflexivity.
  - intros Hi Hn Hp Ha Hg. unfold handleSubmit. fold f.
    rewrite (isEmpty_false _ Hi), (isEmpty_false _ Hn), (isEmpty_false _ Hp),
      (isEmpty_false _ Ha), Hg. simpl.
    set (newEntries := imap (fun i item => newEntry f (host i) item) (App.cart a)).
    exists newEntries. do 2 eexists. split; [reflexivity|].
    split; [apply length_imap|]. split.
    { intros i item Hitem. unfold newEntries.
      rewrite list_lookup_imap, Hitem. simpl.
      eexists. split; [reflexivity|]. split; [reflexivity|].
      intros date time Hiso Hdate. simpl. rewrite Hiso.
      apply split_head_app. exact Hdate. }
    split.
    { eexists. destruct a as [st cu ac ai er su ca vi sv mo nn]; simpl.
      split; [reflexivity|]. split; [reflexivity|]. split; reflexivity. }
    split; [destruct a; reflexivity|]. split; [reflexivity|].
    intros ev. apply success_only_logout. reflexivity.
Qed.

End Submission.

(** ** The admin dashboard *)

Section Admin.

Import AdminDashboard.

(** The duplicate button appends exactly one entry to the entries of
    the collection and leaves the earlier ones as they are.  The new
    entry has the identifier the generator returns, the extra-item
    sentinel as its date, an empty product name and size, and every
    other field of the source entry. *)
Theorem onDuplicate_spec (collection : Collection.t) (entry : ShippingEntry.t)
        (random36 : jsstring) (a : App.t) :
  exists copy updated,
    App.activeCollection (onDuplicate collection entry random36 a) = Some updated
    /\ Collection.shippingEntries updated
       = Collection.shippingEntries collection ++ [copy]
    /\ updated = Collection.with_shippingEntries collection
                   (Collection.shippingEntries updated)
    /\ AppState.collections (App.state (onDuplicate collection entry random36 a))
       = map (fun c => if Js.eqb (Collection.id c) (Collection.id collection)
                       then updated else c)
             (AppState.collections (App.state a))
    /\ ShippingEntry.id copy = Utils.generateId random36
    /\ ShippingEntry.submitDate copy = EXTRA_SENTINEL
    /\ EXTRA_SENTINEL = [52628; 44032; 32; 51228; 54408]
    /\ ShippingEntry.productName copy = []
    /\ ShippingEntry.size copy = []
    /\ ShippingEntry.status copy = ShippingEntry.status entry
    /\ ShippingEntry.instagramId copy = ShippingEntry.instagramId entry
    /\ ShippingEntry.name copy = ShippingEntry.name entry
    /\ ShippingEntry.phone copy = ShippingEntry.phone entry
    /\ ShippingEntry.address copy = ShippingEntry.address entry
    /\ ShippingEntry.message copy = ShippingEntry.message entry
    /\ ShippingEntry.extra copy = ShippingEntry.extra entry
    /\ ShippingEntry.quantity copy = ShippingEntry.quantity entry
    /\ ShippingEntry.adminMemo copy = ShippingEntry.adminMemo entry.
Proof.
  exists (duplicate_copy entry random36). eexists.
  destruct a as [st cu ac ai er su ca vi sv mo nn]; simpl.
  repeat split.
Qed.

End Admin.

(** ** Loading the document *)

Section Load.

(** C8 (amended).  [load] gives the default document, silently, when
    nothing is stored under the key or the stored text is empty, and
    the default document with a console message when the stored text is
    not JSON.  A stored text that is JSON is returned as parsed,
    whatever its shape. *)
Theorem load_spec (localStorage : Utils.Storage) :
  match localStorage !! App.STORAGE_KEY with
  | None => App.load localStorage = (App.defaultState, [])
  | Some [] => App.load localStorage = (App.defaultState, [])
  | Some saved =>
    match JSON_parse saved with
    | Some v => App.load localStorage = (v, [])
    | None => App.load localStorage
              = (App.defaultState, [js "Failed to parse storage"])
    end
  end
  /\ App.defaultState
     = JObject [ (js "collections", JArray []);
                 (js "activeCollectionId", JNull);
                 (js "adminAccessCode", JString (js "admin")) ]
  /\ Shape.isAppState App.defaultState = true.
Proof.
  split; [|split; reflexivity].
  unfold App.load.
  destruct (localStorage !! App.STORAGE_KEY) as [[|c saved]|]; try reflexivity.
  destruct (JSON_parse (c :: saved)); reflexivity.
Qed.

(** C8 as stated fails: a stored array is JSON, so it becomes
    the state although it has not the shape of the document. *)
Lemma load_keeps_incompatible :
  let localStorage : Utils.Storage := {[ App.STORAGE_KEY := js "[]" ]} in
  localStorage !! App.STORAGE_KEY = Some (js "[]")
  /\ JSON_parse (js "[]") = Some (JArray [])
  /\ Shape.isAppState (JArray []) = false
  /\ App.load localStorage = (JArray [], [])
  /\ fst (App.load localStorage) <> App.defaultState.
Proof.
  cbv zeta. split; [apply lookup_singleton_eq|].
  split; [reflexivity|]. split; [reflexivity|].
  assert (E : App.load {[ App.STORAGE_KEY := js "[]" ]} = (JArray [], [])).
  { unfold App.load. rewrite lookup_singleton_eq. reflexivity. }
  rewrite E. split; [reflexivity | discriminate].
Qed.

End Load.

(** ** Decimal text of numbers *)

Section Numbers.

Ltac lia_div := zify; Z.to_euclidean_division_equations; lia.

Lemma isDigit_range (c : N) : isDigit c = true <-> 48 <= c <= 57.
Proof.
  unfold isDigit. rewrite andb_true_iff, !N.leb_le. reflexivity.
Qed.

Lemma pos_size_bound (p : positive) : Npos p < 2 ^ N.of_nat (Pos.size_nat p).
Proof.
  induction p as [p IH|p IH|]; simpl Pos.size_nat;
    rewrite ?Nat2N.inj_succ, ?N.pow_succ_r'; lia.
Qed.

Lemma size_bound (n : N) : n < 2 ^ N.of_nat (N.size_nat n).
Proof. destruct n as [|p]; [reflexivity | apply pos_size_bound]. Qed.

Lemma digits_fuel_app (fuel : nat) (n : N) (acc : jsstring) :
  digits_fuel fuel n acc = digits_fuel fuel n [] ++ acc.
Proof.
  revert n acc. induction fuel as [|f IH]; intros n acc; simpl; [reflexivity|].
  destruct (n <? 10); [reflexivity|].
  rewrite (IH (n / 10) ((48 + n mod 10) :: acc)), (IH (n / 10) [48 + n mod 10]).
  rewrite <- app_assoc. reflexivity.
Qed.

Lemma digits_fuel_isDigit (fuel : nat) (n : N) :
  Forall (fun c => isDigit c = true) (digits_fuel fuel n []).
Proof.
  revert n. induction fuel as [|f IH]; intros n; simpl; [constructor|].
  destruct (N.ltb_spec n 10) as [Hlt|Hge].
  - constructor; [|constructor]. apply isDigit_range. lia.
  - rewrite digits_fuel_app. apply Forall_app. split; [apply IH|].
    constructor; [|constructor]. apply isDigit_range. lia_div.
Qed.

Lemma digits_fuel_value (fuel : nat) (n : N) :
  n < 2 ^ N.of_nat fuel ->
  fold_left digit_value (digits_fuel (S fuel) n []) 0 = n
  /\ digits_fuel (S fuel) n [] <> [].
Proof.
  revert n. induction fuel as [|f IH]; intros n Hn.
  - simpl in Hn. assert (n = 0) as -> by lia. split; [reflexivity | discriminate].
  - rewrite Nat2N.inj_succ, N.pow_succ_r' in Hn.
    change (digits_fuel (S (S f)) n [])
      with (if n <? 10 then [48 + n]
            else digits_fuel (S f) (n / 10) [48 + n mod 10]).
    destruct (N.ltb_spec n 10) as [Hlt|Hge].
    + split; [|discriminate]. simpl. unfold digit_value. lia.
    + rewrite digits_fuel_app.
      destruct (IH (n / 10)) as [Hv Hne]; [lia_div|].
      split.
      * rewrite fold_left_app, Hv. simpl. unfold digit_value. lia_div.
      * intros E. apply app_eq_nil in E. destruct E as [_ E]. discriminate.
Qed.

Lemma digits_value (n : N) :
  fold_left digit_value (digits n) 0 = n /\ digits n <> [].
Proof. apply digits_fuel_value, size_bound. Qed.

Lemma digits_isDigit (n : N) : Forall (fun c => isDigit c = true) (digits n).
Proof. apply digits_fuel_isDigit. Qed.

Lemma read_digits_app (pre rest : jsstring) (acc : N) (count : nat) :
  Forall (fun c => isDigit c = true) pre ->
  read_digits (pre ++ rest) acc count
  = read_digits rest (fold_left digit_value pre acc) (count + List.length pre).
Proof.
  intros Hpre. revert acc count.
  induction Hpre as [|c pre Hc _ IH]; intros acc count; simpl.
  - rewrite Nat.add_0_r. reflexivity.
  - rewrite Hc, IH. f_equal. lia.
Qed.

Lemma replace_quotes_id (s : jsstring) :
  Forall (fun c => c <> 34) s -> replace_quotes s = s.
Proof.
  induction 1 as [|c s Hc _ IH]; simpl; [reflexivity|].
  apply N.eqb_neq in Hc. rewrite Hc, IH. reflexivity.
Qed.

Lemma digits_no_quote (n : N) : Forall (fun c => c <> 34) (digits n).
Proof.
  eapply Forall_impl; [apply digits_isDigit|].
  intros c Hc. apply isDigit_range in Hc. lia.
Qed.

Lemma Number_toString_no_quote (z : Z) :
  Forall (fun c => c <> 34) (Number_toString z).
Proof.
  destruct z as [|p|p]; simpl.
  - constructor; [lia | constructor].
  - apply digits_no_quote.
  - constructor; [lia | apply digits_no_quote].
Qed.

Lemma Number_toString_nonempty (z : Z) : Number_toString z <> [].
Proof.
  destruct z as [|p|p]; simpl; try discriminate.
  apply (proj2 (digits_value (Npos p))).
Qed.

Lemma trimStart_digit (c : N) (s : jsstring) :
  isDigit c = true -> trimStart (c :: s) = c :: s.
Proof.
  intros Hc. apply isDigit_range in Hc. simpl.
  replace (isWhiteSpace c) with false; [reflexivity|].
  symmetry. unfold isWhiteSpace.
  repeat (apply orb_false_iff; split);
    try (apply andb_false_iff; left; apply N.leb_gt; lia);
    try (apply andb_false_iff; right; apply N.leb_gt; lia);
    apply N.eqb_neq; lia.
Qed.

Lemma read_sign_digit (c : N) (s : jsstring) :
  isDigit c = true -> read_sign (c :: s) = (false, c :: s).
Proof.
  intros Hc. apply isDigit_range in Hc. simpl.
  destruct (N.eqb_spec c 45); [lia|]. destruct (N.eqb_spec c 43); [lia|].
  reflexivity.
Qed.

(** The text [toFixed(2)] gives reads back, through [parseFloat], as
    the number of hundredths it was made from. *)
Lemma parseFloat_fixed2 (h : Z) :
  (0 <= h)%Z -> parseFloat (fixed2 h) = Some (h # 100).
Proof.
  intros Hh. unfold fixed2. set (n := Z.to_N h).
  destruct (digits_value (n / 100)) as [Hv Hne].
  pose proof (digits_isDigit (n / 100)) as Hd.
  destruct (digits (n / 100)) as [|d ds] eqn:E; [congruence|].
  unfold parseFloat.
  rewrite <- app_comm_cons.
  rewrite trimStart_digit by (inversion Hd; assumption).
  rewrite read_sign_digit by (inversion Hd; assumption).
  rewrite app_comm_cons, (read_digits_app _ _ 0 O Hd), Hv.
  assert (H1 : isDigit (48 + (n / 10) mod 10) = true)
    by (apply isDigit_range; lia_div).
  assert (H0 : isDigit (48 + n mod 10) = true)
    by (apply isDigit_range; lia_div).
  cbn [read_digits]. replace (isDigit 46) with false by reflexivity.
  cbn [read_digits]. rewrite H1, H0.
  replace (List.length (d :: ds)) with (S (List.length ds)) by reflexivity.
  cbn [Nat.add Nat.eqb].
  f_equal. unfold pow10. cbn [Nat.iter]. change (10 * (10 * 1))%positive with 100%positive.
  f_equal. unfold digit_value. lia_div.
Qed.

End Numbers.

(** ** The selection limit *)

Section Limit.

Import AdminDashboard.

Lemma size_small (n : N) : n < 2 ^ 53 -> N.size n <= 53.
Proof.
  intros Hn. pose proof (N.size_le n) as Hs.
  apply N.lt_succ_r. apply (N.pow_lt_mono_r_iff 2); [lia|].
  change (N.succ 53) with 54.
  rewrite N.succ_double_spec in Hs.
  change (2 ^ 54) with (2 * 2 ^ 53). lia.
Qed.

(** An integer below 2^53 is a double. *)
Lemma nearest_double_small (n : N) : n < 2 ^ 53 -> nearest_double n = Some n.
Proof.
  intros Hn. unfold nearest_double.
  apply size_small in Hn. apply N.leb_le in Hn. rewrite Hn. reflexivity.
Qed.

(** Rounding never gives 0 for another number. *)
Lemma nearest_double_nonzero (n d : N) :
  nearest_double n = Some d -> n <> 0 -> d <> 0.
Proof.
  unfold nearest_double. destruct (N.leb_spec (N.size n) 53) as [Hs|Hs].
  - intros [= <-] Hn. exact Hn.
  - cbv zeta. set (sh := N.size n - 53).
    set (q := N.shiftr n sh).
    match goal with
    | |- context [if ?b then q + 1 else q] =>
      set (q' := if b then q + 1 else q)
    end.
    destruct (2 ^ 1024 <=? N.shiftl q' sh); [discriminate|].
    intros [= <-] _. rewrite N.shiftl_mul_pow2.
    assert (Hp : 0 < 2 ^ sh) by (apply N.neq_0_lt_0, N.pow_nonzero; lia).
    assert (Hq : 0 < q).
    { subst q. rewrite N.shiftr_div_pow2.
      apply N.div_str_pos. split; [exact Hp|].
      pose proof (N.size_le n) as Hle. rewrite N.succ_double_spec in Hle.
      replace (N.size n) with (sh + 53) in Hle by (subst sh; lia).
      rewrite N.pow_add_r in Hle. change (2 ^ 53) with 9007199254740992 in Hle.
      lia. }
    assert (Hq' : 0 < q').
    { subst q'. match goal with |- context [if ?b then _ else _] => destruct b end; lia. }
    nia.
Qed.

Lemma read_radix_digits (ds rest : jsstring) (acc : option N) :
  Forall (fun c => isDigit c = true) ds ->
  ds <> [] ->
  read_radix 10 (ds ++ rest) acc
  = read_radix 10 rest (Some (fold_left digit_value ds (default 0 acc))).
Proof.
  intros Hds. revert acc.
  induction Hds as [|c ds Hc Hds IH]; intros acc Hne; [congruence|].
  simpl. unfold digitVal. rewrite Hc.
  apply isDigit_range in Hc.
  replace (c - 48 <? 10) with true by (symmetry; apply N.ltb_lt; lia).
  destruct ds as [|c' ds'].
  - simpl. reflexivity.
  - rewrite IH by discriminate. reflexivity.
Qed.

(** A text that starts with a decimal digit, followed by nothing or by
    another digit, has no [0x]. *)
Lemma no_hex_prefix (c : N) (ds : jsstring) :
  Forall (fun c => isDigit c = true) ds ->
  read_prefix (c :: ds) = (10, c :: ds).
Proof.
  intros Hds. unfold read_prefix. destruct ds as [|d ds]; [|apply Forall_cons_1 in Hds as [Hd _];
    apply isDigit_range in Hd].
  - destruct c as [|p]; [reflexivity|].
    do 7 (try (destruct p as [p|p|]; try reflexivity)).
  - destruct c as [|p]; [reflexivity|].
    do 7 (try (destruct p as [p|p|]; try reflexivity));
      (destruct d as [|p']; [reflexivity|]);
      do 8 (try (destruct p' as [p'|p'|]; try reflexivity)); lia.
Qed.

Lemma read_numeral (n : N) : read_radix 10 (digits n) None = Some n.
Proof.
  destruct (digits_value n) as [Hv Hne].
  rewrite <- (app_nil_r (digits n)).
  rewrite (read_radix_digits _ [] None (digits_isDigit n) Hne).
  simpl. rewrite Hv. reflexivity.
Qed.

Lemma parseInt_digits (n : N) :
  parseInt (digits n)
  = match nearest_double n with
    | Some d => NumInt (Z.of_N d)
    | None => NumInfinity false
    end.
Proof.
  destruct (digits_value n) as [_ Hne].
  pose proof (digits_isDigit n) as Hd.
  pose proof (read_numeral n) as Hr.
  destruct (digits n) as [|c ds]; [congruence|].
  apply Forall_cons_1 in Hd as [Hc Hds].
  unfold parseInt.
  rewrite (trimStart_digit c ds Hc), (read_sign_digit c ds Hc).
  cbv beta iota zeta. rewrite (no_hex_prefix c ds Hds).
  cbv beta iota zeta. rewrite Hr. reflexivity.
Qed.

Lemma parseInt_minus_digits (n : N) :
  parseInt (45 :: digits n)
  = match nearest_double n with
    | Some d => NumInt (- Z.of_N d)
    | None => NumInfinity true
    end.
Proof.
  destruct (digits_value n) as [_ Hne].
  pose proof (digits_isDigit n) as Hd.
  pose proof (read_numeral n) as Hr.
  destruct (digits n) as [|c ds]; [congruence|].
  apply Forall_cons_1 in Hd as [Hc Hds].
  unfold parseInt.
  change (trimStart (45 :: c :: ds)) with (45 :: c :: ds).
  change (read_sign (45 :: c :: ds)) with (true, c :: ds).
  cbv beta iota zeta. rewrite (no_hex_prefix c ds Hds).
  cbv beta iota zeta. rewrite Hr. reflexivity.
Qed.

(** The decimal text of an integer below 2^53 in magnitude is parsed to
    that integer. *)
Lemma parseInt_numeral (z : Z) :
  (Z.abs z < 2 ^ 53)%Z -> parseInt (Number_toString z) = NumInt z.
Proof.
  intros Hz. destruct z as [|p|p].
  - reflexivity.
  - simpl Number_toString. rewrite parseInt_digits, nearest_double_small.
    + reflexivity.
    + change (2 ^ 53)%Z with (Z.of_N (2 ^ 53)) in Hz. lia.
  - simpl Number_toString. rewrite parseInt_minus_digits, nearest_double_small.
    + reflexivity.
    + change (2 ^ 53)%Z with (Z.of_N (2 ^ 53)) in Hz. lia.
Qed.

(** C6 (amended).  The change handler of the selection limit stores
    [parseInt] of the input, with 1 in its place when that is NaN or 0;
    the other fields of the collection stay.  What it stores is never
    NaN and never 0; it is the integer typed when that is below 2^53 in
    magnitude, negative for a negative input, and an infinity when the
    digits are beyond the range of doubles. *)
Theorem maxProducts_coercion (collection : Collection.t) (value : jsstring)
        (a : App.t) :
  let m := maxProducts_of_input value in
  (m <> NumNaN /\ m <> NumInt 0)
  /\ (parseInt value = NumNaN \/ parseInt value = NumInt 0 -> m = NumInt 1)
  /\ (parseInt value <> NumNaN -> parseInt value <> NumInt 0 ->
      m = parseInt value)
  /\ (forall z, m = NumInt z ->
        exists a',
          onMaxProductsChange collection value a = Some a'
          /\ App.activeCollection a'
             = Some (Collection.spread collection
                       {| Collection.id' := None; Collection.name' := None;
                          Collection.accessCode' := None;
                          Collection.maxProducts' := Some z;
                          Collection.logoUrl' := None;
                          Collection.lookbookImages' := None;
                          Collection.descriptionTitle' := None;
                          Collection.descriptionBody' := None;
                          Collection.products' := None;
                          Collection.shippingEntries' := None |})
          /\ (Collection.maxProducts <$> App.activeCollection a') = Some z
          /\ ((0 < z)%Z <-> forall z', parseInt value = NumInt z' -> (0 <= z')%Z))
  /\ (forall negative, m = NumInfinity negative ->
        parseInt value = NumInfinity negative
        /\ onMaxProductsChange collection value a = None)
  /\ (forall z, (Z.abs z < 2 ^ 53)%Z ->
        maxProducts_of_input (Number_toString z)
        = NumInt (if (z =? 0)%Z then 1 else z)).
Proof.
  intros m. subst m. unfold onMaxProductsChange, maxProducts_of_input.
  split; [|split; [|split; [|split; [|split]]]].
  - destruct (parseInt value) as [|b|z]; [split; discriminate..|].
    destruct (Z.eqb_spec z 0); split; try discriminate.
    intros [= E]. contradiction.
  - intros [-> | ->]; reflexivity.
  - intros Hnan Hzero. destruct (parseInt value) as [|b|z];
      [congruence | reflexivity |].
    destruct (Z.eqb_spec z 0) as [-> | Hz]; [congruence | reflexivity].
  - intros z Hm.
    assert (Hpos : (0 < z)%Z
                   <-> forall z', parseInt value = NumInt z' -> (0 <= z')%Z).
    { destruct (parseInt value) as [|b|z0].
      - injection Hm as <-. split; [intros _ z' H; discriminate H | lia].
      - discriminate Hm.
      - destruct (Z.eqb_spec z0 0) as [E | Hz]; injection Hm as <-.
        + split; [intros _ z' [= <-]; lia | lia].
        + split; [intros Hp z' [= <-]; lia|].
          intros Hall. specialize (Hall z0 eq_refl). lia. }
    rewrite Hm. eexists. split; [reflexivity|].
    split; [destruct a; reflexivity|]. split; [destruct a; reflexivity|].
    exact Hpos.
  - intros negative Hm. destruct (parseInt value) as [|b|z0];
      [discriminate | injection Hm as -> |].
    + split; reflexivity.
    + destruct (z0 =? 0)%Z; discriminate.
  - intros z Hz. rewrite (parseInt_numeral z Hz).
    destruct (z =? 0)%Z; reflexivity.
Qed.

End Limit.

(** ** The storage estimate and the creation of a collection *)

Section Storage.

Lemma foldr_stored {A B : Type} (f g : A -> B -> B) (b : B) (l : list A) :
  Forall (fun x => forall y, f x y = g x y) l ->
  foldr f b l = foldr g b l.
Proof.
  induction 1 as [|x l Hx _ IH]; [reflexivity|].
  simpl. rewrite IH. apply Hx.
Qed.

Lemma usage_total_counted (localStorage : Utils.Storage) :
  Utils.usage_total localStorage = map_fold Utils.counted 0%Z localStorage.
Proof.
  unfold Utils.usage_total. rewrite !map_fold_foldr.
  apply foldr_stored. apply Forall_forall. intros [x v] Hin total.
  apply elem_of_map_to_list in Hin.
  unfold uncurry, Utils.counted, Utils.hasOwnProperty. simpl.
  rewrite (bool_decide_eq_true_2 (is_Some (localStorage !! x)))
    by (rewrite Hin; eexists; reflexivity).
  simpl. destruct (bool_decide (x ∈ Utils.inherited)); reflexivity.
Qed.

Lemma counted_comm (j1 j2 z1 z2 : jsstring) (y : Z) :
  Utils.counted j1 z1 (Utils.counted j2 z2 y)
  = Utils.counted j2 z2 (Utils.counted j1 z1 y).
Proof.
  unfold Utils.counted.
  destruct (bool_decide (j1 ∈ Utils.inherited)),
           (bool_decide (j2 ∈ Utils.inherited)); lia.
Qed.

Lemma usage_total_nonneg (localStorage : Utils.Storage) :
  (0 <= Utils.usage_total localStorage)%Z.
Proof.
  rewrite usage_total_counted.
  apply (map_fold_weak_ind (fun r (_ : Utils.Storage) => (0 <= r)%Z)).
  - lia.
  - intros k v m r _ Hr. unfold Utils.counted, Js.length.
    destruct (bool_decide (k ∈ Utils.inherited)); lia.
Qed.

Lemma usage_total_insert_any (k v : jsstring) (m : Utils.Storage) :
  m !! k = None ->
  Utils.usage_total (<[k:=v]> m) = Utils.counted k v (Utils.usage_total m).
Proof.
  intros Hk. rewrite !usage_total_counted.
  apply map_fold_insert_L; [|exact Hk].
  intros. apply counted_comm.
Qed.

(** A stored key that is an own property adds its cost. *)
Lemma usage_total_insert (k v : jsstring) (m : Utils.Storage) :
  m !! k = None ->
  k ∉ Utils.inherited ->
  Utils.usage_total (<[k:=v]> m)
  = (Utils.usage_total m + 2 * (Js.length k + Js.length v))%Z.
Proof.
  intros Hk Hown. rewrite (usage_total_insert_any k v m Hk). unfold Utils.counted.
  rewrite bool_decide_eq_false_2 by exact Hown. lia.
Qed.

(** A stored key of an inherited name adds nothing. *)
Lemma usage_total_inherited (k v : jsstring) (m : Utils.Storage) :
  k ∈ Utils.inherited ->
  Utils.usage_total (<[k:=v]> m) = Utils.usage_total (delete k m).
Proof.
  intros Hin. rewrite <- (insert_delete_eq m k v).
  rewrite (usage_total_insert_any k v (delete k m)) by apply lookup_delete_eq.
  unfold Utils.counted. rewrite bool_decide_eq_true_2 by exact Hin. reflexivity.
Qed.

Lemma substring0_length (e : nat) (s : jsstring) :
  List.length (substring0 e s) = Nat.min e (List.length s).
Proof. unfold substring0. apply length_take. Qed.

Lemma hundredths_nonneg (t : Z) : (0 <= t)%Z -> (0 <= hundredths_of_MB t)%Z.
Proof. intros Ht. unfold hundredths_of_MB. apply Z.div_pos; lia. Qed.

Lemma storage_nearly_full_iff (localStorage : Utils.Storage) :
  App.storage_nearly_full localStorage = true
  <-> (Utils.MAX_STORAGE_MB * 0.95
       <= hundredths_of_MB (Utils.usage_total localStorage) # 100)%Q.
Proof.
  unfold App.storage_nearly_full, Utils.getStorageUsage, MB_toFixed2.
  rewrite parseFloat_fixed2
    by (apply hundredths_nonneg, usage_total_nonneg).
  apply Qle_bool_iff.
Qed.

(** C9.  [getStorageUsage] adds [2 * (key.length + value.length)] over
    the stored keys that are own properties of the storage object,
    divides by 1,048,576 and renders the quotient with two decimals,
    rounded to the nearest hundredth (up on a tie); the text reads back
    as that number.  For the storage that holds only key [k] with value
    [v] the text is 0.00.  A stored key of an inherited name, such as
    [length], is left out of the sum: for the storage that holds only
    the key [length] with a value of 3000 units the text is 0.00, where
    the sum over the stored keys gives 0.01. *)
Theorem getStorageUsage_spec (localStorage : Utils.Storage) :
  let total := Utils.usage_total localStorage in
  let h := hundredths_of_MB total in
  Utils.usage_total ∅ = 0%Z
  /\ (forall k v (m : Utils.Storage),
         m !! k = None ->
         k ∉ Utils.inherited ->
         Utils.usage_total (<[k:=v]> m)
         = (Utils.usage_total m + 2 * (Js.length k + Js.length v))%Z)
  /\ (forall k v (m : Utils.Storage),
         k ∈ Utils.inherited ->
         Utils.usage_total (<[k:=v]> m) = Utils.usage_total (delete k m))
  /\ (0 <= total)%Z
  /\ (1048576 * h - 524288 <= 100 * total < 1048576 * h + 524288)%Z
  /\ Utils.getStorageUsage localStorage = fixed2 h
  /\ parseFloat (Utils.getStorageUsage localStorage) = Some (h # 100)
  /\ Utils.usage_total {[ js "k" := js "v" ]} = (2 * (1 + 1))%Z
  /\ Utils.getStorageUsage {[ js "k" := js "v" ]} = js "0.00"
  /\ Utils.getStorageUsage {[ js "length" := repeat 120 3000 ]} = js "0.00"
  /\ MB_toFixed2 (2 * (Js.length (js "length") + Js.length (repeat 120 3000)))
     = js "0.01".
Proof.
  intros total h.
  split; [apply map_fold_empty|].
  split; [intros k v m; apply usage_total_insert|].
  split; [intros k v m; apply usage_total_inherited|].
  split; [apply usage_total_nonneg|].
  split.
  { subst h. unfold hundredths_of_MB.
    pose proof (Z.div_mod (100 * total + 524288) 1048576 ltac:(lia)) as Hd.
    pose proof (Z.mod_pos_bound (100 * total + 524288) 1048576 ltac:(lia)) as Hm.
    lia. }
  split; [reflexivity|].
  split.
  { unfold Utils.getStorageUsage, MB_toFixed2.
    apply parseFloat_fixed2, hundredths_nonneg, usage_total_nonneg. }
  assert (E : Utils.usage_total {[ js "k" := js "v" ]} = 4%Z).
  { rewrite usage_total_counted, map_fold_singleton. reflexivity. }
  split; [exact E|].
  split; [unfold Utils.getStorageUsage; rewrite E; reflexivity|].
  split; [|vm_compute; reflexivity].
  unfold Utils.getStorageUsage.
  rewrite usage_total_counted, map_fold_singleton. reflexivity.
Qed.

(** C7 (amended).  [createCollection] does nothing at all, toast
    included, when the typed name is empty after trimming.  When the
    usage estimate is at or above 95% of [MAX_STORAGE_MB] it sets the
    error toast and leaves the collections as they are.  Otherwise it
    appends one collection: the generated identifier, an access code
    taken from a second generated identifier, a limit of 2 and no
    products, entries or images; the new collection is the active one
    and the success toast is set. *)
Theorem createCollection_spec (localStorage : Utils.Storage)
        (r1 r2 : jsstring) (a : App.t) :
  let name := trim (App.newCollectionName a) in
  let usage := (hundredths_of_MB (Utils.usage_total localStorage) # 100)%Q in
  let a' := App.createCollection localStorage r1 r2 a in
  (name = [] -> a' = a)
  /\ (name <> [] -> (Utils.MAX_STORAGE_MB * 0.95 <= usage)%Q ->
      a' = App.setError
             (Some (js "Storage nearly full. Delete old collections first.")) a
      /\ App.state a' = App.state a)
  /\ (name <> [] -> ~ (Utils.MAX_STORAGE_MB * 0.95 <= usage)%Q ->
      exists newColl,
        AppState.collections (App.state a')
        = AppState.collections (App.state a) ++ [newColl]
        /\ App.activeCollection a' = Some newColl
        /\ Collection.id newColl = Utils.generateId r1
        /\ Collection.name newColl = name
        /\ Collection.accessCode newColl = substring0 6 (Utils.generateId r2)
        /\ Collection.maxProducts newColl = 2%Z
        /\ Collection.products newColl = []
        /\ Collection.shippingEntries newColl = []
        /\ Collection.lookbookImages newColl = []
        /\ App.error a' = App.error a
        /\ exists msg, App.success a' = Some msg).
Proof.
  intros name usage a'. subst a'. unfold App.createCollection. fold name.
  split; [intros ->; reflexivity|]. split.
  - intros Hname Hfull. destruct name as [|c name']; [congruence|].
    apply storage_nearly_full_iff in Hfull. rewrite Hfull.
    destruct a; split; reflexivity.
  - intros Hname Hfree. destruct name as [|c name'] eqn:En; [congruence|].
    destruct (App.storage_nearly_full localStorage) eqn:Hf.
    { exfalso. apply Hfree. apply storage_nearly_full_iff. exact Hf. }
    eexists. destruct a as [st cu ac ai er su ca vi sv mo nn].
    repeat split. eexists; reflexivity.
Qed.

(** C7 as stated fails: a name that is empty after trimming is refused
    without any warning. *)
Lemma createCollection_blank_name_silent :
  let blank := Sample.atLogin [] (js "   ") in
  trim (App.newCollectionName blank) = []
  /\ App.createCollection ∅ (js "0.abcdefghi1") (js "0.zyxwvuts2") blank = blank
  /\ App.error (App.createCollection ∅ (js "0.abcdefghi1") (js "0.zyxwvuts2") blank)
     = None
  /\ App.success (App.createCollection ∅ (js "0.abcdefghi1") (js "0.zyxwvuts2") blank)
     = None.
Proof. cbv zeta. repeat split. Qed.

End Storage.

(** ** Text as bytes, and back *)

Section Utf8.

Ltac lia_div := zify; Z.to_euclidean_division_equations; lia.

Lemma decode_bytes (cp : N) (rest : list N) :
  cp < 1114112 ->
  utf8_code_points (utf8_bytes cp ++ rest) = cp :: utf8_code_points rest.
Proof.
  intros Hcp. unfold utf8_bytes.
  destruct (N.ltb_spec cp 128) as [H1|H1].
  { simpl. apply N.ltb_lt in H1. rewrite H1. reflexivity. }
  destruct (N.ltb_spec cp 2048) as [H2|H2].
  { cbn [app utf8_code_points].
    replace (192 + cp / 64 <? 128) with false by (symmetry; apply N.ltb_ge; lia_div).
    replace (192 + cp / 64 <? 224) with true by (symmetry; apply N.ltb_lt; lia_div).
    f_equal. lia_div. }
  destruct (N.ltb_spec cp 65536) as [H3|H3].
  { cbn [app utf8_code_points].
    replace (224 + cp / 4096 <? 128) with false by (symmetry; apply N.ltb_ge; lia_div).
    replace (224 + cp / 4096 <? 224) with false by (symmetry; apply N.ltb_ge; lia_div).
    replace (224 + cp / 4096 <? 240) with true by (symmetry; apply N.ltb_lt; lia_div).
    f_equal. lia_div. }
  cbn [app utf8_code_points].
  replace (240 + cp / 262144 <? 128) with false by (symmetry; apply N.ltb_ge; lia_div).
  replace (240 + cp / 262144 <? 224) with false by (symmetry; apply N.ltb_ge; lia_div).
  replace (240 + cp / 262144 <? 240) with false by (symmetry; apply N.ltb_ge; lia_div).
  f_equal. lia_div.
Qed.

Lemma decode_encoded (cps : list N) :
  Forall (fun cp => cp < 1114112) cps ->
  utf8_code_points (flat_map utf8_bytes cps) = cps.
Proof.
  induction 1 as [|cp cps Hcp _ IH]; [reflexivity|].
  simpl. rewrite decode_bytes by exact Hcp. rewrite IH. reflexivity.
Qed.

Lemma lead_range (c : N) : isLeadSurrogate c = true <-> 55296 <= c <= 56319.
Proof.
  unfold isLeadSurrogate. rewrite andb_true_iff, !N.leb_le. reflexivity.
Qed.

Lemma trail_range (c : N) : isTrailSurrogate c = true <-> 56320 <= c <= 57343.
Proof.
  unfold isTrailSurrogate. rewrite andb_true_iff, !N.leb_le. reflexivity.
Qed.

Lemma lead_not_trail (c : N) :
  isLeadSurrogate c = true -> isTrailSurrogate c = false.
Proof.
  intros H. apply lead_range in H. apply not_true_is_false.
  rewrite trail_range. lia.
Qed.

(** The four cases of the conversion, as an induction scheme. *)
Lemma surrogate_ind (P : jsstring -> Prop) :
  P [] ->
  (forall c d r, isLeadSurrogate c = true -> isTrailSurrogate d = true ->
                 P r -> P (c :: d :: r)) ->
  (forall c r, isLeadSurrogate c = true -> no_trail_ahead r ->
               P r -> P (c :: r)) ->
  (forall c r, isLeadSurrogate c = false -> P r -> P (c :: r)) ->
  forall s, P s.
Proof.
  intros Hnil Hpair Hlone Hother s.
  assert (H : P s /\ forall c, P (c :: s)); [|exact (proj1 H)].
  induction s as [|x s [IH1 IH2]].
  - split; [exact Hnil|]. intros c.
    destruct (isLeadSurrogate c) eqn:Hc.
    + apply Hlone; [exact Hc | exact I | exact Hnil].
    + apply Hother; [exact Hc | exact Hnil].
  - split; [apply IH2|]. intros c.
    destruct (isLeadSurrogate c) eqn:Hc; [|apply Hother; [exact Hc | apply IH2]].
    destruct (isTrailSurrogate x) eqn:Hx.
    + apply Hpair; assumption.
    + apply Hlone; [exact Hc | exact Hx | apply IH2].
Qed.

Lemma toWellFormed_pair (c d : N) (r : jsstring) :
  isLeadSurrogate c = true -> isTrailSurrogate d = true ->
  toWellFormed (c :: d :: r) = c :: d :: toWellFormed r.
Proof. intros Hc Hd. simpl. rewrite Hc, Hd. reflexivity. Qed.

Lemma toWellFormed_lone (c : N) (r : jsstring) :
  isLeadSurrogate c = true -> no_trail_ahead r ->
  toWellFormed (c :: r) = 65533 :: toWellFormed r.
Proof.
  intros Hc Hr. destruct r as [|d r]; simpl in *; rewrite Hc; [reflexivity|].
  rewrite Hr. reflexivity.
Qed.

Lemma toWellFormed_other (c : N) (r : jsstring) :
  isLeadSurrogate c = false ->
  toWellFormed (c :: r)
  = (if isTrailSurrogate c then 65533 else c) :: toWellFormed r.
Proof. intros Hc. simpl. rewrite Hc. destruct (isTrailSurrogate c); reflexivity. Qed.

Lemma scalar_values_pair (c d : N) (r : jsstring) :
  isLeadSurrogate c = true -> isTrailSurrogate d = true ->
  scalar_values (c :: d :: r)
  = (65536 + (c - 55296) * 1024 + (d - 56320)) :: scalar_values r.
Proof. intros Hc Hd. simpl. rewrite Hc, Hd. reflexivity. Qed.

Lemma scalar_values_lone (c : N) (r : jsstring) :
  isLeadSurrogate c = true -> no_trail_ahead r ->
  scalar_values (c :: r) = 65533 :: scalar_values r.
Proof.
  intros Hc Hr. destruct r as [|d r]; simpl in *; rewrite Hc; [reflexivity|].
  rewrite Hr. reflexivity.
Qed.

Lemma scalar_values_other (c : N) (r : jsstring) :
  isLeadSurrogate c = false ->
  scalar_values (c :: r)
  = (if isTrailSurrogate c then 65533 else c) :: scalar_values r.
Proof. intros Hc. simpl. rewrite Hc. destruct (isTrailSurrogate c); reflexivity. Qed.

(** The scalar values of a string are code points, and their code units
    are the well-formed string. *)
Lemma scalar_values_spec (s : jsstring) :
  Forall codeUnit s ->
  Forall (fun cp => cp < 1114112) (scalar_values s)
  /\ flat_map utf16_units (scalar_values s) = toWellFormed s.
Proof.
  induction s as [|c d r Hc Hd IH|c r Hc Hr IH|c r Hc IH] using surrogate_ind;
    intros Hs.
  - split; [constructor | reflexivity].
  - apply Forall_cons_1 in Hs as [_ Hs]. apply Forall_cons_1 in Hs as [_ Hs].
    destruct (IH Hs) as [Hb Hu].
    rewrite scalar_values_pair, toWellFormed_pair by assumption.
    apply lead_range in Hc. apply trail_range in Hd.
    split; [constructor; [lia | exact Hb]|].
    cbn [flat_map]. rewrite Hu. unfold utf16_units.
    replace (65536 + (c - 55296) * 1024 + (d - 56320) <? 65536) with false
      by (symmetry; apply N.ltb_ge; lia).
    cbn [app]. f_equal; [lia_div | f_equal; lia_div].
  - apply Forall_cons_1 in Hs as [_ Hs]. destruct (IH Hs) as [Hb Hu].
    rewrite scalar_values_lone, toWellFormed_lone by assumption.
    split; [constructor; [lia | exact Hb]|].
    cbn [flat_map]. rewrite Hu. reflexivity.
  - apply Forall_cons_1 in Hs as [Hu16 Hs]. destruct (IH Hs) as [Hb Hu].
    rewrite scalar_values_other, toWellFormed_other by assumption.
    unfold codeUnit in Hu16.
    split.
    + constructor; [destruct (isTrailSurrogate c); lia | exact Hb].
    + cbn [flat_map]. rewrite Hu. unfold utf16_units.
      destruct (isTrailSurrogate c); [reflexivity|].
      apply N.ltb_lt in Hu16. rewrite Hu16. reflexivity.
Qed.

(** What a reader of UTF-8 finds in the blob of a string. *)
Lemma decode_utf8_encode (s : jsstring) :
  Forall codeUnit s -> CsvReader.decode (utf8_encode s) = toWellFormed s.
Proof.
  intros Hs. destruct (scalar_values_spec s Hs) as [Hb Hu].
  unfold CsvReader.decode, utf8_encode. rewrite decode_encoded by exact Hb.
  exact Hu.
Qed.

Lemma no_trail_ahead_app (a b : jsstring) :
  no_trail_ahead a -> no_trail_ahead b -> no_trail_ahead (a ++ b).
Proof. destruct a; simpl; auto. Qed.

(** The conversion goes through a code unit that is no surrogate. *)
Lemma toWellFormed_app (x : N) (a b : jsstring) :
  isLeadSurrogate x = false -> isTrailSurrogate x = false ->
  toWellFormed (a ++ x :: b) = toWellFormed a ++ x :: toWellFormed b.
Proof.
  intros Hx1 Hx2.
  induction a as [|c d r Hc Hd IH|c r Hc Hr IH|c r Hc IH] using surrogate_ind.
  - simpl app. rewrite toWellFormed_other by exact Hx1. rewrite Hx2. reflexivity.
  - cbn [app]. rewrite !toWellFormed_pair by assumption. rewrite IH. reflexivity.
  - cbn [app]. rewrite !toWellFormed_lone; try assumption.
    + rewrite IH. reflexivity.
    + apply no_trail_ahead_app; [exact Hr | exact Hx2].
  - cbn [app]. rewrite !toWellFormed_other by exact Hc. rewrite IH. reflexivity.
Qed.

Lemma toWellFormed_join (x : N) (parts : list jsstring) :
  isLeadSurrogate x = false -> isTrailSurrogate x = false ->
  toWellFormed (join [x] parts) = join [x] (map toWellFormed parts).
Proof.
  intros Hx1 Hx2. induction parts as [|p parts IH]; [reflexivity|].
  destruct parts as [|q parts]; [reflexivity|].
  change (join [x] (p :: q :: parts)) with (p ++ x :: join [x] (q :: parts)).
  rewrite toWellFormed_app by assumption. rewrite IH. reflexivity.
Qed.

Lemma no_trail_ahead_replace_quotes (r : jsstring) :
  no_trail_ahead r -> no_trail_ahead (replace_quotes r).
Proof.
  destruct r as [|d r]; [auto|]. simpl.
  destruct (d =? 34); [reflexivity | auto].
Qed.

Lemma surrogate_not_quote (c : N) :
  isLeadSurrogate c = true \/ isTrailSurrogate c = true -> (c =? 34) = false.
Proof.
  intros [H|H]; [apply lead_range in H | apply trail_range in H];
    apply N.eqb_neq; lia.
Qed.

Lemma toWellFormed_replace_quotes (t : jsstring) :
  toWellFormed (replace_quotes t) = replace_quotes (toWellFormed t).
Proof.
  induction t as [|c d r Hc Hd IH|c r Hc Hr IH|c r Hc IH] using surrogate_ind.
  - reflexivity.
  - rewrite toWellFormed_pair by assumption.
    cbn [replace_quotes].
    rewrite (surrogate_not_quote c), (surrogate_not_quote d) by auto.
    rewrite toWellFormed_pair by assumption. rewrite IH. reflexivity.
  - rewrite toWellFormed_lone by assumption.
    cbn [replace_quotes]. rewrite (surrogate_not_quote c) by auto.
    rewrite toWellFormed_lone;
      [|exact Hc | apply no_trail_ahead_replace_quotes; exact Hr].
    rewrite IH. reflexivity.
  - rewrite toWellFormed_other by exact Hc.
    destruct (isTrailSurrogate c) eqn:Ht.
    + cbn [replace_quotes]. rewrite (surrogate_not_quote c) by auto.
      rewrite toWellFormed_other by exact Hc. rewrite Ht, IH. reflexivity.
    + cbn [replace_quotes]. destruct (c =? 34) eqn:Eq.
      * apply N.eqb_eq in Eq. subst c.
        change (toWellFormed (34 :: 34 :: replace_quotes r))
          with (34 :: 34 :: toWellFormed (replace_quotes r)).
        rewrite IH. reflexivity.
      * rewrite toWellFormed_other by exact Hc. rewrite Ht, IH. reflexivity.
Qed.

Lemma toWellFormed_quote (t : jsstring) :
  toWellFormed (RoundTrip.quote t) = RoundTrip.quote (toWellFormed t).
Proof.
  unfold RoundTrip.quote.
  change (toWellFormed (34 :: replace_quotes t ++ [34]))
    with (34 :: toWellFormed (replace_quotes t ++ [34])).
  rewrite (toWellFormed_app 34) by reflexivity.
  rewrite toWellFormed_replace_quotes. reflexivity.
Qed.

Lemma codeUnit_join (sep : jsstring) (parts : list jsstring) :
  Forall codeUnit sep -> Forall (Forall codeUnit) parts ->
  Forall codeUnit (join sep parts).
Proof.
  intros Hsep. induction 1 as [|p parts Hp Hparts IH]; [constructor|].
  destruct parts as [|q parts]; [exact Hp|].
  change (join sep (p :: q :: parts)) with (p ++ sep ++ join sep (q :: parts)).
  rewrite !Forall_app. auto.
Qed.

Lemma codeUnit_quote (t : jsstring) :
  Forall codeUnit t -> Forall codeUnit (RoundTrip.quote t).
Proof.
  intros Ht. unfold RoundTrip.quote.
  assert (H34 : codeUnit 34) by reflexivity.
  constructor; [exact H34|]. rewrite Forall_app. split; [|repeat constructor].
  induction Ht as [|c t Hc _ IH]; [constructor|].
  simpl. destruct (c =? 34); repeat (constructor; try assumption).
Qed.

End Utf8.

(** ** The CSV export *)

Section Csv.

Import CsvReader RoundTrip.

Lemma read_quoted_body (t : jsstring) (f : jsstring) (r : list jsstring)
      (rs : list (list jsstring)) :
  fold_left step (replace_quotes t) (mkState Quoted f r rs)
  = mkState Quoted (rev t ++ f) r rs.
Proof.
  revert f. induction t as [|c t IH]; intros f; [reflexivity|].
  simpl replace_quotes. destruct (N.eqb_spec c 34) as [-> | Hc].
  - simpl fold_left. unfold step at 2 3. simpl.
    unfold add. simpl. rewrite IH, <- app_assoc. reflexivity.
  - simpl fold_left. unfold step at 2. simpl.
    apply N.eqb_neq in Hc. rewrite Hc. unfold add. simpl.
    rewrite IH, <- app_assoc. reflexivity.
Qed.

Lemma read_quote (t : jsstring) (f : jsstring) (r : list jsstring)
      (rs : list (list jsstring)) :
  fold_left step (quote t) (mkState FieldStart f r rs)
  = mkState QuoteSeen (rev t) r rs.
Proof.
  unfold quote. simpl fold_left. unfold step at 2, start. simpl.
  rewrite fold_left_app, read_quoted_body, app_nil_r. reflexivity.
Qed.

(** A line of quoted fields fills the pending record, in order. *)
Lemma read_line (ts : list jsstring) (f : jsstring) (r : list jsstring)
      (rs : list (list jsstring)) :
  ts <> [] ->
  exists f' r',
    fold_left step (join [44] (map quote ts)) (mkState FieldStart f r rs)
    = mkState QuoteSeen f' r' rs
    /\ rev f' :: r' = rev ts ++ r.
Proof.
  intros Hts. revert f r. induction ts as [|t ts IH]; intros f r; [congruence|].
  destruct ts as [|t' ts].
  - exists (rev t), r. simpl join. rewrite read_quote, rev_involutive.
    split; reflexivity.
  - change (join [44] (map quote (t :: t' :: ts)))
      with (quote t ++ 44 :: join [44] (map quote (t' :: ts))).
    rewrite fold_left_app, read_quote. simpl fold_left at 1.
    change (step (mkState QuoteSeen (rev t) r rs) 44)
      with (mkState FieldStart [] (rev (rev t) :: r) rs).
    destruct (IH ltac:(discriminate) [] (rev (rev t) :: r)) as [f' [r' [E Hr]]].
    exists f', r'. split; [exact E|].
    rewrite Hr, rev_involutive. simpl. rewrite <- !app_assoc. reflexivity.
Qed.

Lemma finish_pending (m : mode) (f : jsstring) (r : list jsstring)
      (rs : list (list jsstring)) :
  m = QuoteSeen \/ m = Unquoted ->
  finish (mkState m f r rs) = rev rs ++ [rev (rev f :: r)].
Proof. intros [-> | ->]; reflexivity. Qed.

(** Each further line closes the pending record and becomes the next. *)
Lemma read_lines (rows : list (list jsstring)) (st : state) :
  md st = QuoteSeen \/ md st = Unquoted ->
  Forall (fun ts => ts <> []) rows ->
  let st' := fold_left step
               (flat_map (fun ts => 10 :: join [44] (map quote ts)) rows) st in
  (md st' = QuoteSeen \/ md st' = Unquoted)
  /\ finish st' = finish st ++ rows.
Proof.
  intros Hmd Hrows. revert st Hmd.
  induction Hrows as [|ts rows Hts _ IH]; intros st Hmd; simpl.
  - split; [exact Hmd | rewrite app_nil_r; reflexivity].
  - rewrite fold_left_app.
    destruct st as [m f r rs]. simpl in Hmd.
    assert (E : step (mkState m f r rs) 10
                = mkState FieldStart [] [] (rev (rev f :: r) :: rs))
      by (destruct Hmd as [-> | ->]; reflexivity).
    simpl fold_left at 2. rewrite E.
    destruct (read_line ts [] [] (rev (rev f :: r) :: rs) Hts)
      as [f' [r' [E' Hr]]].
    rewrite E'.
    destruct (IH (mkState QuoteSeen f' r' (rev (rev f :: r) :: rs)))
      as [Hm Hf]; [left; reflexivity|].
    split; [exact Hm|].
    cbv zeta in Hf. rewrite Hf.
    rewrite (finish_pending QuoteSeen) by (left; reflexivity).
    rewrite (finish_pending m) by exact Hmd.
    rewrite Hr, app_nil_r, rev_involutive. simpl.
    rewrite <- !app_assoc. reflexivity.
Qed.

Lemma join_cons (sep p : jsstring) (ps : list jsstring) :
  join sep (p :: ps) = p ++ flat_map (fun q => sep ++ q) ps.
Proof.
  revert p. induction ps as [|q ps IH]; intros p.
  - simpl. rewrite app_nil_r. reflexivity.
  - change (join sep (p :: q :: ps)) with (p ++ sep ++ join sep (q :: ps)).
    rewrite IH. simpl. rewrite <- !app_assoc. reflexivity.
Qed.

Lemma read_header :
  let st := fold_left step (join [44] Utils.customHeaders) initial in
  md st = Unquoted /\ finish st = [Utils.customHeaders].
Proof. vm_compute. split; reflexivity. Qed.

Lemma row_quotes (it : Utils.item) : Utils.row it = map quote (cells it).
Proof. reflexivity. Qed.

Lemma text_string (s : jsstring) : text (VStr s) = s.
Proof. destruct s; reflexivity. Qed.

Lemma cells_of_entry (e : ShippingEntry.t) :
  cells (Utils.item_of_entry e) = entry_cells e.
Proof.
  unfold cells, entry_cells. simpl. rewrite !text_string.
  repeat f_equal. unfold or_else. simpl.
  destruct (Z.eqb_spec (ShippingEntry.quantity e) 0) as [-> | Hq]; simpl.
  - reflexivity.
  - unfold text, or_else. simpl.
    apply Z.eqb_neq in Hq. rewrite Hq. reflexivity.
Qed.

Lemma lines_of_cells (data : list Utils.item) :
  flat_map (fun q => [10] ++ q) (map (fun it => join [44] (Utils.row it)) data)
  = flat_map (fun ts => 10 :: join [44] (map quote ts)) (map cells data).
Proof.
  induction data as [|it data IH]; [reflexivity|].
  simpl. rewrite <- IH. reflexivity.
Qed.

(** The text of the file, read back. *)
Lemma read_csvString (data : list Utils.item) :
  read (Utils.csvString data) = Utils.customHeaders :: map cells data.
Proof.
  unfold read, Utils.csvString, Utils.csvRows.
  rewrite join_cons, fold_left_app.
  destruct read_header as [Hm Hf].
  rewrite lines_of_cells.
  destruct (read_lines (map cells data)
              (fold_left step (join [44] Utils.customHeaders) initial))
    as [_ Hrows].
  - right. exact Hm.
  - apply Forall_map. apply Forall_forall. intros it _. discriminate.
  - cbv zeta in Hrows. rewrite Hrows. cbv zeta in Hf. rewrite Hf. reflexivity.
Qed.

Lemma lines_of_entries (entries : list ShippingEntry.t) :
  flat_map (fun q => [10] ++ q)
           (map (fun it => join [44] (Utils.row it))
                (map Utils.item_of_entry entries))
  = flat_map (fun e => 10 :: join [44] (map quote (entry_cells e))) entries.
Proof.
  induction entries as [|e entries IH]; [reflexivity|].
  cbn [map flat_map]. rewrite IH, row_quotes, cells_of_entry.
  reflexivity.
Qed.

Lemma replace_quotes_flat_map (t : jsstring) :
  replace_quotes t = flat_map (fun c => if c =? 34 then [34; 34] else [c]) t.
Proof.
  induction t as [|c t IH]; [reflexivity|].
  simpl. rewrite IH. destruct (c =? 34); reflexivity.
Qed.

Lemma lines_of_rows (rows : list (list jsstring)) :
  flat_map (fun q => [10] ++ q) (map (fun ts => join [44] (map quote ts)) rows)
  = flat_map (fun ts => 10 :: join [44] (map quote ts)) rows.
Proof.
  induction rows as [|ts rows IH]; [reflexivity|].
  simpl. rewrite <- IH. reflexivity.
Qed.

(** The text of a file of quoted rows. *)
Lemma read_rows (rows : list (list jsstring)) :
  Forall (fun ts => ts <> []) rows ->
  read (join [10] (join [44] Utils.customHeaders
                   :: map (fun ts => join [44] (map quote ts)) rows))
  = Utils.customHeaders :: rows.
Proof.
  intros Hrows. unfold read. rewrite join_cons, fold_left_app.
  destruct read_header as [Hm Hf].
  rewrite lines_of_rows.
  destruct (read_lines rows
              (fold_left step (join [44] Utils.customHeaders) initial))
    as [_ Hr]; [right; exact Hm | exact Hrows |].
  cbv zeta in Hr. rewrite Hr. cbv zeta in Hf. rewrite Hf. reflexivity.
Qed.

Lemma csvString_rows (data : list Utils.item) :
  Utils.csvString data
  = join [10] (join [44] Utils.customHeaders
               :: map (fun ts => join [44] (map quote ts)) (map cells data)).
Proof.
  unfold Utils.csvString, Utils.csvRows. rewrite map_map. reflexivity.
Qed.

Lemma toWellFormed_rows (rows : list (list jsstring)) :
  toWellFormed (join [10] (join [44] Utils.customHeaders
                           :: map (fun ts => join [44] (map quote ts)) rows))
  = join [10] (join [44] Utils.customHeaders
               :: map (fun ts => join [44] (map quote ts))
                      (map (map toWellFormed) rows)).
Proof.
  rewrite (toWellFormed_join 10) by reflexivity.
  cbn [map].
  replace (toWellFormed (join [44] Utils.customHeaders))
    with (join [44] Utils.customHeaders) by (vm_compute; reflexivity).
  apply (f_equal (join [10])). apply (f_equal (cons _)).
  rewrite !map_map. apply map_ext. intros ts.
  rewrite (toWellFormed_join 44) by reflexivity.
  rewrite !map_map. apply (f_equal (join [44])).
  apply map_ext. apply toWellFormed_quote.
Qed.

Lemma codeUnit_rows (rows : list (list jsstring)) :
  Forall (Forall (Forall codeUnit)) rows ->
  Forall codeUnit (join [10] (join [44] Utils.customHeaders
                              :: map (fun ts => join [44] (map quote ts)) rows)).
Proof.
  intros Hrows.
  assert (H10 : Forall codeUnit [10]) by (repeat constructor).
  assert (H44 : Forall codeUnit [44]) by (repeat constructor).
  apply codeUnit_join; [exact H10|]. constructor.
  - change (Forall (fun c => c < 65536) (join [44] Utils.customHeaders)).
    apply (bool_decide_unpack _). vm_compute. exact I.
  - apply Forall_map. eapply Forall_impl; [exact Hrows|].
    intros ts Hts. apply codeUnit_join; [exact H44|].
    apply Forall_map. eapply Forall_impl; [exact Hts|].
    intros t Ht. apply codeUnit_quote. exact Ht.
Qed.

(** The bytes of the file, read back: every text comes back
    well-formed. *)
Lemma read_blob (data : list Utils.item) :
  Forall (Forall (Forall codeUnit)) (map cells data) ->
  read_file (utf8_encode (65279 :: Utils.csvString data))
  = Utils.customHeaders :: map (fun it => map toWellFormed (cells it)) data.
Proof.
  intros Hunits. unfold read_file.
  rewrite decode_utf8_encode.
  - change (toWellFormed (65279 :: Utils.csvString data))
      with (65279 :: toWellFormed (Utils.csvString data)).
    cbv beta iota.
    rewrite csvString_rows, toWellFormed_rows, read_rows, map_map.
    + reflexivity.
    + apply Forall_map, Forall_map, Forall_forall. intros it _. discriminate.
  - constructor; [reflexivity|]. rewrite csvString_rows.
    apply codeUnit_rows. exact Hunits.
Qed.

(** The byte-order mark is written as three bytes. *)
Lemma utf8_encode_mark (text : jsstring) :
  utf8_encode (65279 :: text) = [239; 187; 191] ++ utf8_encode text.
Proof. reflexivity. Qed.

Lemma well_formed_rows {A : Type} (f : A -> list jsstring) (data : list A) :
  Forall (Forall (fun t => toWellFormed t = t)) (map f data) ->
  map (fun x => map toWellFormed (f x)) data = map f data.
Proof.
  induction data as [|x xs IH]; intros Hwf; [reflexivity|].
  cbn [map] in Hwf. apply Forall_cons_1 in Hwf as [Hx Hxs].
  cbn [map]. rewrite (IH Hxs). apply (f_equal (fun r => r :: map f xs)).
  induction Hx as [|t ts Ht _ IHt]; [reflexivity|].
  cbn [map]. rewrite Ht, IHt. reflexivity.
Qed.

Lemma read_blob_entries (entries : list ShippingEntry.t) :
  Forall (Forall (Forall codeUnit)) (map entry_cells entries) ->
  read_file (utf8_encode
               (65279 :: Utils.csvString (map Utils.item_of_entry entries)))
  = Utils.customHeaders
      :: map (fun e => map toWellFormed (entry_cells e)) entries.
Proof.
  intros Hunits.
  assert (Ecells : map cells (map Utils.item_of_entry entries)
                   = map entry_cells entries).
  { rewrite map_map. apply map_ext. apply cells_of_entry. }
  rewrite read_blob by (rewrite Ecells; exact Hunits).
  apply (f_equal (cons _)). rewrite map_map. apply map_ext. intros x.
  rewrite cells_of_entry. reflexivity.
Qed.

(** C5 (amended).  For an empty list nothing is emitted.  Otherwise the
    file is the UTF-8 encoding of the byte-order mark and the line of
    the ten headers, followed by one line per entry of ten fields, each
    between double quotes with its double quotes doubled and nothing
    else changed; the fourth and fifth fields are empty.  A standard
    reader gives back the headers and, for each entry, its Instagram id,
    name, phone, two blanks, address, product name, size, quantity and
    message, where a quantity of 0 reads back as 1 and a surrogate
    without its partner as U+FFFD: every field that is well-formed text
    comes back as it is.  (The fields are strings: their code units have
    16 bits.) *)
Theorem downloadCSV_round_trip (filename : jsstring)
        (entries : list ShippingEntry.t) :
  Utils.downloadCSV filename [] = None
  /\ List.length Utils.customHeaders = 10%nat
  /\ Utils.customHeaders !! 3%nat = Some (js "받는분기타연락처")
  /\ Utils.customHeaders !! 4%nat = Some (js "받는분우편번호")
  /\ (entries <> [] ->
      exists d,
        Utils.downloadCSV filename (map Utils.item_of_entry entries) = Some d
        /\ Utils.filename d = filename
        /\ Utils.blob d
           = [239; 187; 191]
               ++ utf8_encode
                    (join [44] Utils.customHeaders
                       ++ flat_map
                            (fun e => 10 :: join [44] (map quote (entry_cells e)))
                            entries)
        /\ (Forall (Forall (Forall codeUnit)) (map entry_cells entries) ->
            read_file (Utils.blob d)
            = Utils.customHeaders
                :: map (fun e => map toWellFormed (entry_cells e)) entries)
        /\ (Forall (Forall (Forall codeUnit)) (map entry_cells entries) ->
            Forall (Forall (fun t => toWellFormed t = t))
                   (map entry_cells entries) ->
            read_file (Utils.blob d)
            = Utils.customHeaders :: map entry_cells entries))
  /\ (forall e, entry_cells e !! 3%nat = Some []
                /\ entry_cells e !! 4%nat = Some [])
  /\ (forall t, quote t
                = 34 :: flat_map (fun c => if c =? 34 then [34; 34] else [c]) t
                    ++ [34]).
Proof.
  split; [reflexivity|]. split; [reflexivity|].
  split; [reflexivity|]. split; [reflexivity|].
  split; [|split].
  - intros Hne. destruct entries as [|e entries]; [congruence|].
    pose proof (read_blob_entries (e :: entries)) as Hread.
    eexists. split; [reflexivity|]. split; [reflexivity|]. split; [|split].
    + cbn [Utils.blob]. rewrite utf8_encode_mark.
      apply (f_equal (app [239; 187; 191])). apply (f_equal utf8_encode).
      unfold Utils.csvString, Utils.csvRows.
      rewrite join_cons, lines_of_entries. reflexivity.
    + exact Hread.
    + intros Hunits Hwf. cbn [Utils.blob]. rewrite (Hread Hunits).
      f_equal. apply (well_formed_rows entry_cells (e :: entries) Hwf).
  - intros e. split; reflexivity.
  - intros t. unfold quote. rewrite replace_quotes_flat_map. reflexivity.
Qed.

(** C5 as stated fails: an entry of quantity 0 is exported, and
    read back, with quantity 1. *)
Lemma quantity_zero_reads_back_one :
  exists d,
    Utils.downloadCSV (js "export.csv") [Utils.item_of_entry Sample.entry0]
    = Some d
    /\ ShippingEntry.quantity Sample.entry0 = 0%Z
    /\ (read_file (Utils.blob d) !! 1%nat) ≫= (fun r => r !! 8%nat)
       = Some (js "1")
    /\ js "1" <> Number_toString (ShippingEntry.quantity Sample.entry0).
Proof.
  eexists. split; [reflexivity|]. split; [reflexivity|].
  split; [vm_compute; reflexivity|]. vm_compute. discriminate.
Qed.

(** C10.  The quantity column is the quoted text of the quantity when
    that is truthy and the quoted text of 1 when it is falsy, so a
    quantity of 0 is exported as 1 and not as 0.  Every other column is
    [escape] of its field, and [escape] of a falsy value (the empty
    string, null and undefined among them) is the empty quoted string,
    never the text null or undefined. *)
Theorem quantity_column_default (it : Utils.item) :
  Utils.row it
  = [ Utils.escape (Utils.instagramId it); Utils.escape (Utils.name it);
      Utils.escape (Utils.phone it); [34; 34]; [34; 34];
      Utils.escape (Utils.address it); Utils.escape (Utils.productName it);
      Utils.escape (Utils.size it);
      Utils.escape (or_else (Utils.quantity it) (VNum 1));
      Utils.escape (Utils.message it) ]
  /\ (truthy (Utils.quantity it) = true ->
      Utils.row it !! 8%nat = Some (quote (ToString (Utils.quantity it))))
  /\ (truthy (Utils.quantity it) = false ->
      Utils.row it !! 8%nat = Some (quote (js "1")))
  /\ (forall z, Utils.quantity it = VNum z -> z <> 0%Z ->
                Utils.row it !! 8%nat = Some (34 :: Number_toString z ++ [34]))
  /\ (Utils.quantity it = VNum 0 ->
      Utils.row it !! 8%nat = Some [34; 49; 34]
      /\ Utils.row it !! 8%nat <> Some (quote (Number_toString 0)))
  /\ (forall v, truthy v = false -> Utils.escape v = [34; 34])
  /\ truthy (VStr []) = false /\ truthy VNull = false
  /\ truthy VUndefined = false.
Proof.
  split; [reflexivity|].
  assert (Htruthy : truthy (Utils.quantity it) = true ->
                    Utils.row it !! 8%nat
                    = Some (quote (ToString (Utils.quantity it)))).
  { intros Ht. cbn [Utils.row lookup list_lookup]. unfold Utils.escape, or_else.
    rewrite Ht, Ht. reflexivity. }
  assert (Hfalsy : truthy (Utils.quantity it) = false ->
                   Utils.row it !! 8%nat = Some (quote (js "1"))).
  { intros Hf. cbn [Utils.row lookup list_lookup]. unfold Utils.escape, or_else.
    rewrite Hf. reflexivity. }
  split; [exact Htruthy|]. split; [exact Hfalsy|]. split; [|split; [|split]].
  - intros z Hq Hz. etransitivity; [apply Htruthy|].
    + rewrite Hq. simpl. apply Z.eqb_neq in Hz. rewrite Hz. reflexivity.
    + rewrite Hq. unfold quote. simpl ToString.
      rewrite (replace_quotes_id _ (Number_toString_no_quote z)). reflexivity.
  - intros Hq.
    assert (E : Utils.row it !! 8%nat = Some (quote (js "1")))
      by (apply Hfalsy; rewrite Hq; reflexivity).
    split; [exact E|]. intros E'. rewrite E' in E. discriminate.
  - intros v Hv. unfold Utils.escape, or_else. rewrite Hv. reflexivity.
  - repeat split.
Qed.

End Csv.

(** ** The theorems at the sample data *)

Section Instances.

Import InfluencerPage AdminDashboard RoundTrip.

(** The admin code typed in capitals between blanks opens the admin
    session. *)
Lemma handleLogin_resolves_witness :
  asciiLower (trim (js "  ADMIN ")) = asciiLower (js "admin")
  /\ App.currentUser
       (App.handleLogin asciiLower (Sample.atLogin (js "  ADMIN ") []))
     = Some User.admin
  /\ App.view (App.handleLogin asciiLower (Sample.atLogin (js "  ADMIN ") []))
     = View.select_collection.
Proof.
  split; [vm_compute; reflexivity|].
  destruct (proj1 (handleLogin_resolves asciiLower
                     (Sample.atLogin (js "  ADMIN ") [])))
    as (_ & Huser & Hview & _).
  - vm_compute. reflexivity.
  - split; [exact Huser | exact Hview].
Defined.

(** The access code of the sample collection in another case opens an
    influencer session on it. *)
Example login_as_influencer :
  App.handleLogin asciiLower (Sample.atLogin (js " sPRING") [])
  = App.setView View.influencer
      (App.setCurrentUser (Some User.influencer)
         (App.setActiveCollection (Some Sample.collection)
            (Sample.atLogin (js " sPRING") []))).
Proof. vm_compute. reflexivity. Qed.



(** The sample cart starts with one item; the second addition of the
    session is refused, and after a removal the last one is accepted. *)
Example shopping_cart :
  map CartItem.size (App.cart (fst (run Sample.shopping (Sample.asInfluencer, initial))))
  = [js "M"; js "S"].
Proof. vm_compute. reflexivity. Qed.

Lemma handleSubmit_spec_witness :
  exists (newEntries : list ShippingEntry.t) a' p',
    handleSubmit Sample.collection Sample.host Sample.asInfluencer Sample.atCart
    = (a', p', [])
    /\ List.length newEntries = 1%nat
    /\ App.cart a' = []
    /\ view p' = PageView.success.
Proof.
  destruct (proj2 (handleSubmit_spec Sample.collection Sample.host
                     Sample.asInfluencer Sample.atCart))
    as (newEntries & a' & p' & E & Hlen & _ & _ & Hcart & Hview & _).
  - vm_compute. discriminate.
  - vm_compute. discriminate.
  - vm_compute. discriminate.
  - vm_compute. discriminate.
  - reflexivity.
  - exists newEntries, a', p'. repeat split; assumption.
Defined.

(** The end-to-end scenario: the item of size M of the sample cart
    becomes one new entry after the earlier one. *)
Example submit_sample :
  (Collection.shippingEntries
     <$> App.activeCollection
           (fst (fst (handleSubmit Sample.collection Sample.host
                        Sample.asInfluencer Sample.atCart))))
  = Some [ Sample.entry;
           {| ShippingEntry.id := js "8f2k1x9q0";
              ShippingEntry.status := PREPARING;
              ShippingEntry.submitDate := js "2024-05-17";
              ShippingEntry.instagramId := js "abc";
              ShippingEntry.name := js "김민지";
              ShippingEntry.phone := js "010-1234-5678";
              ShippingEntry.address := js "Seoul";
              ShippingEntry.message := js "fast please";
              ShippingEntry.extra := [];
              ShippingEntry.productName := js "Tee";
              ShippingEntry.size := js "M";
              ShippingEntry.quantity := 1%Z;
              ShippingEntry.adminMemo := [] |} ].
Proof. vm_compute. reflexivity. Qed.

(** C4.  The copy of the duplicate button should carry a fresh
    identifier, other than the one of its source.  [generateId] keeps
    nine digits of the random draw and checks nothing: on a draw with
    the nine digits of the source entry's identifier, the copy carries
    the identifier of its source, and the table then holds two entries
    of the same identifier. *)
Theorem duplicate_may_repeat_id :
  In Sample.entry (Collection.shippingEntries Sample.collection)
  /\ Utils.generateId (js "0.k3x9q2m1z08") = ShippingEntry.id Sample.entry
  /\ exists copy,
       (Collection.shippingEntries
          <$> App.activeCollection
                (onDuplicate Sample.collection Sample.entry
                   (js "0.k3x9q2m1z08") Sample.asAdmin))
       = Some [Sample.entry; copy]
       /\ ShippingEntry.id copy = ShippingEntry.id Sample.entry.
Proof.
  split; [left; reflexivity|]. split; [vm_compute; reflexivity|].
  eexists. split; [reflexivity|]. vm_compute. reflexivity.
Qed.

(** C6 as stated fails: a negative input is stored as the
    limit. *)
Lemma negative_limit_is_stored :
  parseInt (js "-5") = NumInt (-5)
  /\ (fun a' => Collection.maxProducts <$> App.activeCollection a')
       <$> onMaxProductsChange Sample.collection (js "-5") Sample.asAdmin
     = Some (Some (-5)%Z)
  /\ ~ (0 < -5)%Z.
Proof.
  split; [vm_compute; reflexivity|].
  split; [vm_compute; reflexivity|]. intros H. discriminate H.
Qed.

(** A name typed in the dialog, with room in the storage, creates the
    collection. *)
Lemma createCollection_spec_witness :
  exists newColl,
    AppState.collections
      (App.state (App.createCollection ∅ (js "0.abcdefghi1") (js "0.zyxwvuts2")
                    (Sample.atLogin [] (js " SS25 "))))
    = [Sample.collection; newColl]
    /\ Collection.id newColl = js "abcdefghi"
    /\ Collection.name newColl = js "SS25"
    /\ Collection.accessCode newColl = js "zyxwvu"
    /\ Collection.maxProducts newColl = 2%Z.
Proof.
  destruct (proj2 (proj2 (createCollection_spec ∅ (js "0.abcdefghi1")
                            (js "0.zyxwvuts2")
                            (Sample.atLogin [] (js " SS25 ")))))
    as (newColl & Hcs & _ & Hid & Hname & Hcode & Hmax & _).
  - vm_compute. discriminate.
  - vm_compute. intros H. apply H. reflexivity.
  - exists newColl. split; [exact Hcs|]. split; [exact Hid|].
    split; [rewrite Hname; vm_compute; reflexivity|].
    split; [rewrite Hcode; vm_compute; reflexivity | exact Hmax].
Defined.

Lemma downloadCSV_round_trip_witness :
  exists d,
    Utils.downloadCSV (js "SS24_shipping_export.csv")
      (map Utils.item_of_entry [Sample.entry]) = Some d
    /\ CsvReader.read_file (Utils.blob d)
       = [ Utils.customHeaders;
           [ js "abc"; js "김민지"; js "010-1234-5678"; []; []; js "Seoul";
             js "Tee"; js "M"; js "2"; js "fast please" ] ].
Proof.
  destruct (proj1 (proj2 (proj2 (proj2 (proj2
              (downloadCSV_round_trip (js "SS24_shipping_export.csv")
                 [Sample.entry]))))))
    as (d & E & _ & _ & _ & Hread).
  - discriminate.
  - exists d. split; [exact E|]. rewrite Hread.
    + vm_compute. reflexivity.
    + change (Forall (Forall (Forall (fun c => c < 65536)))
                     (map entry_cells [Sample.entry])).
      apply (bool_decide_unpack _). vm_compute. exact I.
    + apply (bool_decide_unpack _). vm_compute. exact I.
Defined.

Lemma quantity_column_default_witness :
  Utils.row (Utils.item_of_entry Sample.entry0) !! 8%nat = Some [34; 49; 34].
Proof.
  apply (proj1 (proj2 (proj2 (proj2 (proj2
           (quantity_column_default (Utils.item_of_entry Sample.entry0))))))).
  reflexivity.
Defined.

End Instances.

(** * Further properties of the code *)

Set Warnings "-clear-no-such-hyp".

(** ** Replacing and deleting a collection *)

Section Collections.

Lemma eqb_true (x y : jsstring) : Js.eqb x y = true <-> x = y.
Proof. unfold Js.eqb. apply bool_decide_eq_true. Qed.

Lemma eqb_false (x y : jsstring) : Js.eqb x y = false <-> x <> y.
Proof. unfold Js.eqb. apply bool_decide_eq_false. Qed.

Lemma replace_ids (updated : Collection.t) (cs : list Collection.t) :
  map Collection.id
      (map (fun c => if Js.eqb (Collection.id c) (Collection.id updated)
                     then updated else c) cs)
  = map Collection.id cs.
Proof.
  induction cs as [|c cs IH]; [reflexivity|]. simpl. rewrite IH. f_equal.
  destruct (Js.eqb (Collection.id c) (Collection.id updated)) eqn:E;
    [|reflexivity].
  apply eqb_true in E. congruence.
Qed.

Lemma replace_lookup (updated : Collection.t) (cs : list Collection.t)
      (i : nat) (c : Collection.t) :
  cs !! i = Some c ->
  map (fun c => if Js.eqb (Collection.id c) (Collection.id updated)
                then updated else c) cs !! i
  = Some (if Js.eqb (Collection.id c) (Collection.id updated)
          then updated else c).
Proof.
  revert i. induction cs as [|x cs IH]; intros [|i] Hi; try discriminate.
  - injection Hi as ->. reflexivity.
  - simpl. apply IH. exact Hi.
Qed.

Lemma replace_absent (updated : Collection.t) (cs : list Collection.t) :
  Forall (fun c => Collection.id c <> Collection.id updated) cs ->
  map (fun c => if Js.eqb (Collection.id c) (Collection.id updated)
                then updated else c) cs = cs.
Proof.
  induction 1 as [|c cs Hc _ IH]; [reflexivity|]. simpl.
  apply eqb_false in Hc. rewrite Hc, IH. reflexivity.
Qed.

Lemma AppState_eta (st : AppState.t) :
  {| AppState.collections := AppState.collections st;
     AppState.activeCollectionId := AppState.activeCollectionId st;
     AppState.adminAccessCode := AppState.adminAccessCode st |} = st.
Proof. destruct st; reflexivity. Qed.

(** X1.  [updateCollection] keeps the number, the order and the ids of
    the collections of the document: a collection with the id of the
    new value is replaced by it, every other one stays at its place.
    The new value becomes the active collection even when the document
    holds no collection of its id, and the document is then unchanged. *)
Theorem updateCollection_in_place (updated : Collection.t) (a : App.t) :
  let cs := AppState.collections (App.state a) in
  let cs' := AppState.collections (App.state (App.updateCollection updated a)) in
  map Collection.id cs' = map Collection.id cs
  /\ List.length cs' = List.length cs
  /\ (forall i c, cs !! i = Some c ->
                  Collection.id c <> Collection.id updated -> cs' !! i = Some c)
  /\ (forall i c, cs !! i = Some c ->
                  Collection.id c = Collection.id updated ->
                  cs' !! i = Some updated)
  /\ App.activeCollection (App.updateCollection updated a) = Some updated
  /\ AppState.adminAccessCode (App.state (App.updateCollection updated a))
     = AppState.adminAccessCode (App.state a)
  /\ (Forall (fun c => Collection.id c <> Collection.id updated) cs ->
      App.state (App.updateCollection updated a) = App.state a).
Proof.
  intros cs cs'.
  assert (E : cs' = map (fun c => if Js.eqb (Collection.id c) (Collection.id updated)
                                  then updated else c) cs)
    by (subst cs cs'; destruct a; reflexivity).
  split; [rewrite E; apply replace_ids|].
  split; [rewrite E; apply length_map|].
  split.
  { intros i c Hi Hne. rewrite E, (replace_lookup updated cs i c Hi).
    apply eqb_false in Hne. rewrite Hne. reflexivity. }
  split.
  { intros i c Hi Heq. rewrite E, (replace_lookup updated cs i c Hi).
    apply eqb_true in Heq. rewrite Heq. reflexivity. }
  split; [destruct a; reflexivity|].
  split; [destruct a; reflexivity|].
  intros Habs. subst cs.
  destruct a as [st cu ac ai er su ca vi sv mo nn]; simpl in *.
  rewrite (replace_absent updated _ Habs). apply AppState_eta.
Qed.

(** The sample collection, its entries emptied, replaces itself in the
    sample document. *)
Lemma updateCollection_in_place_witness :
  AppState.collections
    (App.state (App.updateCollection
                  (Collection.with_shippingEntries Sample.collection [])
                  Sample.asAdmin)) !! 0%nat
  = Some (Collection.with_shippingEntries Sample.collection []).
Proof.
  apply (proj1 (proj2 (proj2 (proj2
           (updateCollection_in_place
              (Collection.with_shippingEntries Sample.collection [])
              Sample.asAdmin))))
           0%nat Sample.collection); reflexivity.
Defined.

Lemma filter_other_ids (id : jsstring) (cs : list Collection.t) :
  Forall (fun c => Collection.id c <> id) cs ->
  filter (fun c => Js.eqb (Collection.id c) id = false) cs = cs.
Proof.
  induction 1 as [|c cs Hc _ IH]; [reflexivity|].
  rewrite filter_cons_True by (apply eqb_false; exact Hc).
  rewrite IH. reflexivity.
Qed.

(** X2.  [onDelete], once confirmed, removes every collection that has
    the id of the active one, keeps the others in their order, leaves no
    collection active and shows the list of collections; the admin code
    stays.  When the dialog is declined nothing changes. *)
Theorem onDelete_removes_by_id (active : Collection.t) (a : App.t) :
  let cs := AppState.collections (App.state a) in
  let a' := AppAdmin.onDelete active true a in
  let cs' := AppState.collections (App.state a') in
  (forall c, c ∈ cs' <-> c ∈ cs /\ Collection.id c <> Collection.id active)
  /\ sublist cs' cs
  /\ App.activeCollection a' = None
  /\ App.view a' = View.select_collection
  /\ AppState.adminAccessCode (App.state a') = AppState.adminAccessCode (App.state a)
  /\ AppAdmin.onDelete active false a = a.
Proof.
  intros cs a' cs'.
  assert (E : cs' = filter (fun c => Js.eqb (Collection.id c) (Collection.id active)
                                     = false) cs)
    by (subst cs cs' a'; destruct a; reflexivity).
  split.
  { intros c. rewrite E, list_elem_of_filter, eqb_false. tauto. }
  split; [rewrite E; apply sublist_filter|].
  subst a'. destruct a; repeat split.
Qed.

(** X3.  Creating a collection and deleting it at once gives back the
    document as it was, when creation goes through (a name is typed, the
    storage is not nearly full) and the generated id is the id of no
    earlier collection. *)
Theorem create_then_delete (localStorage : Utils.Storage) (r1 r2 : jsstring)
        (a : App.t) (newColl : Collection.t) :
  trim (App.newCollectionName a) <> [] ->
  App.storage_nearly_full localStorage = false ->
  Forall (fun c => Collection.id c <> Utils.generateId r1)
         (AppState.collections (App.state a)) ->
  App.activeCollection (App.createCollection localStorage r1 r2 a) = Some newColl ->
  App.state (AppAdmin.onDelete newColl true
               (App.createCollection localStorage r1 r2 a))
  = App.state a.
Proof.
  intros Hname Hfree Hfresh Hact. unfold App.createCollection in *.
  destruct (trim (App.newCollectionName a)) as [|u us]; [congruence|].
  rewrite Hfree in *.
  destruct a as [st cu ac ai er su ca vi sv mo nn]; simpl in *.
  injection Hact as <-. simpl.
  rewrite filter_app, (filter_other_ids _ _ Hfresh).
  rewrite filter_cons_False, filter_nil, app_nil_r.
  - apply AppState_eta.
  - intros H. apply eqb_false in H. apply H. reflexivity.
Qed.

Lemma create_then_delete_witness :
  exists newColl,
    App.activeCollection
      (App.createCollection ∅ (js "0.abcdefghi") (js "0.zyxwvuts")
         (Sample.atLogin [] (js "SS25"))) = Some newColl
    /\ App.state (AppAdmin.onDelete newColl true
                    (App.createCollection ∅ (js "0.abcdefghi") (js "0.zyxwvuts")
                       (Sample.atLogin [] (js "SS25"))))
       = App.state (Sample.atLogin [] (js "SS25")).
Proof.
  eexists. split.
  - vm_compute. reflexivity.
  - apply (create_then_delete ∅ (js "0.abcdefghi") (js "0.zyxwvuts")
             (Sample.atLogin [] (js "SS25"))).
    + vm_compute. discriminate.
    + vm_compute. reflexivity.
    + repeat constructor. vm_compute. discriminate.
    + vm_compute. reflexivity.
Defined.

End Collections.

(** ** The shipping table *)

Section Table.

Import ShippingTable.

Local Abbreviation ids := (map ShippingEntry.id).

Lemma mapById_absent (entry : ShippingEntry.t)
      (change : ShippingEntry.t -> ShippingEntry.t) (es : list ShippingEntry.t) :
  ShippingEntry.id entry ∉ ids es -> mapById entry change es = es.
Proof.
  induction es as [|x es IH]; intros Hno; [reflexivity|].
  simpl in *. apply not_elem_of_cons in Hno as [Hx Hes].
  replace (Js.eqb (ShippingEntry.id x) (ShippingEntry.id entry)) with false
    by (symmetry; apply eqb_false; congruence).
  f_equal. apply IH. exact Hes.
Qed.

Lemma lookup_id (es : list ShippingEntry.t) (i : nat) (e : ShippingEntry.t) :
  es !! i = Some e -> ShippingEntry.id e ∈ ids es.
Proof.
  intros Hi. apply list_elem_of_In, in_map, list_elem_of_In.
  apply list_elem_of_lookup. exists i. exact Hi.
Qed.

(** With distinct ids, the map by id rewrites the row itself only. *)
Lemma mapById_insert (entry : ShippingEntry.t)
      (change : ShippingEntry.t -> ShippingEntry.t) (es : list ShippingEntry.t)
      (i : nat) :
  NoDup (ids es) -> es !! i = Some entry ->
  mapById entry change es = <[i := change entry]> es.
Proof.
  revert i. induction es as [|x es IH]; intros i Hnd Hi; [discriminate|].
  simpl in Hnd. apply NoDup_cons in Hnd as [Hx Hnd].
  destruct i as [|i]; simpl in *.
  - injection Hi as ->.
    replace (Js.eqb (ShippingEntry.id entry) (ShippingEntry.id entry)) with true
      by (symmetry; apply eqb_true; reflexivity).
    f_equal. apply mapById_absent. exact Hx.
  - replace (Js.eqb (ShippingEntry.id x) (ShippingEntry.id entry)) with false.
    + f_equal. apply IH; assumption.
    + symmetry. apply eqb_false. intros E. apply Hx. rewrite E.
      apply (lookup_id es i entry Hi).
Qed.

Lemma filter_absent (entry : ShippingEntry.t) (es : list ShippingEntry.t) :
  ShippingEntry.id entry ∉ ids es ->
  filter (fun s => Js.eqb (ShippingEntry.id s) (ShippingEntry.id entry) = false) es
  = es.
Proof.
  induction es as [|x es IH]; intros Hno; [reflexivity|].
  simpl in Hno. apply not_elem_of_cons in Hno as [Hx Hes].
  rewrite filter_cons_True by (apply eqb_false; congruence).
  f_equal. apply IH. exact Hes.
Qed.

Lemma filter_delete (entry : ShippingEntry.t) (es : list ShippingEntry.t)
      (i : nat) :
  NoDup (ids es) -> es !! i = Some entry ->
  filter (fun s => Js.eqb (ShippingEntry.id s) (ShippingEntry.id entry) = false) es
  = delete i es.
Proof.
  revert i. induction es as [|x es IH]; intros i Hnd Hi; [discriminate|].
  simpl in Hnd. apply NoDup_cons in Hnd as [Hx Hnd].
  destruct i as [|i]; simpl in *.
  - injection Hi as ->.
    rewrite filter_cons_False
      by (intros H; apply eqb_false in H; apply H; reflexivity).
    apply filter_absent. exact Hx.
  - rewrite filter_cons_True.
    + f_equal. apply IH; assumption.
    + apply eqb_false. intros E. apply Hx. rewrite E.
      apply (lookup_id es i entry Hi).
Qed.

Lemma activeEntries_update (collection : Collection.t)
      (es : list ShippingEntry.t) (a : App.t) :
  activeEntries
    (App.updateCollection (Collection.with_shippingEntries collection es) a)
  = Some es.
Proof. destruct a; reflexivity. Qed.

(** X4.  When the rows of the table have distinct ids, a change of the
    status, the product name, the size or the memo of a row rewrites
    that field of that row and nothing else of the table. *)
Theorem edit_changes_one_row (collection : Collection.t)
        (entry : ShippingEntry.t) (i : nat) (a : App.t) :
  NoDup (ids (Collection.shippingEntries collection)) ->
  Collection.shippingEntries collection !! i = Some entry ->
  (forall v, activeEntries (onStatusChange collection entry v a)
             = Some (<[i := with_status entry v]>
                       (Collection.shippingEntries collection)))
  /\ (forall v, activeEntries (onProductNameChange collection entry v a)
                = Some (<[i := with_productName entry v]>
                          (Collection.shippingEntries collection)))
  /\ (forall v, activeEntries (onSizeChange collection entry v a)
                = Some (<[i := with_size entry v]>
                          (Collection.shippingEntries collection)))
  /\ (forall v, activeEntries (onAdminMemoChange collection entry v a)
                = Some (<[i := with_adminMemo entry v]>
                          (Collection.shippingEntries collection))).
Proof.
  intros Hnd Hi.
  repeat split; intros v;
    unfold onStatusChange, onProductNameChange, onSizeChange, onAdminMemoChange;
    rewrite activeEntries_update; f_equal; apply mapById_insert; assumption.
Qed.

Lemma edit_changes_one_row_witness :
  activeEntries (onStatusChange Sample.collection Sample.entry PREPARING
                   Sample.asAdmin)
  = Some [with_status Sample.entry PREPARING].
Proof.
  apply (proj1 (edit_changes_one_row Sample.collection Sample.entry 0
                  Sample.asAdmin ltac:(repeat constructor; apply not_elem_of_nil)
                  eq_refl)).
Defined.

(** X5.  The delete button of a row, once confirmed, removes every row
    that has the id of that row and keeps the others in order; when the
    ids are distinct it removes that row alone.  Declined, it changes
    nothing. *)
Theorem delete_row (collection : Collection.t) (entry : ShippingEntry.t)
        (a : App.t) :
  (exists es',
      activeEntries (onDeleteEntry collection entry true a) = Some es'
      /\ (forall s, s ∈ es' <-> s ∈ Collection.shippingEntries collection
                                /\ ShippingEntry.id s <> ShippingEntry.id entry)
      /\ sublist es' (Collection.shippingEntries collection)
      /\ (forall i,
             NoDup (ids (Collection.shippingEntries collection)) ->
             Collection.shippingEntries collection !! i = Some entry ->
             es' = delete i (Collection.shippingEntries collection)))
  /\ onDeleteEntry collection entry false a = a.
Proof.
  split; [|reflexivity].
  eexists. unfold onDeleteEntry. rewrite activeEntries_update.
  split; [reflexivity|]. split.
  { intros s. rewrite list_elem_of_filter, eqb_false. tauto. }
  split; [apply sublist_filter|].
  intros i Hnd Hi. apply filter_delete; assumption.
Qed.

Lemma delete_row_witness :
  activeEntries (onDeleteEntry Sample.collection Sample.entry true Sample.asAdmin)
  = Some (delete 0%nat (Collection.shippingEntries Sample.collection)).
Proof.
  destruct (proj1 (delete_row Sample.collection Sample.entry Sample.asAdmin))
    as (es' & E & _ & _ & Hdel).
  rewrite E. f_equal. apply Hdel.
  - repeat constructor. apply not_elem_of_nil.
  - reflexivity.
Defined.

Lemma with_shippingEntries_same (collection : Collection.t) :
  Collection.with_shippingEntries collection
    (Collection.shippingEntries collection) = collection.
Proof. destruct collection; reflexivity. Qed.

Lemma with_shippingEntries_twice (collection : Collection.t)
      (es1 es2 : list ShippingEntry.t) :
  Collection.with_shippingEntries
    (Collection.with_shippingEntries collection es1) es2
  = Collection.with_shippingEntries collection es2.
Proof. reflexivity. Qed.

(** X6.  Duplicating a row and deleting the copy gives back the
    collection as it was, when the generated id is the id of no row.
    (When it is the id of a row, that row goes with the copy.) *)
Theorem duplicate_then_delete (collection : Collection.t)
        (entry : ShippingEntry.t) (random36 : jsstring) (a : App.t)
        (updated : Collection.t) :
  Utils.generateId random36 ∉ ids (Collection.shippingEntries collection) ->
  App.activeCollection (AdminDashboard.onDuplicate collection entry random36 a)
  = Some updated ->
  App.activeCollection
    (onDeleteEntry updated (AdminDashboard.duplicate_copy entry random36) true
       (AdminDashboard.onDuplicate collection entry random36 a))
  = Some collection.
Proof.
  intros Hfresh Hact.
  assert (E : updated = Collection.with_shippingEntries collection
                          (Collection.shippingEntries collection
                             ++ [AdminDashboard.duplicate_copy entry random36])).
  { destruct a; simpl in Hact. congruence. }
  subst updated. unfold onDeleteEntry.
  rewrite with_shippingEntries_twice.
  replace (Collection.shippingEntries
             (Collection.with_shippingEntries collection
                (Collection.shippingEntries collection
                   ++ [AdminDashboard.duplicate_copy entry random36])))
    with (Collection.shippingEntries collection
            ++ [AdminDashboard.duplicate_copy entry random36])
    by reflexivity.
  rewrite filter_app.
  rewrite (filter_absent (AdminDashboard.duplicate_copy entry random36))
    by exact Hfresh.
  rewrite filter_cons_False, filter_nil, app_nil_r
    by (intros H; apply eqb_false in H; apply H; reflexivity).
  rewrite with_shippingEntries_same.
  destruct a; reflexivity.
Qed.

Lemma duplicate_then_delete_witness :
  App.activeCollection
    (onDeleteEntry
       (Collection.with_shippingEntries Sample.collection
          [Sample.entry; AdminDashboard.duplicate_copy Sample.entry (js "0.zz9")])
       (AdminDashboard.duplicate_copy Sample.entry (js "0.zz9")) true
       (AdminDashboard.onDuplicate Sample.collection Sample.entry (js "0.zz9")
          Sample.asAdmin))
  = Some Sample.collection.
Proof.
  apply (duplicate_then_delete Sample.collection Sample.entry (js "0.zz9")
           Sample.asAdmin).
  - vm_compute. intros H. apply list_elem_of_In in H.
    destruct H as [H | []]. discriminate H.
  - reflexivity.
Defined.

(** X7.  Duplicating a row adds one to the total of the report and
    nothing to its count of original requests. *)
Theorem duplicate_in_report (collection : Collection.t)
        (entry : ShippingEntry.t) (random36 : jsstring) (a : App.t) :
  exists updated,
    App.activeCollection (AdminDashboard.onDuplicate collection entry random36 a)
    = Some updated
    /\ totalPackets updated = S (totalPackets collection)
    /\ originalRequests updated = originalRequests collection
    /\ (originalRequests collection <= totalPackets collection)%nat.
Proof.
  exists (Collection.with_shippingEntries collection
            (Collection.shippingEntries collection
               ++ [AdminDashboard.duplicate_copy entry random36])).
  split; [destruct a; reflexivity|].
  unfold totalPackets, originalRequests.
  change (Collection.shippingEntries
            (Collection.with_shippingEntries collection
               (Collection.shippingEntries collection
                  ++ [AdminDashboard.duplicate_copy entry random36])))
    with (Collection.shippingEntries collection
            ++ [AdminDashboard.duplicate_copy entry random36]).
  split; [rewrite length_app; simpl; lia|]. split.
  - rewrite filter_app, filter_cons_False, filter_nil, app_nil_r; [reflexivity|].
    intros H. apply eqb_false in H. apply H. reflexivity.
  - apply length_filter.
Qed.

End Table.

(** ** Selecting rows and exporting them *)

Section Exporting.

Import ShippingTable.

Local Abbreviation ids := (map ShippingEntry.id).

(** X8.  Ticking a row twice gives back the selection; one tick flips
    the row and leaves every other row as it was. *)
Theorem toggleEntrySelection_flips (id : jsstring) (selected : gset jsstring) :
  toggleEntrySelection id (toggleEntrySelection id selected) = selected
  /\ (id ∈ toggleEntrySelection id selected <-> id ∉ selected)
  /\ (forall other, other <> id ->
        (other ∈ toggleEntrySelection id selected <-> other ∈ selected)).
Proof.
  unfold toggleEntrySelection.
  destruct (decide (id ∈ selected)) as [Hin|Hout].
  - rewrite (bool_decide_eq_true_2 _ Hin).
    rewrite bool_decide_eq_false_2 by set_solver.
    split; [|split].
    + apply set_eq. intros x. destruct (decide (x = id)); set_solver.
    + set_solver.
    + intros other Hne. set_solver.
  - rewrite (bool_decide_eq_false_2 _ Hout).
    rewrite bool_decide_eq_true_2 by set_solver.
    split; [|split].
    + set_solver.
    + set_solver.
    + intros other Hne. set_solver.
Qed.

Lemma size_list_to_set_le (l : list jsstring) :
  (size (list_to_set l : gset jsstring) <= List.length l)%nat.
Proof.
  induction l as [|x l IH]; [rewrite list_to_set_nil, size_empty; simpl; lia|].
  rewrite list_to_set_cons, size_union_alt, size_singleton. simpl.
  pose proof (subseteq_size (list_to_set l ∖ {[x]} : gset jsstring)
                            (list_to_set l)) as H.
  specialize (H ltac:(set_solver)). lia.
Qed.

Lemma size_list_to_set_NoDup (l : list jsstring) :
  size (list_to_set l : gset jsstring) = List.length l -> NoDup l.
Proof.
  induction l as [|x l IH]; intros Hs; [constructor|].
  rewrite list_to_set_cons, size_union_alt, size_singleton in Hs. simpl in Hs.
  pose proof (size_list_to_set_le l) as Hle.
  destruct (decide (x ∈ l)) as [Hin|Hout].
  - exfalso.
    assert (Hsub : ({[x]} : gset jsstring) ⊆ list_to_set l) by set_solver.
    pose proof (size_difference (list_to_set l : gset jsstring) {[x]} Hsub) as Hd.
    rewrite size_singleton in Hd.
    assert (size (list_to_set l : gset jsstring) <> 0)%nat.
    { apply size_non_empty_iff. intros He.
      assert (Hx : x ∈ (list_to_set l : gset jsstring))
        by (apply elem_of_list_to_set; exact Hin).
      rewrite He in Hx. apply not_elem_of_empty in Hx. exact Hx. }
    lia.
  - constructor; [exact Hout|]. apply IH.
    assert (Hd : (list_to_set l ∖ {[x]} : gset jsstring) = list_to_set l)
      by set_solver.
    rewrite Hd in Hs. lia.
Qed.

(** X9.  The header button selects the ids of the rows and nothing else,
    unless the selection has as many ids as the table has rows, which
    clears it.  So it undoes a selection of all rows when their ids are
    distinct, and never does when two rows share an id. *)
Theorem toggleAllSelection_spec (collection : Collection.t)
        (selected : gset jsstring) :
  let rows := Collection.shippingEntries collection in
  let all : gset jsstring := list_to_set (ids rows) in
  (forall id, id ∈ toggleAllSelection collection selected -> id ∈ ids rows)
  /\ (size selected <> List.length rows ->
      toggleAllSelection collection selected = all)
  /\ (size selected = List.length rows ->
      toggleAllSelection collection selected = ∅)
  /\ (NoDup (ids rows) -> toggleAllSelection collection all = ∅)
  /\ (~ NoDup (ids rows) -> toggleAllSelection collection all = all).
Proof.
  intros rows all. unfold toggleAllSelection. fold rows. fold all.
  split; [|split; [|split; [|split]]].
  - intros id. case_bool_decide; [set_solver|].
    subst all. rewrite elem_of_list_to_set. tauto.
  - intros Hne. rewrite bool_decide_eq_false_2 by exact Hne. reflexivity.
  - intros Heq. rewrite bool_decide_eq_true_2 by exact Heq. reflexivity.
  - intros Hnd. rewrite bool_decide_eq_true_2; [reflexivity|].
    subst all. rewrite size_list_to_set by exact Hnd. apply length_map.
  - intros Hdup. rewrite bool_decide_eq_false_2; [reflexivity|].
    intros Hs. apply Hdup. apply size_list_to_set_NoDup.
    subst all. rewrite Hs. symmetry. apply length_map.
Qed.

Lemma toggleAllSelection_spec_witness :
  toggleAllSelection Sample.collection
    (list_to_set (ids (Collection.shippingEntries Sample.collection))) = ∅.
Proof.
  apply (proj1 (proj2 (proj2 (proj2
           (toggleAllSelection_spec Sample.collection ∅))))).
  repeat constructor. apply not_elem_of_nil.
Defined.

(** X10.  [handleDownload] exports the selected rows, or all of them
    when none is selected, in the order of the table.  The file, named
    after the collection, reads back as the headers and those rows, a
    surrogate without its partner coming back as U+FFFD and every
    well-formed text as it is (the fields being strings of 16-bit code
    units).  No file is made when that list is empty (a selection of ids
    that no row has), yet the toast still reports the count. *)
Theorem handleDownload_spec (collection : Collection.t)
        (selected : gset jsstring) (a : App.t) :
  let data := dataToDownload collection selected in
  let out := AdminDashboard.handleDownload collection selected a in
  (selected = ∅ -> data = Collection.shippingEntries collection)
  /\ sublist data (Collection.shippingEntries collection)
  /\ (selected <> ∅ -> forall e, e ∈ data <->
        e ∈ Collection.shippingEntries collection
        /\ ShippingEntry.id e ∈ selected)
  /\ (snd out = None <-> data = [])
  /\ (forall d, snd out = Some d ->
        Utils.filename d = Collection.name collection ++ js "_shipping_export.csv"
        /\ (Forall (Forall (Forall codeUnit)) (map RoundTrip.entry_cells data) ->
            CsvReader.read_file (Utils.blob d)
            = Utils.customHeaders
                :: map (fun e => map toWellFormed (RoundTrip.entry_cells e)) data)
        /\ (Forall (Forall (Forall codeUnit)) (map RoundTrip.entry_cells data) ->
            Forall (Forall (fun t => toWellFormed t = t))
                   (map RoundTrip.entry_cells data) ->
            CsvReader.read_file (Utils.blob d)
            = Utils.customHeaders :: map RoundTrip.entry_cells data))
  /\ App.success (fst out)
     = Some (js "Exported " ++ Number_toString (Z.of_nat (List.length data))
               ++ js " items").
Proof.
  intros data out.
  assert (Eout : out = (App.notify (js "Exported "
                          ++ Number_toString (Z.of_nat (List.length data))
                          ++ js " items") Kind.success a,
                        Utils.downloadCSV
                          (Collection.name collection ++ js "_shipping_export.csv")
                          (map Utils.item_of_entry data)))
    by reflexivity.
  split.
  { intros ->. subst data. unfold dataToDownload.
    rewrite bool_decide_eq_false_2; [reflexivity|]. rewrite size_empty. lia. }
  split.
  { subst data. unfold dataToDownload. case_bool_decide;
      [apply sublist_filter | reflexivity]. }
  split.
  { intros Hne e. subst data. unfold dataToDownload.
    rewrite bool_decide_eq_true_2.
    - rewrite list_elem_of_filter. tauto.
    - assert (size selected <> 0)%nat; [|lia].
      apply size_non_empty_iff. intros He. apply Hne.
      apply leibniz_equiv. exact He. }
  split.
  { rewrite Eout. simpl. destruct data; simpl; split; congruence. }
  split.
  { intros d. rewrite Eout. simpl.
    pose proof (read_blob_entries data) as Hread.
    destruct data as [|e data'] eqn:Ed; simpl; [discriminate|].
    intros [= <-]. split; [reflexivity|]. cbn [Utils.blob].
    split; [exact Hread|].
    intros Hunits Hwf.
    change (Utils.item_of_entry e :: map Utils.item_of_entry data')
      with (map Utils.item_of_entry (e :: data')).
    rewrite (Hread Hunits).
    apply (f_equal (cons _)).
    apply (well_formed_rows RoundTrip.entry_cells (e :: data') Hwf). }
  rewrite Eout. destruct a; reflexivity.
Qed.

(** The one row of the sample collection, exported with no row
    selected. *)
Lemma handleDownload_spec_witness :
  exists d,
    snd (AdminDashboard.handleDownload Sample.collection ∅ Sample.asAdmin)
    = Some d
    /\ CsvReader.read_file (Utils.blob d)
       = [ Utils.customHeaders;
           [ js "abc"; js "김민지"; js "010-1234-5678"; []; []; js "Seoul";
             js "Tee"; js "M"; js "2"; js "fast please" ] ].
Proof.
  destruct (handleDownload_spec Sample.collection ∅ Sample.asAdmin)
    as (Hall & _ & _ & _ & Hfile & _).
  specialize (Hall eq_refl).
  eexists. split; [reflexivity|].
  destruct (Hfile _ eq_refl) as (_ & _ & Hread).
  rewrite Hread.
  - rewrite Hall. vm_compute. reflexivity.
  - rewrite Hall.
    change (Forall (Forall (Forall (fun c => c < 65536)))
              (map RoundTrip.entry_cells [Sample.entry])).
    apply (bool_decide_unpack _). vm_compute. exact I.
  - rewrite Hall. apply (bool_decide_unpack _). vm_compute. exact I.
Defined.

(** X11.  Whatever the fields of the items hold, a non-empty list is
    written as a file that reads back as the headers and one record of
    ten columns per item, each column being [String(val || "")] of its
    field made well-formed: a field with commas, quotes or line breaks
    stays one column, null, undefined or false read back blank, a
    surrogate without its partner reads back as U+FFFD, and every
    well-formed text as it is (the texts being strings of 16-bit code
    units). *)
Theorem downloadCSV_any (filename : jsstring) (data : list Utils.item) :
  data <> [] ->
  Forall (Forall (Forall codeUnit)) (map RoundTrip.cells data) ->
  exists d,
    Utils.downloadCSV filename data = Some d
    /\ CsvReader.read_file (Utils.blob d)
       = Utils.customHeaders
           :: map (fun it => map toWellFormed (RoundTrip.cells it)) data
    /\ (Forall (Forall (fun t => toWellFormed t = t)) (map RoundTrip.cells data) ->
        CsvReader.read_file (Utils.blob d)
        = Utils.customHeaders :: map RoundTrip.cells data)
    /\ List.length (CsvReader.read_file (Utils.blob d)) = S (List.length data)
    /\ Forall (fun r => List.length r = 10%nat) (CsvReader.read_file (Utils.blob d)).
Proof.
  intros Hne Hunits. destruct data as [|it data']; [congruence|].
  eexists. split; [reflexivity|].
  cbn [Utils.blob]. rewrite (read_blob (it :: data') Hunits).
  split; [reflexivity|]. split; [|split].
  - intros Hwf. apply (f_equal (cons _)).
    apply (well_formed_rows RoundTrip.cells (it :: data') Hwf).
  - simpl. rewrite length_map. reflexivity.
  - constructor; [reflexivity|].
    apply Forall_map. apply Forall_forall. intros x _. reflexivity.
Qed.

(** An item with a quote, a comma and a line break in one field, falsy
    fields, and a lead surrogate without its partner. *)
Lemma downloadCSV_any_witness :
  exists d,
    Utils.downloadCSV (js "x.csv")
      [Utils.mkItem VNull VUndefined (VBool false) (VStr [34; 44; 10]) (VNum 7)
                    (VBool true) VNaN (VStr [111; 55357; 107])] = Some d
    /\ CsvReader.read_file (Utils.blob d)
       = [ Utils.customHeaders;
           [ []; []; []; []; []; [34; 44; 10]; js "7"; js "true"; js "1";
             [111; 65533; 107] ] ].
Proof.
  destruct (downloadCSV_any (js "x.csv")
              [Utils.mkItem VNull VUndefined (VBool false) (VStr [34; 44; 10])
                            (VNum 7) (VBool true) VNaN
                            (VStr [111; 55357; 107])])
    as (d & E & Hread & _).
  - discriminate.
  - change (Forall (Forall (Forall (fun c => c < 65536)))
              (map RoundTrip.cells
                 [Utils.mkItem VNull VUndefined (VBool false)
                               (VStr [34; 44; 10]) (VNum 7) (VBool true) VNaN
                               (VStr [111; 55357; 107])])).
    apply (bool_decide_unpack _). vm_compute. exact I.
  - exists d. split; [exact E|]. rewrite Hread. vm_compute. reflexivity.
Defined.

End Exporting.

(** ** Removing an item from the cart *)

Section CartRemoval.

Import InfluencerPage.

Lemma filter_index_delete {A : Type} (idx k : nat) (l : list A) :
  filter_index (fun i => negb (Nat.eqb i idx)) k l
  = if decide (k <= idx)%nat then delete (idx - k)%nat l else l.
Proof.
  revert k. induction l as [|x l IH]; intros k; simpl.
  - destruct (decide (k <= idx)%nat); reflexivity.
  - rewrite IH. destruct (Nat.eqb_spec k idx) as [-> | Hne]; simpl.
    + rewrite decide_False by lia. rewrite decide_True by lia.
      rewrite Nat.sub_diag. reflexivity.
    + destruct (decide (k <= idx)%nat) as [Hle|Hgt].
      * rewrite decide_True by lia.
        replace (idx - k)%nat with (S (idx - S k)) by lia. reflexivity.
      * rewrite decide_False by lia. reflexivity.
Qed.

(** X12.  The remove button of a cart row takes out the item at that
    position and no other: the items before and after keep their order.
    A position beyond the cart changes nothing. *)
Theorem removeFromCart_position (idx : nat) (a : App.t) :
  App.cart (removeFromCart idx a) = delete idx (App.cart a)
  /\ App.cart (removeFromCart idx a)
     = take idx (App.cart a) ++ drop (S idx) (App.cart a)
  /\ ((idx < List.length (App.cart a))%nat ->
      S (List.length (App.cart (removeFromCart idx a)))
      = List.length (App.cart a))
  /\ ((List.length (App.cart a) <= idx)%nat -> removeFromCart idx a = a)
  /\ App.state (removeFromCart idx a) = App.state a
  /\ App.activeCollection (removeFromCart idx a) = App.activeCollection a.
Proof.
  assert (E : App.cart (removeFromCart idx a) = delete idx (App.cart a)).
  { unfold removeFromCart. destruct a; simpl.
    rewrite filter_index_delete, decide_True by lia.
    rewrite Nat.sub_0_r. reflexivity. }
  split; [exact E|].
  split; [rewrite E; apply delete_take_drop|].
  split.
  { intros Hlt. rewrite E, length_delete; [lia|].
    apply lookup_lt_is_Some. exact Hlt. }
  split.
  { intros Hge. unfold removeFromCart. destruct a as [st cu ac ai er su ca vi sv mo nn].
    simpl in *. rewrite filter_index_delete, decide_True by lia.
    rewrite Nat.sub_0_r, delete_take_drop.
    rewrite take_ge, drop_ge by lia. rewrite app_nil_r. reflexivity. }
  destruct a; split; reflexivity.
Qed.

Lemma removeFromCart_position_witness :
  S (List.length (App.cart (removeFromCart 0 Sample.asInfluencer)))
  = List.length (App.cart Sample.asInfluencer).
Proof.
  apply (proj1 (proj2 (proj2 (removeFromCart_position 0 Sample.asInfluencer)))).
  vm_compute. lia.
Defined.

End CartRemoval.

(** ** What an influencer session does to the document *)

Section Session.

Import InfluencerPage.

(** An event of the page leaves the [App] component alone but for its
    cart and toast, unless it is a submission that goes through or a
    logout. *)
Lemma step_cases (ev : event) (a : App.t) (p : t) :
  let a' := fst (step ev (a, p)) in
  (App.state a' = App.state a /\ App.activeCollection a' = App.activeCollection a)
  \/ (exists c host,
         App.activeCollection a = Some c
         /\ a' = App.setCart []
                   (App.onSubmission c
                      (imap (fun i item => newEntry (form p) (host i) item)
                            (App.cart a)) a))
  \/ a' = App.handleLogout a.
Proof.
  unfold step. destruct (App.activeCollection a) as [c|] eqn:Hc; [|left; auto].
  destruct (rendered ev a p); [|left; simpl; auto].
  destruct ev as [v|i|i| |idx|f|host| ]; simpl.
  - left. auto.
  - left. destruct (Collection.products c !! i); simpl; auto.
  - left. destruct (selectedProduct p) as [sp|];
      [destruct (Product.options sp !! i)|]; simpl; auto.
  - left. unfold addToCart.
    destruct (selectedProduct p); [|simpl; auto].
    destruct (selectedSize p); [simpl; auto|].
    destruct (_ <=? _)%Z; [simpl; auto|].
    destruct a; simpl in *. auto.
  - left. destruct a; simpl in *. auto.
  - left. auto.
  - unfold handleSubmit.
    destruct (_ || _); [left; simpl; auto|].
    right. left. exists c, host. simpl. auto.
  - right. right. reflexivity.
Qed.

Lemma imap_newEntry_fresh (f : formData) (host : nat -> draw)
      (cart : list CartItem.t) :
  Forall Session.fresh
         (imap (fun i item => newEntry f (host i) item) cart).
Proof.
  revert host. induction cart as [|item cart IH]; intros host; [constructor|].
  simpl. constructor; [repeat split|].
  apply (IH (fun i => host (S i))).
Qed.

Lemma submission_state (c : Collection.t) (es : list ShippingEntry.t)
      (a : App.t) :
  let updated := Collection.with_shippingEntries c
                   (Collection.shippingEntries c ++ es) in
  let a' := App.setCart [] (App.onSubmission c es a) in
  AppState.collections (App.state a')
  = map (fun x => if Js.eqb (Collection.id x) (Collection.id updated)
                  then updated else x)
        (AppState.collections (App.state a))
  /\ AppState.adminAccessCode (App.state a')
     = AppState.adminAccessCode (App.state a)
  /\ App.activeCollection a' = Some updated.
Proof. destruct a; repeat split. Qed.

Lemma step_invariant (c0 : Collection.t) (st0 : AppState.t) (ev : event)
      (s : App.t * t) :
  Session.invariant c0 st0 (fst s) -> Session.invariant c0 st0 (fst (step ev s)).
Proof.
  destruct s as [a p]. intros (Hadm & Hids & Hoth & Hact).
  destruct (step_cases ev a p) as [[Hst Hac] | [(c & host & Hc & E) | E]];
    cbv zeta in *.
  - unfold Session.invariant. rewrite Hst, Hac. auto.
  - rewrite E. destruct (Hact c Hc) as (added & Hc' & Hgood).
    set (es := imap (fun i item => newEntry (form p) (host i) item) (App.cart a)).
    destruct (submission_state c es a) as (Hcs & Hadm' & Hact').
    set (updated := Collection.with_shippingEntries c
                      (Collection.shippingEntries c ++ es)) in *.
    assert (Hid : Collection.id updated = Collection.id c0)
      by (subst updated; rewrite Hc'; reflexivity).
    unfold Session.invariant. rewrite Hcs, Hadm', Hact'.
    split; [exact Hadm|]. split; [rewrite replace_ids; exact Hids|]. split.
    + intros i x Hi Hne. specialize (Hoth i x Hi Hne).
      rewrite (replace_lookup _ _ i x Hoth).
      replace (Js.eqb (Collection.id x) (Collection.id updated)) with false;
        [reflexivity|].
      symmetry. apply eqb_false. rewrite Hid. exact Hne.
    + intros c'' [= <-]. exists (added ++ es). split.
      * subst updated. rewrite Hc'.
        rewrite with_shippingEntries_twice, app_assoc. reflexivity.
      * apply Forall_app. split; [exact Hgood | apply imap_newEntry_fresh].
  - rewrite E. destruct a as [st cu ac ai er su ca vi sv mo nn]; simpl in *.
    repeat split; try assumption. discriminate.
Qed.

Lemma run_invariant (c0 : Collection.t) (st0 : AppState.t)
      (evs : list event) (s : App.t * t) :
  Session.invariant c0 st0 (fst s) -> Session.invariant c0 st0 (fst (run evs s)).
Proof.
  revert s. unfold run. induction evs as [|ev evs IH]; intros s Hs; [exact Hs|].
  simpl. apply IH. apply step_invariant. exact Hs.
Qed.

Lemma invariant_start (c0 : Collection.t) (a : App.t) :
  App.activeCollection a = Some c0 -> Session.invariant c0 (App.state a) a.
Proof.
  intros Hc. repeat split; auto.
  intros c' Hc'. exists []. rewrite app_nil_r, with_shippingEntries_same.
  split; [congruence | constructor].
Qed.

(** X13.  Whatever an influencer does in a session, the admin code, the
    number, order and ids of the collections, and every collection with
    another id than the session's stay as they were. *)
Theorem session_keeps_document (collection : Collection.t)
        (evs : list event) (a : App.t) (p : t) :
  App.activeCollection a = Some collection ->
  let a' := fst (run evs (a, p)) in
  AppState.adminAccessCode (App.state a') = AppState.adminAccessCode (App.state a)
  /\ map Collection.id (AppState.collections (App.state a'))
     = map Collection.id (AppState.collections (App.state a))
  /\ (forall i c, AppState.collections (App.state a) !! i = Some c ->
                  Collection.id c <> Collection.id collection ->
                  AppState.collections (App.state a') !! i = Some c).
Proof.
  intros Hc a'.
  destruct (run_invariant collection (App.state a) evs (a, p)
              (invariant_start collection a Hc)) as (H1 & H2 & H3 & _).
  auto.
Qed.

Lemma session_keeps_document_witness :
  AppState.adminAccessCode
    (App.state (fst (run (Sample.shopping ++ [Navigate PageView.cart;
                                             SetFormData Sample.filled;
                                             Submit Sample.host])
                         (Sample.asInfluencer, initial))))
  = AppState.adminAccessCode (App.state Sample.asInfluencer).
Proof.
  apply (session_keeps_document Sample.collection _ Sample.asInfluencer initial).
  reflexivity.
Defined.

(** X14.  In a session the collection of the influencer only gains
    shipping entries: while the session lasts, the active collection is
    the one it started with, with its entries followed by new ones, each
    PREPARING, of quantity 1 and with an empty memo.  No entry, product,
    code or limit of it is changed or removed. *)
Theorem session_only_appends (collection : Collection.t)
        (evs : list event) (a : App.t) (p : t) (c' : Collection.t) :
  App.activeCollection a = Some collection ->
  App.activeCollection (fst (run evs (a, p))) = Some c' ->
  exists added,
    c' = Collection.with_shippingEntries collection
           (Collection.shippingEntries collection ++ added)
    /\ Forall (fun e => ShippingEntry.status e = PREPARING
                        /\ ShippingEntry.quantity e = 1%Z
                        /\ ShippingEntry.adminMemo e = []) added.
Proof.
  intros Hc Hc'. change (exists added,
    c' = Collection.with_shippingEntries collection
           (Collection.shippingEntries collection ++ added)
    /\ Forall Session.fresh added).
  destruct (run_invariant collection (App.state a) evs (a, p)
              (invariant_start collection a Hc)) as (_ & _ & _ & H).
  apply H. exact Hc'.
Qed.

Lemma session_only_appends_witness :
  exists c' added,
    App.activeCollection
      (fst (run (Sample.shopping ++ [Navigate PageView.cart;
                                     SetFormData Sample.filled;
                                     Submit Sample.host])
                (Sample.asInfluencer, initial))) = Some c'
    /\ c' = Collection.with_shippingEntries Sample.collection
              (Collection.shippingEntries Sample.collection ++ added).
Proof.
  eexists.
  destruct (session_only_appends Sample.collection
              (Sample.shopping ++ [Navigate PageView.cart;
                                   SetFormData Sample.filled;
                                   Submit Sample.host])
              Sample.asInfluencer initial
              (Collection.with_shippingEntries Sample.collection
                 (Collection.shippingEntries Sample.collection
                    ++ imap (fun i item => newEntry Sample.filled (Sample.host i) item)
                            [Sample.item;
                             CartItem.mk (js "p1") (js "Tee") (js "S") placeholder])))
    as (added & E & _).
  - reflexivity.
  - vm_compute. reflexivity.
  - exists added. split; [vm_compute; reflexivity | exact E].
Defined.

End Session.

(** ** What a login can open *)

Section LoginSound.

Variable toLowerCase : jsstring -> jsstring.

(** X15.  From the login view, with nobody logged in, [handleLogin]
    never touches the document or the cart.  It opens the admin session
    only when the trimmed lower-cased input is the lower-cased admin
    code, and an influencer session only on a collection of the document
    whose lower-cased access code is that input and is not the admin
    code: a collection that shares its code with the admin can never be
    entered. *)
Theorem handleLogin_sound (a : App.t) :
  App.currentUser a = None ->
  App.activeCollection a = None ->
  let code := toLowerCase (trim (App.accessCodeInput a)) in
  let adminCode := toLowerCase (AppState.adminAccessCode (App.state a)) in
  let a' := App.handleLogin toLowerCase a in
  App.state a' = App.state a
  /\ App.cart a' = App.cart a
  /\ (App.currentUser a' = Some User.admin ->
      code = adminCode /\ App.activeCollection a' = None
      /\ App.view a' = View.select_collection)
  /\ (App.currentUser a' = Some User.influencer ->
      code <> adminCode /\ App.view a' = View.influencer
      /\ exists c, App.activeCollection a' = Some c
                   /\ In c (AppState.collections (App.state a))
                   /\ toLowerCase (Collection.accessCode c) = code)
  /\ (App.currentUser a' = None ->
      App.view a' = App.view a
      /\ App.error a' = Some (js "Invalid Access Code"))
  /\ (forall c, App.activeCollection a' = Some c ->
                toLowerCase (Collection.accessCode c) <> adminCode).
Proof.
  intros Hcu Hac code adminCode a'. subst a'. unfold App.handleLogin.
  fold code. fold adminCode.
  destruct (Js.eqb code adminCode) eqn:Eadm.
  - apply eqb_true in Eadm.
    destruct a as [st cu ac ai er su ca vi sv mo nn]; simpl in *. subst.
    repeat split; try discriminate; auto.
  - apply eqb_false in Eadm.
    destruct (find _ _) as [c|] eqn:Ef.
    + apply find_some in Ef as [Hin Hm]. apply eqb_true in Hm.
      destruct a as [st cu ac ai er su ca vi sv mo nn]; simpl in *. subst.
      repeat split; try discriminate; auto.
      * exists c. auto.
      * intros c' [= <-]. rewrite Hm. exact Eadm.
    + destruct a as [st cu ac ai er su ca vi sv mo nn]; simpl in *. subst.
      repeat split; try discriminate; auto.
Qed.

End LoginSound.

Lemma handleLogin_sound_witness :
  App.state (App.handleLogin asciiLower (Sample.atLogin (js "spring") []))
  = App.state (Sample.atLogin (js "spring") []).
Proof.
  apply (handleLogin_sound asciiLower (Sample.atLogin (js "spring") []));
    reflexivity.
Defined.

(** ** The storage threshold in bytes *)

Section Threshold.

Lemma nearly_full_total (localStorage : Utils.Storage) :
  App.storage_nearly_full localStorage = true
  <-> (4975494 <= Utils.usage_total localStorage)%Z.
Proof.
  assert (H : App.storage_nearly_full localStorage = true
              <-> (475 <= hundredths_of_MB (Utils.usage_total localStorage))%Z).
  { rewrite storage_nearly_full_iff. unfold Qle. simpl. lia. }
  rewrite H. unfold hundredths_of_MB.
  pose proof (usage_total_nonneg localStorage).
  split; intros; zify; Z.to_euclidean_division_equations; lia.
Qed.

(** X16.  [createCollection] refuses for lack of storage exactly when
    the stored keys that are own properties of the storage, and their
    values, cost 4,975,494 bytes or more by the count of
    [getStorageUsage] (two bytes per UTF-16 unit): that is where the
    two-decimal text of the estimate reaches 4.75.  It then sets the
    error toast and leaves the document alone, whatever name was typed.
    A stored key of an inherited name, such as [length] or [key], does
    not count, however long its value. *)
Theorem storage_nearly_full_bytes (localStorage : Utils.Storage) :
  (App.storage_nearly_full localStorage = true
   <-> (4975494 <= Utils.usage_total localStorage)%Z)
  /\ ((4975494 <= Utils.usage_total localStorage)%Z ->
      forall r1 r2 a,
        App.state (App.createCollection localStorage r1 r2 a) = App.state a)
  /\ ((Utils.usage_total localStorage < 4975494)%Z ->
      forall r1 r2 a,
        trim (App.newCollectionName a) <> [] ->
        List.length (AppState.collections
                       (App.state (App.createCollection localStorage r1 r2 a)))
        = S (List.length (AppState.collections (App.state a))))
  /\ (forall k v,
        k ∈ Utils.inherited ->
        Utils.usage_total (<[k:=v]> localStorage)
        = Utils.usage_total (delete k localStorage)
        /\ App.storage_nearly_full (<[k:=v]> localStorage)
           = App.storage_nearly_full (delete k localStorage))
  /\ (forall k v,
        k ∉ Utils.inherited ->
        Utils.usage_total (<[k:=v]> localStorage)
        = (Utils.usage_total (delete k localStorage)
           + 2 * (Js.length k + Js.length v))%Z).
Proof.
  split; [apply nearly_full_total|]. split; [|split; [|split]].
  - intros Hfull r1 r2 a. apply nearly_full_total in Hfull.
    unfold App.createCollection. rewrite Hfull.
    destruct (trim (App.newCollectionName a)); destruct a; reflexivity.
  - intros Hfree r1 r2 a Hname. unfold App.createCollection.
    destruct (trim (App.newCollectionName a)); [congruence|].
    replace (App.storage_nearly_full localStorage) with false.
    + destruct a; simpl. rewrite length_app. simpl. lia.
    + symmetry. apply not_true_is_false. rewrite nearly_full_total. lia.
  - intros k v Hk.
    pose proof (usage_total_inherited k v localStorage Hk) as E.
    split; [exact E|].
    unfold App.storage_nearly_full, Utils.getStorageUsage. rewrite E.
    reflexivity.
  - intros k v Hk. rewrite <- (insert_delete_eq localStorage k v).
    rewrite usage_total_insert; [|apply lookup_delete_eq | exact Hk].
    reflexivity.
Qed.

(** With room in the storage a collection is created; a value stored
    under the key [key] costs nothing. *)
Lemma storage_nearly_full_bytes_witness :
  List.length (AppState.collections
                 (App.state (App.createCollection ∅ (js "0.abcdefghi1")
                               (js "0.zyxwvuts2")
                               (Sample.atLogin [] (js "SS25")))))
  = S (List.length (AppState.collections
                      (App.state (Sample.atLogin [] (js "SS25")))))
  /\ Utils.usage_total (<[ js "key" := js "a long value" ]> ∅) = 0%Z.
Proof.
  split.
  - apply (proj1 (proj2 (proj2 (storage_nearly_full_bytes ∅)))).
    + vm_compute. reflexivity.
    + vm_compute. discriminate.
  - rewrite (proj1 (proj1 (proj2 (proj2 (proj2 (storage_nearly_full_bytes ∅))))
                      (js "key") (js "a long value")
                      ltac:(apply (bool_decide_eq_true_1
                                     (js "key" ∈ Utils.inherited));
                            vm_compute; reflexivity))).
    rewrite delete_empty. reflexivity.
Defined.

End Threshold.

(** ** The slides of the lookbook *)

Section Slides.

Import Lookbook.

(** X17.  The two slide buttons keep the slide index even, not negative
    and below the number of images, and each undoes the other: the next
    slide of the previous slide, and the previous slide of the next one,
    is the slide itself, the last pair wrapping to the first. *)
Theorem slides_cycle (collection : Collection.t) (slide : Z) :
  reachable collection slide ->
  reachable collection (nextSlide collection slide)
  /\ reachable collection (prevSlide collection slide)
  /\ prevSlide collection (nextSlide collection slide) = slide
  /\ nextSlide collection (prevSlide collection slide) = slide.
Proof.
  unfold reachable, nextSlide, prevSlide.
  set (len := Z.of_nat (List.length (Collection.lookbookImages collection))).
  assert (Hlen : (0 <= len)%Z) by (subst len; lia).
  clearbody len. intros (H0 & Heven & Hlt).
  destruct (Z.eqb_spec len 0) as [-> | Hnz].
  { repeat split; try assumption. }
  repeat match goal with
         | |- context [(?x <=? ?y)%Z] => destruct (Z.leb_spec x y)
         | |- context [(?x <? ?y)%Z] => destruct (Z.ltb_spec x y)
         | |- context [(?x =? ?y)%Z] => destruct (Z.eqb_spec x y)
         end;
    repeat split; zify; Z.to_euclidean_division_equations; lia.
Qed.

(** Five images: from the last pair, the next slide wraps to the first
    and the previous one comes back. *)
Lemma slides_cycle_witness :
  reachable Sample.lookbook 4
  /\ nextSlide Sample.lookbook 4 = 0%Z
  /\ prevSlide Sample.lookbook 0 = 4%Z
  /\ prevSlide Sample.lookbook (nextSlide Sample.lookbook 4) = 4%Z.
Proof.
  assert (H : reachable Sample.lookbook 4).
  { vm_compute. repeat split; try discriminate. left. reflexivity. }
  split; [exact H|]. split; [reflexivity|]. split; [reflexivity|].
  apply (slides_cycle Sample.lookbook 4 H).
Defined.

End Slides.

(** ** The size options of a product *)

Section Options.

Import Catalog.

Lemma split_plain (c : N) (p : jsstring) :
  Forall (fun x => x <> c) p -> split c p = [p].
Proof.
  induction 1 as [|x p Hx _ IH]; [reflexivity|].
  simpl. apply N.eqb_neq in Hx. rewrite Hx, IH. reflexivity.
Qed.

Lemma split_app (c : N) (p r : jsstring) :
  Forall (fun x => x <> c) p -> split c (p ++ c :: r) = p :: split c r.
Proof.
  induction 1 as [|x p Hx _ IH]; simpl.
  - rewrite N.eqb_refl. reflexivity.
  - apply N.eqb_neq in Hx. rewrite Hx, IH. reflexivity.
Qed.

Lemma split_join (c : N) (parts : list jsstring) :
  parts <> [] ->
  Forall (Forall (fun x => x <> c)) parts ->
  split c (join [c] parts) = parts.
Proof.
  intros Hne Hall. revert Hne.
  induction Hall as [|p parts Hp Hall IH]; intros Hne;
    [exfalso; apply Hne; reflexivity|].
  destruct parts as [|q parts].
  - simpl. apply split_plain. exact Hp.
  - change (join [c] (p :: q :: parts)) with (p ++ c :: join [c] (q :: parts)).
    rewrite split_app by exact Hp. f_equal. apply IH. discriminate.
Qed.

(** X18.  The size input shows the options joined by commas and stores
    what it reads split at the commas and trimmed.  Retyping what it
    shows stores the same options when there is at least one and none
    has a comma or blanks around it; for a product without options it
    stores one empty option. *)
Theorem options_round_trip (prod : Product.t) :
  (Product.options prod <> [] ->
   Forall (fun o => Forall (fun x => x <> 44) o /\ trim o = o)
          (Product.options prod) ->
   parseOptions (optionsText prod) = Product.options prod)
  /\ (Product.options prod = [] -> parseOptions (optionsText prod) = [[]]).
Proof.
  unfold parseOptions, optionsText. split.
  - intros Hne Hall. rewrite split_join.
    + induction Hall as [|o os [_ Ho] _ IH]; [reflexivity|].
      simpl. rewrite Ho. f_equal.
      destruct os; [reflexivity|]. apply IH. discriminate.
    + exact Hne.
    + eapply Forall_impl; [exact Hall|]. intros o [Ho _]. exact Ho.
  - intros ->. reflexivity.
Qed.

Lemma options_round_trip_witness :
  parseOptions (optionsText Sample.tee) = Product.options Sample.tee.
Proof.
  apply (proj1 (options_round_trip Sample.tee)).
  - discriminate.
  - repeat constructor; vm_compute; discriminate.
Defined.

End Options.


(** ** Saving and loading the document *)

Section Persistence.

Import Persist.

Ltac lia_div := zify; Z.to_euclidean_division_equations; lia.

Ltac decide_units :=
  repeat match goal with
         | |- context [(?x =? ?y)] => destruct (N.eqb_spec x y); [lia|]
         | |- context [(?x <? ?y)] => destruct (N.ltb_spec x y); [lia|]
         end.

(** A nested induction principle for values. *)
Lemma json_nested_ind (P : json -> Prop) :
  P JNull ->
  (forall b, P (JBool b)) ->
  (forall lexeme, P (JNumber lexeme)) ->
  (forall s, P (JString s)) ->
  (forall items, Forall P items -> P (JArray items)) ->
  (forall members, Forall (fun kv => P (snd kv)) members -> P (JObject members)) ->
  forall v, P v.
Proof.
  intros Hnull Hbool Hnum Hstr Harr Hobj.
  fix IH 1. intros [ |b|lexeme|s|items|members].
  - exact Hnull.
  - apply Hbool.
  - apply Hnum.
  - apply Hstr.
  - apply Harr. induction items as [|x items IHitems]; constructor.
    + apply IH.
    + exact IHitems.
  - apply Hobj. induction members as [|[k x] members IHmembers]; constructor.
    + apply IH.
    + exact IHmembers.
Qed.

Lemma fmap_app_nil (o : option (list token)) : app [] <$> o = o.
Proof. destruct o; reflexivity. Qed.

Lemma fmap_app_app (ts us : list token) (o : option (list token)) :
  app ts <$> (app us <$> o) = app (ts ++ us) <$> o.
Proof. destruct o; simpl; [rewrite app_assoc|]; reflexivity. Qed.

Lemma lex_emit (st st' : lexstate) (c : N) (ts : list token) (r : jsstring) :
  lex_step st c = Some (st', ts) -> lex (c :: r) st = app ts <$> lex r st'.
Proof. intros H. simpl. rewrite H. destruct (lex r st'); reflexivity. Qed.

Lemma lex_silent (st st' : lexstate) (c : N) (r : jsstring) :
  lex_step st c = Some (st', []) -> lex (c :: r) st = lex r st'.
Proof. intros H. rewrite (lex_emit _ _ _ _ _ H). apply fmap_app_nil. Qed.

(** *** Strings *)

Lemma digitVal_hexDigit (d : N) : d < 16 -> digitVal 16 (hexDigit d) = Some d.
Proof.
  intros H.
  assert (E : d = 0 \/ d = 1 \/ d = 2 \/ d = 3 \/ d = 4 \/ d = 5 \/ d = 6
              \/ d = 7 \/ d = 8 \/ d = 9 \/ d = 10 \/ d = 11 \/ d = 12
              \/ d = 13 \/ d = 14 \/ d = 15) by lia.
  repeat (destruct E as [-> | E]; [reflexivity|]). subst d. reflexivity.
Qed.

Lemma lex_hex (acc : jsstring) (k : nat) (v d : N) (r : jsstring) :
  d < 16 ->
  lex (hexDigit d :: r) (LHex acc k v)
  = lex r (match k with
           | O => LStr ((16 * v + d) :: acc)
           | S k' => LHex acc k' (16 * v + d)
           end).
Proof.
  intros Hd. apply lex_silent. simpl. rewrite (digitVal_hexDigit d Hd).
  destruct k; reflexivity.
Qed.

Lemma lex_unicodeEscape (c : N) (acc r : jsstring) :
  c < 65536 ->
  lex (unicodeEscape c ++ r) (LStr acc) = lex r (LStr (c :: acc)).
Proof.
  intros Hc. unfold unicodeEscape. simpl app.
  rewrite (lex_silent (LStr acc) (LEsc acc) 92) by reflexivity.
  rewrite (lex_silent (LEsc acc) (LHex acc 3 0) 117) by reflexivity.
  rewrite !lex_hex by lia_div.
  do 2 f_equal. f_equal. lia_div.
Qed.

Lemma lex_literal (c : N) (acc r : jsstring) :
  32 <= c -> c <> 34 -> c <> 92 ->
  lex (c :: r) (LStr acc) = lex r (LStr (c :: acc)).
Proof.
  intros H32 H34 H92. apply lex_silent. simpl. decide_units.
  destruct (N.ltb_spec c 32); [lia | reflexivity].
Qed.

Lemma lex_escapeUnit (c : N) (acc r : jsstring) :
  lex (escapeUnit c ++ r) (LStr acc) = lex r (LStr (c :: acc)).
Proof.
  unfold escapeUnit.
  repeat match goal with
         | |- context [if ?x =? ?y then _ else _] =>
           destruct (N.eqb_spec x y) as [-> |];
           [simpl app;
            rewrite (lex_silent (LStr acc) (LEsc acc) 92) by reflexivity;
            apply lex_silent; reflexivity|]
         end.
  destruct (N.ltb_spec c 32).
  - apply lex_unicodeEscape. lia.
  - apply lex_literal; lia.
Qed.

Lemma surrogate_range (c : N) :
  isHigh c = true \/ isLow c = true -> 55296 <= c < 57344.
Proof.
  unfold isHigh, isLow. rewrite !andb_true_iff, !N.leb_le. lia.
Qed.

Lemma quoteBody_pair (c d : N) (r : jsstring) :
  isHigh c = true -> isLow d = true ->
  quoteBody (c :: d :: r) = c :: d :: quoteBody r.
Proof. intros Hc Hd. simpl. rewrite Hc, Hd. reflexivity. Qed.

Lemma quoteBody_high (c : N) (r : jsstring) :
  isHigh c = true ->
  match r with d :: _ => isLow d = false | [] => True end ->
  quoteBody (c :: r) = unicodeEscape c ++ quoteBody r.
Proof.
  intros Hc Hr. simpl. rewrite Hc. destruct r as [|d r].
  - reflexivity.
  - rewrite Hr. reflexivity.
Qed.

Lemma quoteBody_low (c : N) (r : jsstring) :
  isHigh c = false -> isLow c = true ->
  quoteBody (c :: r) = unicodeEscape c ++ quoteBody r.
Proof. intros Hc Hl. simpl. rewrite Hc, Hl. reflexivity. Qed.

Lemma quoteBody_other (c : N) (r : jsstring) :
  isHigh c = false -> isLow c = false ->
  quoteBody (c :: r) = escapeUnit c ++ quoteBody r.
Proof. intros Hc Hl. simpl. rewrite Hc, Hl. reflexivity. Qed.

Lemma lex_quoteBody_bounded (n : nat) (s acc r : jsstring) :
  (List.length s <= n)%nat ->
  lex (quoteBody s ++ r) (LStr acc) = lex r (LStr (rev s ++ acc)).
Proof.
  revert s acc. induction n as [|n IH]; intros s acc Hlen.
  - destruct s; [reflexivity | simpl in Hlen; lia].
  - destruct s as [|c s]; [reflexivity|]. simpl in Hlen.
    assert (Hrev : forall t, rev (c :: t) ++ acc = rev t ++ c :: acc)
      by (intros t; simpl; rewrite <- app_assoc; reflexivity).
    destruct (isHigh c) eqn:Ehi.
    + pose proof (surrogate_range c (or_introl Ehi)) as Hr.
      destruct s as [|d s'].
      * rewrite quoteBody_high by (exact Ehi || exact I).
        rewrite <- app_assoc, lex_unicodeEscape by lia. reflexivity.
      * destruct (isLow d) eqn:Elo.
        -- pose proof (surrogate_range d (or_intror Elo)) as Hd.
           simpl in Hlen. rewrite quoteBody_pair by assumption.
           rewrite <- !app_comm_cons.
           rewrite lex_literal by lia. rewrite lex_literal by lia.
           rewrite IH by lia.
           simpl. rewrite <- !app_assoc. reflexivity.
        -- rewrite quoteBody_high by assumption.
           rewrite <- app_assoc, lex_unicodeEscape by lia.
           rewrite IH by lia. rewrite Hrev. reflexivity.
    + destruct (isLow c) eqn:Elo.
      * pose proof (surrogate_range c (or_intror Elo)) as Hr.
        rewrite quoteBody_low by assumption.
        rewrite <- app_assoc, lex_unicodeEscape by lia.
        rewrite IH by lia. rewrite Hrev. reflexivity.
      * rewrite quoteBody_other by assumption.
        rewrite <- app_assoc, lex_escapeUnit.
        rewrite IH by lia. rewrite Hrev. reflexivity.
Qed.

Lemma lex_quote (s k : jsstring) :
  lex (quoteJSONString s ++ k) LStart = cons (TString s) <$> lex k LStart.
Proof.
  unfold quoteJSONString. rewrite <- app_comm_cons.
  rewrite (lex_silent LStart (LStr []) 34) by reflexivity.
  rewrite <- app_assoc, (lex_quoteBody_bounded (List.length s)) by lia.
  simpl app. rewrite (lex_emit (LStr (rev s ++ [])) LStart 34 [TString s]).
  - destruct (lex k LStart); reflexivity.
  - simpl. rewrite app_nil_r, rev_involutive. reflexivity.
Qed.

(** *** Numbers *)

Lemma digits_fuel_head (fuel : nat) (n : N) :
  1 <= n -> n < 2 ^ N.of_nat fuel ->
  exists d ds, digits_fuel (S fuel) n [] = d :: ds /\ 49 <= d <= 57.
Proof.
  revert n. induction fuel as [|f IH]; intros n H1 Hn.
  - simpl in Hn. lia.
  - rewrite Nat2N.inj_succ, N.pow_succ_r' in Hn.
    change (digits_fuel (S (S f)) n [])
      with (if n <? 10 then [48 + n]
            else digits_fuel (S f) (n / 10) [48 + n mod 10]).
    destruct (N.ltb_spec n 10) as [Hlt|Hge].
    + exists (48 + n), []. split; [reflexivity | lia].
    + rewrite digits_fuel_app.
      destruct (IH (n / 10)) as (d & ds & E & Hd); [lia_div | lia_div |].
      rewrite E. exists d, (ds ++ [48 + n mod 10]). split; [reflexivity | exact Hd].
Qed.

Lemma lex_start_digit (d : N) :
  49 <= d <= 57 -> lex_start d = Some (LNum NInt [d], []).
Proof.
  intros Hd. unfold lex_start, isJsonSpace.
  repeat match goal with
         | |- context [(?x =? ?y)] => destruct (N.eqb_spec x y); [lia|]
         end.
  simpl. replace (isDigit d) with true; [reflexivity|].
  symmetry. apply isDigit_range. lia.
Qed.

Lemma lex_int_digits (ds acc r : jsstring) :
  Forall (fun c => isDigit c = true) ds ->
  lex (ds ++ r) (LNum NInt acc) = lex r (LNum NInt (rev ds ++ acc)).
Proof.
  intros Hds. revert acc. induction Hds as [|c ds Hc _ IH]; intros acc;
    [reflexivity|].
  simpl app. rewrite (lex_silent (LNum NInt acc) (LNum NInt (c :: acc)) c).
  - rewrite IH. simpl. rewrite <- app_assoc. reflexivity.
  - simpl. rewrite Hc. reflexivity.
Qed.

Lemma lex_number_end_delimited (ph : numphase) (acc k : jsstring) :
  ph = NInt \/ ph = NZero -> delimited k ->
  lex k (LNum ph acc) = cons (TNumber (rev acc)) <$> lex k LStart.
Proof.
  intros Hph Hk. destruct k as [|c k].
  - destruct Hph as [-> | ->]; reflexivity.
  - simpl in Hk.
    destruct Hk as [-> | [-> | ->]]; destruct Hph as [-> | ->]; simpl;
      destruct (lex k LStart); reflexivity.
Qed.

Lemma lex_digits (n : N) (k : jsstring) :
  1 <= n -> delimited k ->
  lex (digits n ++ k) LStart = cons (TNumber (digits n)) <$> lex k LStart.
Proof.
  intros Hn Hk.
  destruct (digits_fuel_head (N.size_nat n) n Hn (size_bound n))
    as (d & ds & E & Hd).
  pose proof (digits_isDigit n) as Hall.
  unfold digits in *. rewrite E in *.
  apply Forall_cons in Hall as [_ Hds].
  simpl app. rewrite (lex_silent LStart (LNum NInt [d]) d)
    by (apply lex_start_digit; exact Hd).
  rewrite lex_int_digits by exact Hds.
  rewrite lex_number_end_delimited by (auto || exact Hk).
  rewrite rev_app_distr, rev_involutive. reflexivity.
Qed.

Lemma lex_number (z : Z) (k : jsstring) :
  delimited k ->
  lex (Number_toString z ++ k) LStart
  = cons (TNumber (Number_toString z)) <$> lex k LStart.
Proof.
  intros Hk. destruct z as [|p|p]; simpl Number_toString.
  - simpl app. rewrite (lex_silent LStart (LNum NZero [48]) 48) by reflexivity.
    rewrite lex_number_end_delimited by (auto || exact Hk). reflexivity.
  - apply lex_digits; [lia | exact Hk].
  - destruct (digits_fuel_head (N.size_nat (Npos p)) (Npos p) ltac:(lia)
                (size_bound (Npos p))) as (d & ds & E & Hd).
    pose proof (digits_isDigit (Npos p)) as Hall.
    unfold digits in *. rewrite E in *.
    apply Forall_cons in Hall as [Hd' Hds].
    simpl app. rewrite (lex_silent LStart (LNum NSign [45]) 45) by reflexivity.
    rewrite (lex_silent (LNum NSign [45]) (LNum NInt [d; 45]) d).
    + rewrite lex_int_digits by exact Hds.
      rewrite lex_number_end_delimited by (auto || exact Hk).
      rewrite rev_app_distr, rev_involutive. reflexivity.
    + simpl. destruct (N.eqb_spec d 48); [lia|]. rewrite Hd'. reflexivity.
Qed.

(** *** Values *)

Lemma lex_delimiter (c : N) (t : token) (k : jsstring) :
  lex_start c = Some (LStart, [t]) ->
  lex (c :: k) LStart = cons t <$> lex k LStart.
Proof.
  intros H. rewrite (lex_emit LStart LStart c [t]) by exact H.
  destruct (lex k LStart); reflexivity.
Qed.

(** Elements between commas, up to the closing bracket [close]. *)
Lemma lex_elements {A : Type} (f : A -> jsstring) (g : A -> list token)
      (close : N) (items : list A) (k : jsstring) :
  close = 93 \/ close = 125 ->
  Forall (fun x => lexes (f x) (g x)) items ->
  lex (join [44] (map f items) ++ close :: k) LStart
  = app (commas (map g items)) <$> lex (close :: k) LStart.
Proof.
  intros Hclose Hall. induction Hall as [|x items Hx Hall IH].
  - simpl. symmetry. apply fmap_app_nil.
  - destruct items as [|y items].
    + simpl. apply Hx. simpl. tauto.
    + change (join [44] (map f (x :: y :: items)))
        with (f x ++ 44 :: join [44] (map f (y :: items))).
      change (commas (map g (x :: y :: items)))
        with (g x ++ TComma :: commas (map g (y :: items))).
      rewrite <- app_assoc, <- app_comm_cons.
      rewrite Hx by (simpl; tauto).
      rewrite (lex_delimiter 44 TComma) by reflexivity.
      rewrite IH.
      destruct (lex (close :: k) LStart); simpl; [|reflexivity].
      rewrite <- app_assoc. reflexivity.
Qed.

Lemma plain_items (items : list json) :
  plain (JArray items) -> Forall plain items.
Proof.
  induction items as [|x items IH]; intros H; constructor.
  - apply H.
  - apply IH. apply H.
Qed.

Lemma plain_members (members : list (jsstring * json)) :
  plain (JObject members) -> Forall (fun kv => plain (snd kv)) members.
Proof.
  induction members as [|x members IH]; intros H; constructor.
  - apply H.
  - apply IH. apply H.
Qed.

Lemma Forall_modus {A : Type} (P Q : A -> Prop) (l : list A) :
  Forall (fun x => P x -> Q x) l -> Forall P l -> Forall Q l.
Proof.
  induction 1 as [|x l Hx _ IH]; intros HP; constructor;
    apply Forall_cons in HP as [Hp HP]; auto.
Qed.

Lemma lex_stringify (v : json) :
  plain v -> lexes (stringify v) (tokens_of v).
Proof.
  induction v as [ |b|lexeme|s|items IH|members IH] using json_nested_ind;
    intros Hplain k Hk.
  - simpl app. rewrite (lex_silent LStart (LLit [117; 108; 108] TNull) 110)
      by reflexivity.
    rewrite (lex_silent _ (LLit [108; 108] TNull) 117) by reflexivity.
    rewrite (lex_silent _ (LLit [108] TNull) 108) by reflexivity.
    rewrite (lex_emit _ LStart 108 [TNull]) by reflexivity. reflexivity.
  - destruct b; simpl app.
    + rewrite (lex_silent LStart (LLit [114; 117; 101] TTrue) 116) by reflexivity.
      rewrite (lex_silent _ (LLit [117; 101] TTrue) 114) by reflexivity.
      rewrite (lex_silent _ (LLit [101] TTrue) 117) by reflexivity.
      rewrite (lex_emit _ LStart 101 [TTrue]) by reflexivity. reflexivity.
    + rewrite (lex_silent LStart (LLit [97; 108; 115; 101] TFalse) 102)
        by reflexivity.
      rewrite (lex_silent _ (LLit [108; 115; 101] TFalse) 97) by reflexivity.
      rewrite (lex_silent _ (LLit [115; 101] TFalse) 108) by reflexivity.
      rewrite (lex_silent _ (LLit [101] TFalse) 115) by reflexivity.
      rewrite (lex_emit _ LStart 101 [TFalse]) by reflexivity. reflexivity.
  - destruct Hplain as [z ->]. simpl stringify. simpl tokens_of.
    rewrite lex_number by exact Hk. destruct (lex k LStart); reflexivity.
  - simpl stringify. simpl tokens_of. rewrite lex_quote.
    destruct (lex k LStart); reflexivity.
  - pose proof (Forall_modus _ _ _ IH (plain_items _ Hplain)) as Hall.
    simpl stringify. simpl tokens_of.
    rewrite <- app_comm_cons, <- app_assoc. simpl app.
    rewrite (lex_delimiter 91 TLBracket) by reflexivity.
    rewrite (lex_elements stringify tokens_of 93) by (auto || exact Hall).
    rewrite (lex_delimiter 93 TRBracket) by reflexivity.
    destruct (lex k LStart); simpl; [|reflexivity].
    rewrite <- app_assoc. reflexivity.
  - pose proof (Forall_modus _ _ _ IH (plain_members _ Hplain)) as Hall.
    simpl stringify. simpl tokens_of.
    rewrite <- app_comm_cons, <- app_assoc. simpl app.
    rewrite (lex_delimiter 123 TLBrace) by reflexivity.
    rewrite (lex_elements
               (fun kv => quoteJSONString (fst kv) ++ 58 :: stringify (snd kv))
               (fun kv => TString (fst kv) :: TColon :: tokens_of (snd kv)) 125).
    + rewrite (lex_delimiter 125 TRBrace) by reflexivity.
      destruct (lex k LStart); simpl; [|reflexivity].
      rewrite <- app_assoc. reflexivity.
    + auto.
    + eapply Forall_impl; [exact Hall|]. intros [key x] Hx k' Hk'.
      cbn [fst snd] in *.
      rewrite <- app_assoc, lex_quote. rewrite <- app_comm_cons.
      rewrite (lex_delimiter 58 TColon) by reflexivity.
      rewrite (Hx k' Hk'). destruct (lex k' LStart); reflexivity.
Qed.

(** *** Tokens *)

Lemma parse_first_element (v : json) (rest : list token) (stk : list frame) :
  parse_tokens (tokens_of v ++ rest) (PArrFirst stk)
  = parse_tokens (tokens_of v ++ rest) (PValue (FArr [] :: stk)).
Proof. destruct v as [ |[|]| | | | ]; reflexivity. Qed.

Lemma parse_elements (items : list json) (acc : list json)
      (stk : list frame) (rest : list token) :
  items <> [] -> Forall parses items ->
  parse_tokens (commas (map tokens_of items) ++ TRBracket :: rest)
               (PValue (FArr acc :: stk))
  = parse_tokens rest (reduce (JArray (rev acc ++ items)) stk).
Proof.
  intros Hne Hall. revert acc Hne.
  induction Hall as [|x items Hx Hall IH]; intros acc Hne;
    [exfalso; apply Hne; reflexivity|].
  destruct items as [|y items].
  - simpl commas. rewrite Hx. simpl. reflexivity.
  - change (commas (map tokens_of (x :: y :: items)))
      with (tokens_of x ++ TComma :: commas (map tokens_of (y :: items))).
    rewrite <- app_assoc, Hx. simpl reduce. rewrite <- app_comm_cons.
    simpl parse_tokens at 1. rewrite IH by discriminate.
    simpl. rewrite <- app_assoc. reflexivity.
Qed.

Lemma parse_cons (t : token) (ts : list token) (st st' : pstate) :
  parse_step st t = Some st' -> parse_tokens (t :: ts) st = parse_tokens ts st'.
Proof. intros H. simpl. rewrite H. reflexivity. Qed.

Lemma parse_members (members : list (jsstring * json))
      (acc : list (jsstring * json)) (stk : list frame) (rest : list token) :
  members <> [] -> Forall (fun kv => parses (snd kv)) members ->
  parse_tokens
    (commas (map (fun kv => TString (fst kv) :: TColon :: tokens_of (snd kv))
                 members) ++ TRBrace :: rest)
    (PKey acc stk)
  = parse_tokens rest (reduce (JObject (rev acc ++ members)) stk).
Proof.
  intros Hne Hall. revert acc Hne.
  induction Hall as [|[key x] members Hx Hall IH]; intros acc Hne;
    [exfalso; apply Hne; reflexivity|].
  cbn [snd] in Hx. destruct members as [|y members].
  - cbn [commas map fst snd]. rewrite <- !app_comm_cons.
    rewrite (parse_cons _ _ (PKey acc stk) (PColon acc key stk)) by reflexivity.
    rewrite (parse_cons _ _ _ (PValue (FObj acc key :: stk))) by reflexivity.
    rewrite Hx.
    rewrite (parse_cons _ _ _ (reduce (JObject (rev ((key, x) :: acc))) stk))
      by reflexivity.
    reflexivity.
  - change (commas (map (fun kv => TString (fst kv) :: TColon :: tokens_of (snd kv))
                        ((key, x) :: y :: members)))
      with ((TString key :: TColon :: tokens_of x)
              ++ TComma :: commas (map (fun kv => TString (fst kv) :: TColon
                                                    :: tokens_of (snd kv))
                                       (y :: members))).
    rewrite <- app_assoc, <- !app_comm_cons.
    rewrite (parse_cons _ _ (PKey acc stk) (PColon acc key stk)) by reflexivity.
    rewrite (parse_cons _ _ _ (PValue (FObj acc key :: stk))) by reflexivity.
    rewrite Hx.
    rewrite (parse_cons _ _ _ (PKey ((key, x) :: acc) stk)) by reflexivity.
    rewrite IH by discriminate. simpl rev. rewrite <- app_assoc. reflexivity.
Qed.

Lemma parse_tokens_of (v : json) : parses v.
Proof.
  induction v as [ |b|lexeme|s|items IH|members IH] using json_nested_ind;
    intros stk rest; try reflexivity.
  - destruct b; reflexivity.
  - simpl tokens_of. rewrite <- app_comm_cons, <- app_assoc.
    simpl parse_tokens at 1. destruct items as [|x items]; [reflexivity|].
    change (commas (map tokens_of (x :: items)) ++ [TRBracket] ++ rest)
      with (commas (map tokens_of (x :: items)) ++ TRBracket :: rest).
    transitivity (parse_tokens
                    (commas (map tokens_of (x :: items)) ++ TRBracket :: rest)
                    (PValue (FArr [] :: stk))).
    + destruct items as [|y items].
      * simpl commas. apply parse_first_element.
      * change (commas (map tokens_of (x :: y :: items)))
          with (tokens_of x ++ TComma :: commas (map tokens_of (y :: items))).
        rewrite <- app_assoc. apply parse_first_element.
    + rewrite parse_elements by (discriminate || exact IH). reflexivity.
  - simpl tokens_of. rewrite <- app_comm_cons, <- app_assoc.
    simpl parse_tokens at 1. destruct members as [|[key x] members];
      [reflexivity|].
    transitivity (parse_tokens
                    (commas (map (fun kv => TString (fst kv) :: TColon
                                              :: tokens_of (snd kv))
                                 ((key, x) :: members)) ++ TRBrace :: rest)
                    (PKey [] stk)).
    + destruct members; reflexivity.
    + rewrite parse_members by (discriminate || exact IH). reflexivity.
Qed.

(** Parsing the text of a value gives the value. *)
Lemma JSON_parse_stringify (v : json) :
  plain v -> JSON_parse (stringify v) = Some v.
Proof.
  intros Hv. unfold JSON_parse.
  pose proof (lex_stringify v Hv [] I) as H. rewrite app_nil_r in H.
  rewrite H. simpl.
  pose proof (parse_tokens_of v [] []) as Hp. rewrite Hp. reflexivity.
Qed.

(** *** The document *)

Lemma plain_strings (l : list jsstring) : plain (ofStrings l).
Proof. unfold ofStrings. induction l; simpl; auto. Qed.

Lemma plain_map {A : Type} (f : A -> json) (l : list A) :
  (forall x, plain (f x)) -> plain (JArray (map f l)).
Proof. intros Hf. induction l; simpl; auto. Qed.

Lemma plain_number (z : Z) : plain (ofNumber z).
Proof. exists z. reflexivity. Qed.

Lemma plain_ofProduct (p : Product.t) : plain (ofProduct p).
Proof. simpl. repeat split; apply plain_strings. Qed.

Lemma plain_ofEntry (e : ShippingEntry.t) : plain (ofEntry e).
Proof. simpl. repeat split. apply plain_number. Qed.

Lemma plain_ofCollection (c : Collection.t) : plain (ofCollection c).
Proof.
  unfold ofCollection. destruct (Collection.logoUrl c); simpl;
    repeat split;
    try apply plain_number; try apply plain_strings;
    try apply (plain_map ofProduct _ plain_ofProduct);
    apply (plain_map ofEntry _ plain_ofEntry).
Qed.

Lemma plain_ofState (st : AppState.t) : plain (ofState st).
Proof.
  simpl. split; [apply (plain_map ofCollection _ plain_ofCollection)|].
  destruct (AppState.activeCollectionId st); simpl; auto.
Qed.

(** *** Nothing is lost *)

Lemma digits_inj (n m : N) : digits n = digits m -> n = m.
Proof.
  intros E. rewrite <- (proj1 (digits_value n)), <- (proj1 (digits_value m)), E.
  reflexivity.
Qed.

Lemma digits_head (p : positive) :
  exists d ds, digits (Npos p) = d :: ds /\ 49 <= d <= 57.
Proof.
  apply (digits_fuel_head (N.size_nat (Npos p)) (Npos p)); [lia|].
  apply size_bound.
Qed.

Lemma Number_toString_inj (z1 z2 : Z) :
  Number_toString z1 = Number_toString z2 -> z1 = z2.
Proof.
  destruct z1 as [|p|p], z2 as [|q|q]; simpl; intros E;
    try reflexivity; try discriminate;
    try (destruct (digits_head p) as (d & ds & Ed & Hd); rewrite Ed in E;
         injection E as E _; lia);
    try (destruct (digits_head q) as (d & ds & Ed & Hd); rewrite Ed in E;
         injection E as E _; lia).
  - apply digits_inj in E. congruence.
  - injection E as E. apply digits_inj in E. congruence.
Qed.

Lemma map_injective {A B : Type} (f : A -> B) (l1 l2 : list A) :
  (forall x y, f x = f y -> x = y) -> map f l1 = map f l2 -> l1 = l2.
Proof.
  intros Hf. revert l2. induction l1 as [|x l1 IH]; intros [|y l2] E;
    try discriminate; [reflexivity|].
  injection E as Exy E. f_equal; [apply Hf; exact Exy | apply IH; exact E].
Qed.

Lemma strings_inj (l1 l2 : list jsstring) :
  map JString l1 = map JString l2 -> l1 = l2.
Proof.
  apply (map_injective JString). intros x y [= ->]. reflexivity.
Qed.

Lemma ShippingStatus_value_inj (s1 s2 : ShippingStatus) :
  ShippingStatus_value s1 = ShippingStatus_value s2 -> s1 = s2.
Proof. destruct s1, s2; intros E; try reflexivity; vm_compute in E; discriminate. Qed.

Ltac invert_fields :=
  repeat match goal with
         | H : map JString _ = map JString _ |- _ => apply strings_inj in H
         | H : Number_toString _ = Number_toString _ |- _ =>
           apply Number_toString_inj in H
         | H : ShippingStatus_value _ = ShippingStatus_value _ |- _ =>
           apply ShippingStatus_value_inj in H
         end.

Lemma ofProduct_inj (p1 p2 : Product.t) : ofProduct p1 = ofProduct p2 -> p1 = p2.
Proof.
  destruct p1, p2. unfold ofProduct, ofStrings. simpl. intros E.
  injection E; intros. invert_fields. congruence.
Qed.

Lemma ofEntry_inj (e1 e2 : ShippingEntry.t) : ofEntry e1 = ofEntry e2 -> e1 = e2.
Proof.
  destruct e1, e2. unfold ofEntry, ofNumber. simpl. intros E.
  injection E; intros. invert_fields. congruence.
Qed.

Lemma ofCollection_inj (c1 c2 : Collection.t) :
  ofCollection c1 = ofCollection c2 -> c1 = c2.
Proof.
  destruct c1 as [i1 n1 a1 m1 [u1|] l1 t1 b1 p1 s1],
           c2 as [i2 n2 a2 m2 [u2|] l2 t2 b2 p2 s2];
    unfold ofCollection, ofNumber, ofStrings; simpl; intros E;
    try (apply (f_equal keyLengths) in E; vm_compute in E; discriminate);
    injection E; intros; invert_fields;
    repeat match goal with
           | H : map ofProduct _ = map ofProduct _ |- _ =>
             apply (map_injective ofProduct _ _ ofProduct_inj) in H
           | H : map ofEntry _ = map ofEntry _ |- _ =>
             apply (map_injective ofEntry _ _ ofEntry_inj) in H
           end;
    congruence.
Qed.

Lemma ofState_inj (st1 st2 : AppState.t) : ofState st1 = ofState st2 -> st1 = st2.
Proof.
  destruct st1 as [cs1 [id1|] ad1], st2 as [cs2 [id2|] ad2];
    unfold ofState; simpl; intros E; try discriminate;
    injection E as E1 E2;
    apply (map_injective ofCollection _ _ ofCollection_inj) in E1; congruence.
Qed.

(** X19.  What the component saves is what it loads: after the save
    effect has written a document, the initializer of the state reads
    back the value of that document, with nothing on the console,
    whatever text its strings hold (quotes, backslashes, control
    characters, lone surrogates) and whatever else the storage holds.
    The value has the shape of the document. *)
Theorem load_after_save (st : AppState.t) (localStorage : Utils.Storage) :
  App.load (save st localStorage) = (ofState st, [])
  /\ Shape.isAppState (ofState st) = true
  /\ (forall key, key <> App.STORAGE_KEY ->
                  save st localStorage !! key = localStorage !! key).
Proof.
  split; [|split].
  - unfold App.load, save. rewrite lookup_insert_eq.
    rewrite (JSON_parse_stringify _ (plain_ofState st)). reflexivity.
  - unfold ofState. destruct (AppState.activeCollectionId st); reflexivity.
  - intros key Hkey. unfold save. apply lookup_insert_ne. congruence.
Qed.

(** X20.  Saving loses nothing: two documents that are written as the
    same text are the same document, in every collection, product,
    entry and field. *)
Theorem save_is_injective (st1 st2 : AppState.t) :
  stringify (ofState st1) = stringify (ofState st2) -> st1 = st2.
Proof.
  intros E. apply ofState_inj.
  pose proof (JSON_parse_stringify _ (plain_ofState st1)) as H1.
  pose proof (JSON_parse_stringify _ (plain_ofState st2)) as H2.
  congruence.
Qed.

Lemma save_is_injective_witness :
  Sample.document = Sample.document.
Proof.
  apply (save_is_injective Sample.document Sample.document). reflexivity.
Defined.

(** X21.  A save writes one value under the key of the application and
    replaces the one it held: the estimate of [getStorageUsage] then
    counts the other keys as before and two bytes for each unit of the
    key and of the text of the document.  So the creation of collections
    is refused as soon as that sum reaches 4,975,494.  The text is the
    one the host writes for a document whose numbers are below 10^21. *)
Theorem usage_after_save (st : AppState.t) (localStorage : Utils.Storage) :
  plainNumbers st ->
  let text := stringify (ofState st) in
  Utils.usage_total (save st localStorage)
  = (Utils.usage_total (delete App.STORAGE_KEY localStorage)
     + 2 * (16 + Js.length text))%Z
  /\ (0 <= Utils.usage_total (delete App.STORAGE_KEY localStorage))%Z
  /\ (App.storage_nearly_full (save st localStorage) = true
      <-> (4975494 <= Utils.usage_total (delete App.STORAGE_KEY localStorage)
                      + 2 * (16 + Js.length text))%Z).
Proof.
  intros _ text.
  assert (E : Utils.usage_total (save st localStorage)
              = (Utils.usage_total (delete App.STORAGE_KEY localStorage)
                 + 2 * (16 + Js.length text))%Z).
  { unfold save. rewrite <- insert_delete_eq.
    rewrite usage_total_insert; [reflexivity | apply lookup_delete_eq |].
    apply (bool_decide_eq_false_1 (App.STORAGE_KEY ∈ Utils.inherited)).
    vm_compute. reflexivity. }
  split; [exact E|]. split; [apply usage_total_nonneg|].
  rewrite nearly_full_total, E. reflexivity.
Qed.

(** The sample document saved into a storage that holds a key of an
    inherited name: that key is not counted. *)
Lemma usage_after_save_witness :
  Utils.usage_total (save Sample.document {[ js "length" := js "twelve" ]})
  = (2 * (16 + Js.length (stringify (ofState Sample.document))))%Z.
Proof.
  etransitivity.
  - apply (usage_after_save Sample.document {[ js "length" := js "twelve" ]}).
    repeat constructor.
  - assert (E : Utils.usage_total
                  (delete App.STORAGE_KEY
                     ({[ js "length" := js "twelve" ]} : Utils.Storage))
                = 0%Z); [|rewrite E; reflexivity].
    rewrite delete_id by reflexivity.
    rewrite <- insert_empty, usage_total_inherited.
    + rewrite delete_empty. reflexivity.
    + apply (bool_decide_eq_true_1 (js "length" ∈ Utils.inherited)).
      vm_compute. reflexivity.
Defined.

End Persistence.

(** ** The admin code and the catalog *)

Section AdminCode.

Variable toLowerCase : jsstring -> jsstring.

(** X22.  Once the admin code is set to a text, an input with the same
    trimmed lower-case form opens the admin session, whatever the
    collections are.  An empty admin code is accepted, and then an empty
    or blank input opens the admin session. *)
Theorem updateAdminCode_then_login (code input : jsstring) (a : App.t) :
  let a1 := App.setAccessCodeInput input (AppAdmin.updateAdminCode code a) in
  AppState.collections (App.state a1) = AppState.collections (App.state a)
  /\ AppState.adminAccessCode (App.state a1) = code
  /\ (toLowerCase (trim input) = toLowerCase code ->
      App.currentUser (App.handleLogin toLowerCase a1) = Some User.admin
      /\ App.view (App.handleLogin toLowerCase a1) = View.select_collection)
  /\ (code = [] -> trim input = [] ->
      App.currentUser (App.handleLogin toLowerCase a1) = Some User.admin).
Proof.
  intros a1.
  assert (Hadm : toLowerCase (trim input) = toLowerCase code ->
                 App.handleLogin toLowerCase a1
                 = App.setView View.select_collection
                     (App.setCurrentUser (Some User.admin) a1)).
  { intros E. unfold App.handleLogin.
    replace (App.accessCodeInput a1) with input by (destruct a; reflexivity).
    replace (AppState.adminAccessCode (App.state a1)) with code
      by (destruct a; reflexivity).
    rewrite (proj2 (eqb_true _ _) E). reflexivity. }
  split; [destruct a; reflexivity|]. split; [destruct a; reflexivity|]. split.
  - intros E. rewrite (Hadm E). destruct a; split; reflexivity.
  - intros -> E. rewrite Hadm by (rewrite E; reflexivity).
    destruct a; reflexivity.
Qed.

End AdminCode.

Lemma updateAdminCode_then_login_witness :
  App.currentUser
    (App.handleLogin asciiLower
       (App.setAccessCodeInput (js "  ")
          (AppAdmin.updateAdminCode [] Sample.asAdmin)))
  = Some User.admin.
Proof.
  apply (proj2 (proj2 (proj2
           (updateAdminCode_then_login asciiLower [] (js "  ") Sample.asAdmin))));
    reflexivity.
Defined.

Section CatalogEdits.

Import Catalog.

Local Abbreviation pids := (map Product.id).

Lemma product_map_absent (prod : Product.t) (change : Product.t -> Product.t)
      (ps : list Product.t) :
  Product.id prod ∉ pids ps ->
  map (fun p => if Js.eqb (Product.id p) (Product.id prod) then change p else p) ps
  = ps.
Proof.
  induction ps as [|x ps IH]; intros Hno; [reflexivity|].
  simpl in *. apply not_elem_of_cons in Hno as [Hx Hps].
  replace (Js.eqb (Product.id x) (Product.id prod)) with false
    by (symmetry; apply eqb_false; congruence).
  f_equal. apply IH. exact Hps.
Qed.

Lemma product_lookup_id (ps : list Product.t) (i : nat) (p : Product.t) :
  ps !! i = Some p -> Product.id p ∈ pids ps.
Proof.
  intros Hi. apply list_elem_of_In, in_map, list_elem_of_In.
  apply list_elem_of_lookup. exists i. exact Hi.
Qed.

Lemma product_map_insert (prod : Product.t) (change : Product.t -> Product.t)
      (ps : list Product.t) (i : nat) :
  NoDup (pids ps) -> ps !! i = Some prod ->
  map (fun p => if Js.eqb (Product.id p) (Product.id prod) then change p else p) ps
  = <[i := change prod]> ps.
Proof.
  revert i. induction ps as [|x ps IH]; intros i Hnd Hi; [discriminate|].
  simpl in Hnd. apply NoDup_cons in Hnd as [Hx Hnd].
  destruct i as [|i]; simpl in *.
  - injection Hi as ->.
    replace (Js.eqb (Product.id prod) (Product.id prod)) with true
      by (symmetry; apply eqb_true; reflexivity).
    f_equal. apply product_map_absent. exact Hx.
  - replace (Js.eqb (Product.id x) (Product.id prod)) with false.
    + f_equal. apply IH; assumption.
    + symmetry. apply eqb_false. intros E. apply Hx. rewrite E.
      apply (product_lookup_id ps i prod Hi).
Qed.

Lemma product_filter_absent (prod : Product.t) (ps : list Product.t) :
  Product.id prod ∉ pids ps ->
  filter (fun p => Js.eqb (Product.id p) (Product.id prod) = false) ps = ps.
Proof.
  induction ps as [|x ps IH]; intros Hno; [reflexivity|].
  simpl in Hno. apply not_elem_of_cons in Hno as [Hx Hps].
  rewrite filter_cons_True by (apply eqb_false; congruence).
  f_equal. apply IH. exact Hps.
Qed.

Lemma product_filter_delete (prod : Product.t) (ps : list Product.t) (i : nat) :
  NoDup (pids ps) -> ps !! i = Some prod ->
  filter (fun p => Js.eqb (Product.id p) (Product.id prod) = false) ps
  = delete i ps.
Proof.
  revert i. induction ps as [|x ps IH]; intros i Hnd Hi; [discriminate|].
  simpl in Hnd. apply NoDup_cons in Hnd as [Hx Hnd].
  destruct i as [|i]; simpl in *.
  - injection Hi as ->.
    rewrite filter_cons_False
      by (intros H; apply eqb_false in H; apply H; reflexivity).
    apply product_filter_absent. exact Hx.
  - rewrite filter_cons_True.
    + f_equal. apply IH; assumption.
    + apply eqb_false. intros E. apply Hx. rewrite E.
      apply (product_lookup_id ps i prod Hi).
Qed.

Lemma activeProducts_update (collection : Collection.t) (ps : list Product.t)
      (a : App.t) :
  activeProducts (App.updateCollection (with_products collection ps) a) = Some ps.
Proof. destruct a; reflexivity. Qed.

(** X23.  When the products of the catalog have distinct ids, a change
    of the name or of the size options of a product rewrites that
    product alone, and its remove button, once confirmed, takes out that
    product alone; the shipping entries of the collection stay. *)
Theorem catalog_edits_one_product (collection : Collection.t)
        (prod : Product.t) (i : nat) (a : App.t) :
  NoDup (pids (Collection.products collection)) ->
  Collection.products collection !! i = Some prod ->
  (forall v, activeProducts (onNameChange collection prod v a)
             = Some (<[i := with_name prod v]> (Collection.products collection)))
  /\ (forall v, activeProducts (onOptionsChange collection prod v a)
                = Some (<[i := with_options prod (parseOptions v)]>
                          (Collection.products collection)))
  /\ activeProducts (onRemoveProduct collection prod true a)
     = Some (delete i (Collection.products collection))
  /\ onRemoveProduct collection prod false a = a
  /\ (forall v, ShippingTable.activeEntries (onNameChange collection prod v a)
                = Some (Collection.shippingEntries collection))
  /\ ShippingTable.activeEntries (onRemoveProduct collection prod true a)
     = Some (Collection.shippingEntries collection).
Proof.
  intros Hnd Hi. unfold onNameChange, onOptionsChange, onRemoveProduct.
  split; [|split; [|split; [|split; [|split]]]].
  - intros v. rewrite activeProducts_update. f_equal.
    apply (product_map_insert prod (fun p => with_name p v)); assumption.
  - intros v. rewrite activeProducts_update. f_equal.
    apply (product_map_insert prod (fun p => with_options p (parseOptions v)));
      assumption.
  - rewrite activeProducts_update. f_equal.
    apply product_filter_delete; assumption.
  - reflexivity.
  - intros v. destruct a; reflexivity.
  - destruct a; reflexivity.
Qed.

Lemma catalog_edits_one_product_witness :
  activeProducts (onRemoveProduct Sample.collection Sample.tee true Sample.asAdmin)
  = Some [].
Proof.
  apply (proj1 (proj2 (proj2
           (catalog_edits_one_product Sample.collection Sample.tee 0
              Sample.asAdmin
              ltac:(repeat constructor; apply not_elem_of_nil) eq_refl)))).
Defined.

(** X24.  Adding a product and removing it gives back the collection as
    it was, when the generated id is the id of no product of the
    catalog. *)
Theorem add_then_remove_product (collection : Collection.t)
        (random36 : jsstring) (a : App.t) (updated : Collection.t)
        (newProd : Product.t) :
  Utils.generateId random36 ∉ pids (Collection.products collection) ->
  App.activeCollection (onAddProduct collection random36 a) = Some updated ->
  last (Collection.products updated) = Some newProd ->
  Product.options newProd = [js "OS"]
  /\ Product.id newProd = Utils.generateId random36
  /\ App.activeCollection
       (onRemoveProduct updated newProd true (onAddProduct collection random36 a))
     = Some collection.
Proof.
  intros Hfresh Hact Hlast.
  set (p := {| Product.id := Utils.generateId random36;
               Product.name := js "New Item";
               Product.price := js "0";
               Product.options := [js "OS"];
               Product.description := [];
               Product.images := [] |}).
  assert (E : updated = with_products collection
                          (Collection.products collection ++ [p])).
  { destruct a; simpl in Hact. injection Hact as <-. reflexivity. }
  subst updated.
  change (Collection.products
            (with_products collection (Collection.products collection ++ [p])))
    with (Collection.products collection ++ [p]) in Hlast.
  rewrite last_snoc in Hlast. injection Hlast as <-.
  split; [reflexivity|]. split; [reflexivity|].
  unfold onRemoveProduct.
  change (Collection.products
            (with_products collection (Collection.products collection ++ [p])))
    with (Collection.products collection ++ [p]).
  rewrite filter_app, (product_filter_absent p) by exact Hfresh.
  rewrite filter_cons_False, filter_nil, app_nil_r
    by (intros H; apply eqb_false in H; apply H; reflexivity).
  replace (with_products
             (with_products collection (Collection.products collection ++ [p]))
             (Collection.products collection))
    with collection by (destruct collection; reflexivity).
  destruct a; reflexivity.
Qed.

Lemma add_then_remove_product_witness :
  exists updated newProd,
    App.activeCollection (onAddProduct Sample.collection (js "0.q7") Sample.asAdmin)
    = Some updated
    /\ App.activeCollection
         (onRemoveProduct updated newProd true
            (onAddProduct Sample.collection (js "0.q7") Sample.asAdmin))
       = Some Sample.collection.
Proof.
  eexists. eexists. split; [reflexivity|].
  apply (add_then_remove_product Sample.collection (js "0.q7") Sample.asAdmin).
  - vm_compute. intros H. apply list_elem_of_In in H.
    destruct H as [H | []]. discriminate H.
  - reflexivity.
  - reflexivity.
Defined.

End CatalogEdits.

(** ** Logging out *)

Section Logout.

Variable toLowerCase : jsstring -> jsstring.

(** X25.  [handleLogout] ends the session and keeps the document: nobody
    is logged in, no collection is active, the cart and the code input
    are empty and the login view shows.  Whoever logs in next starts
    with an empty cart and the same document, and an influencer gets the
    collection as the document holds it. *)
Theorem logout_then_login (input : jsstring) (a : App.t) :
  let a0 := App.handleLogout a in
  let a1 := App.handleLogin toLowerCase (App.setAccessCodeInput input a0) in
  (App.currentUser a0 = None /\ App.activeCollection a0 = None
   /\ App.cart a0 = [] /\ App.view a0 = View.login
   /\ App.accessCodeInput a0 = [] /\ App.state a0 = App.state a)
  /\ App.cart a1 = []
  /\ App.state a1 = App.state a
  /\ (forall c, App.activeCollection a1 = Some c ->
                App.currentUser a1 = Some User.influencer
                /\ In c (AppState.collections (App.state a))).
Proof.
  intros a0 a1. split; [destruct a; repeat split; reflexivity|].
  subst a1. unfold App.handleLogin.
  destruct (Js.eqb _ _).
  - subst a0. destruct a; simpl.
    split; [reflexivity|]. split; [reflexivity|]. intros c H. discriminate H.
  - destruct (find _ _) as [m|] eqn:Ef.
    + apply find_some in Ef as [Hin _].
      subst a0. destruct a; simpl in *.
      split; [reflexivity|]. split; [reflexivity|].
      intros c H. injection H as <-. split; [reflexivity|exact Hin].
    + subst a0. destruct a; simpl.
      split; [reflexivity|]. split; [reflexivity|]. intros c H. discriminate H.
Qed.

End Logout.
